(** * vocal-stack: the flow-control subsystem

    A shallow embedding of [src/flow]: the conversation state machine
    ([state-machine.ts]), the filler rotation ([filler-injector.ts]), the
    circular buffer ([buffer-manager.ts]), the stall detector
    ([stall-detector.ts]) and the two orchestrators ([flow-manager.ts],
    [flow-controller.ts]).

    Conventions of the embedding.
    - JavaScript numbers that the code uses as counters, indices, sizes and
      millisecond clocks are integers [Z]; the one place where the code can
      produce [NaN] (a remainder by the length of an empty phrase list) is
      written out with [option Z].
    - A method that can throw returns a [completion]; a method that mutates
      [this] takes the object and returns the mutated object, also when it
      throws half-way (JavaScript does not roll back).
    - [Date.now()] is an argument [now] of the method that reads it.
    - User callbacks (listeners) are opaque: all the embedding keeps of a call
      is an entry in a trace and whether the call threw.  Listeners that call
      back into the object that is notifying them are not modelled. *)

From Stdlib Require Import ZArith Lia.
From stdpp Require Import base option list gmap strings.

Open Scope Z_scope.

(** ** Conversation states ([types.ts]) *)

Inductive ConversationState : Type :=
  | IDLE
  | WAITING
  | SPEAKING
  | INTERRUPTED.

#[global] Instance ConversationState_eq_dec : EqDecision ConversationState.
Proof. solve_decision. Defined.

(** The string value of each enum member, as interpolated in messages. *)
Definition state_name (s : ConversationState) : string :=
  match s with
  | IDLE => "idle"
  | WAITING => "waiting"
  | SPEAKING => "speaking"
  | INTERRUPTED => "interrupted"
  end.

(** ** Errors ([errors.ts]) and completions *)

Inductive exn : Type :=
  | FlowControlError (message : string) (context : errctx)
  | JsError (message : string)
  | UserThrown (tag : nat)
with errctx : Type :=
  | CtxNone
  | CtxTransition (from to : ConversationState)
  | CtxError (error : exn).

Inductive completion (A : Type) : Type :=
  | Normal (a : A)
  | Throw (e : exn).
Arguments Normal {A} a.
Arguments Throw {A} e.

Definition is_normal {A} (c : completion A) : bool :=
  match c with Normal _ => true | Throw _ => false end.

(** ** Methods as state transformers

    [Eff W A] is a method body acting on a world [W]: it returns the world
    as the body left it and either a value or the exception that ended
    it. *)

Definition Eff (W A : Type) : Type := W → W * completion A.

Definition ret {W A} (a : A) : Eff W A := λ w, (w, Normal a).
Definition throw {W A} (e : exn) : Eff W A := λ w, (w, Throw e).
Definition bind {W A B} (m : Eff W A) (k : A → Eff W B) : Eff W B :=
  λ w, match m w with
       | (w', Normal a) => k a w'
       | (w', Throw e) => (w', Throw e)
       end.

Notation "x <- m ;; k" := (bind m (λ x, k))
  (at level 100, m at level 99, k at level 100, right associativity).
Notation "m ;;; k" := (bind m (λ _, k))
  (at level 100, k at level 100, right associativity).

(** [try { body } finally { fin }] where [fin] does not throw. *)
Definition try_finally {W A} (body : Eff W A) (fin : W → W) : Eff W A :=
  λ w, let r := body w in (fin r.1, r.2).

(** [try { body } catch (error) { throw wrap(error) }]. *)
Definition try_rethrow {W A} (body : Eff W A) (wrap : exn → exn) : Eff W A :=
  λ w, match body w with
       | (w', Normal a) => (w', Normal a)
       | (w', Throw e) => (w', Throw (wrap e))
       end.

(** ** The state machine ([state-machine.ts]) *)

Definition VALID_TRANSITIONS (s : ConversationState) : list ConversationState :=
  match s with
  | IDLE => [SPEAKING; WAITING]
  | WAITING => [SPEAKING; IDLE; INTERRUPTED]
  | SPEAKING => [INTERRUPTED; IDLE]
  | INTERRUPTED => [IDLE; WAITING]
  end.

(** [===] on states. *)
Definition state_eqb (a b : ConversationState) : bool :=
  match a, b with
  | IDLE, IDLE | WAITING, WAITING | SPEAKING, SPEAKING | INTERRUPTED, INTERRUPTED => true
  | _, _ => false
  end.

(** [Array.prototype.includes] on a list of states. *)
Definition includes (l : list ConversationState) (x : ConversationState) : bool :=
  existsb (state_eqb x) l.

Definition invalid_transition (from to : ConversationState) : exn :=
  FlowControlError
    ("Invalid state transition: " +:+ state_name from +:+ " -> " +:+ state_name to)
    (CtxTransition from to).

Module StateMachine.
Section Generic.
(** [L] is what is stored in the listener set, [W] the world the listeners
    act on.  [key] is the identity of a listener function (a JavaScript
    [Set] holds each reference once and iterates in insertion order). *)
Context {L W : Type}.
Variable key : L → nat.
Variable invoke : L → ConversationState → ConversationState → W → W * completion unit.

Record t : Type := Build {
  currentState : ConversationState;
  listeners : list L;
}.

Definition create : t := {| currentState := IDLE; listeners := [] |}.

Definition getState (m : t) : ConversationState := currentState m.

(** [for (const listener of this.listeners) listener(from, to)]: no
    [try], so the first exception leaves the loop. *)
Fixpoint notify (ls : list L) (from to : ConversationState) (w : W)
  : W * completion unit :=
  match ls with
  | [] => (w, Normal tt)
  | l :: ls' =>
      match invoke l from to w with
      | (w', Normal _) => notify ls' from to w'
      | (w', Throw e) => (w', Throw e)
      end
  end.

Definition transition (to : ConversationState) (m : t) (w : W)
  : t * W * completion bool :=
  if negb (includes (VALID_TRANSITIONS (currentState m)) to) then
    (m, w, Throw (invalid_transition (currentState m) to))
  else
    let from := currentState m in
    let m' := {| currentState := to; listeners := listeners m |} in
    match notify (listeners m') from to w with
    | (w', Normal _) => (m', w', Normal true)
    | (w', Throw e) => (m', w', Throw e)
    end.

Definition has_listener (l : L) (m : t) : bool :=
  bool_decide (key l ∈ map key (listeners m)).

(** [this.listeners.add(listener)]; the returned unsubscribe function is
    [unsubscribe l]. *)
Definition onStateChange (l : L) (m : t) : t :=
  if has_listener l m then m
  else {| currentState := currentState m; listeners := listeners m ++ [l] |}.

Definition unsubscribe (l : L) (m : t) : t :=
  {| currentState := currentState m;
     listeners := filter (λ l', key l' ≠ key l) (listeners m) |}.

Definition reset (m : t) : t :=
  {| currentState := IDLE; listeners := listeners m |}.
End Generic.
Arguments t : clear implicits.
End StateMachine.

(** *** A state machine used on its own: user listeners *)

(** A user-supplied state listener: its identity and whether it throws on a
    given notification. *)
Record StateListener : Type := {
  sl_id : nat;
  sl_throws : ConversationState → ConversationState → option exn;
}.

(** What a run of listeners leaves behind: who was called, with what. *)
Definition StateCall : Type := nat * ConversationState * ConversationState.

Definition call_state_listener (l : StateListener) (from to : ConversationState)
  (log : list StateCall) : list StateCall * completion unit :=
  (log ++ [(sl_id l, from, to)],
   match sl_throws l from to with
   | None => Normal tt
   | Some e => Throw e
   end).

Definition UserMachine : Type := StateMachine.t StateListener.

Definition um_transition (to : ConversationState) (m : UserMachine)
  (log : list StateCall) : UserMachine * list StateCall * completion bool :=
  StateMachine.transition call_state_listener to m log.

(** One entry per [transition()] call of a run: the state before the call,
    the requested target and how the call completed. *)
Record Attempt : Type := {
  at_from : ConversationState;
  at_to : ConversationState;
  at_result : completion bool;
}.

(** A sequence of [transition()] calls; the caller catches whatever a call
    throws and goes on with the next one. *)
Fixpoint um_run (tos : list ConversationState) (m : UserMachine)
  (log : list StateCall) : UserMachine * list StateCall * list Attempt :=
  match tos with
  | [] => (m, log, [])
  | to :: rest =>
      let '(m', log', r) := um_transition to m log in
      let '(m'', log'', atts) := um_run rest m' log' in
      (m'', log'',
       {| at_from := StateMachine.getState m; at_to := to; at_result := r |} :: atts)
  end.

Definition in_table (from to : ConversationState) : bool :=
  includes (VALID_TRANSITIONS from) to.

Definition attempt_in_table (a : Attempt) : bool := in_table (at_from a) (at_to a).

(** A machine in [IDLE] with the given listeners subscribed, in order. *)
Definition um_with (ls : list StateListener) : UserMachine :=
  foldl (λ m l, StateMachine.onStateChange sl_id l m) StateMachine.create ls.

(** ** Filler rotation ([filler-injector.ts]) *)

Module FillerInjector.
(** [lastFillerIndex] is [Some i] for the integer [i] and [None] for
    [NaN], which [%] yields when the phrase list is empty. *)
Record t : Type := Build {
  phrases : list string;
  maxFillers : Z;
  fillersUsed : Z;
  lastFillerIndex : option Z;
}.

(** The constructor stores its arguments; it validates nothing. *)
Definition create (phrases : list string) (maxFillers : Z) : t :=
  {| phrases := phrases; maxFillers := maxFillers;
     fillersUsed := 0; lastFillerIndex := Some (-1) |}.

(** [a % b] on integers: the remainder has the sign of [a]; [NaN] when
    [b] is zero. *)
Definition js_rem (a b : Z) : option Z :=
  if b =? 0 then None else Some (Z.rem a b).

(** [arr[i]] for a number [i]: [undefined] unless [i] is an index of the
    array. *)
Definition js_index (arr : list string) (i : option Z) : option string :=
  match i with
  | Some z => if z <? 0 then None else arr !! Z.to_nat z
  | None => None
  end.

Definition getFiller (f : t) : t * option string :=
  if fillersUsed f >=? maxFillers f then (f, None)
  else
    let idx := i ← lastFillerIndex f; js_rem (i + 1) (Z.of_nat (length (phrases f))) in
    let f' := {| phrases := phrases f; maxFillers := maxFillers f;
                 fillersUsed := fillersUsed f + 1; lastFillerIndex := idx |} in
    (f', js_index (phrases f) idx).

Definition reset (f : t) : t :=
  {| phrases := phrases f; maxFillers := maxFillers f;
     fillersUsed := 0; lastFillerIndex := Some (-1) |}.

Definition canInjectMore (f : t) : bool := fillersUsed f <? maxFillers f.

Definition getUsedCount (f : t) : Z := fillersUsed f.

(** [n] successive [getFiller()] calls and what each returned. *)
Fixpoint getFillers (n : nat) (f : t) : t * list (option string) :=
  match n with
  | O => (f, [])
  | S n' =>
      let '(f', r) := getFiller f in
      let '(f'', rs) := getFillers n' f' in
      (f'', r :: rs)
  end.
End FillerInjector.

(** ** Arrays and the heap

    [BufferManager] hands out arrays, and whether two arrays are the same
    object matters, so arrays live in a heap and are named by locations.
    An element is [None] where a JavaScript array has a hole
    ([undefined]). *)

Abbreviation loc := nat (only parsing).
Abbreviation jsarray := (list (option string)) (only parsing).

Record Heap : Type := {
  arrays : gmap loc jsarray;
  next_loc : loc;
}.

Definition heap_empty : Heap := {| arrays := ∅; next_loc := 0%nat |}.

(** A new array object. *)
Definition alloc (a : jsarray) (h : Heap) : loc * Heap :=
  (next_loc h, {| arrays := <[next_loc h := a]> (arrays h); next_loc := S (next_loc h) |}).

Definition read (l : loc) (h : Heap) : jsarray := default [] (arrays h !! l).

Definition write (l : loc) (a : jsarray) (h : Heap) : Heap :=
  {| arrays := <[l := a]> (arrays h); next_loc := next_loc h |}.

(** [arr[i] = x] for an integer [i]: replaces inside the array, extends it
    (leaving holes) at or past its end, and does not touch the elements
    when [i] is negative. *)
Definition array_set (a : jsarray) (i : Z) (x : string) : jsarray :=
  if i <? 0 then a
  else if i <? Z.of_nat (length a) then <[Z.to_nat i := Some x]> a
  else a ++ replicate (Z.to_nat i - length a) None ++ [Some x].

(** [arr.slice(start)] and [arr.slice(0, end)] for integers; a negative
    argument counts from the end of the array. *)
Definition slice_index (a : jsarray) (i : Z) : nat :=
  if i <? 0 then Z.to_nat (Z.max 0 (Z.of_nat (length a) + i)) else Z.to_nat i.

Definition slice_from (a : jsarray) (start : Z) : jsarray := drop (slice_index a start) a.
Definition slice_to (a : jsarray) (stop : Z) : jsarray := take (slice_index a stop) a.

(** ** The circular buffer ([buffer-manager.ts]) *)

Module BufferManager.
Record t : Type := Build {
  buffer : loc;
  maxSize : Z;
  head : Z;
  size : Z;
}.

(** [new BufferManager(maxSize)]: the field initialiser [buffer = []]
    allocates before the constructor body checks [maxSize]. *)
Definition create (maxSize : Z) (h : Heap) : Heap * completion t :=
  let '(b, h') := alloc [] h in
  if maxSize <=? 0 then (h', Throw (JsError "Buffer size must be positive"))
  else (h', Normal {| buffer := b; maxSize := maxSize; head := 0; size := 0 |}).

Definition add (chunk : string) (bm : t) (h : Heap) : t * Heap :=
  if size bm <? maxSize bm then
    ({| buffer := buffer bm; maxSize := maxSize bm; head := head bm;
        size := size bm + 1 |},
     write (buffer bm) (read (buffer bm) h ++ [Some chunk]) h)
  else
    ({| buffer := buffer bm; maxSize := maxSize bm;
        head := Z.rem (head bm + 1) (maxSize bm); size := size bm |},
     write (buffer bm) (array_set (read (buffer bm) h) (head bm) chunk) h).

(** Both branches build a new array (a spread), so the result is a new
    location. *)
Definition getAll (bm : t) (h : Heap) : loc * Heap :=
  if size bm <? maxSize bm then alloc (read (buffer bm) h) h
  else
    alloc (slice_from (read (buffer bm) h) (head bm)
           ++ slice_to (read (buffer bm) h) (head bm)) h.

Definition clear (bm : t) (h : Heap) : t * Heap :=
  let '(b, h') := alloc [] h in
  ({| buffer := b; maxSize := maxSize bm; head := 0; size := 0 |}, h').

Definition getSize (bm : t) : Z := size bm.
Definition isEmpty (bm : t) : bool := size bm =? 0.
Definition isFull (bm : t) : bool := size bm =? maxSize bm.

(** [add] for each chunk of a list, in order. *)
Fixpoint addAll (chunks : list string) (bm : t) (h : Heap) : t * Heap :=
  match chunks with
  | [] => (bm, h)
  | c :: rest => let '(bm', h') := add c bm h in addAll rest bm' h'
  end.

(** The contents of the snapshot that [getAll()] returns. *)
Definition snapshot (bm : t) (h : Heap) : jsarray :=
  let '(r, h') := getAll bm h in read r h'.
End BufferManager.

(** ** Timers of the host ([setTimeout], [clearTimeout])

    A pending timer is a handle with the delay it was armed for.  The host
    decides when a pending timer fires; it fires at most once.  What
    [Date.now()] reads when it fires is not tied to the delay: the callback
    of the detector compares the two itself. *)

Record Timers : Type := {
  pending : gmap nat Z;
  next_handle : nat;
}.

Definition timers_empty : Timers := {| pending := ∅; next_handle := 0%nat |}.

Definition setTimeout (delay : Z) (tm : Timers) : nat * Timers :=
  (next_handle tm,
   {| pending := <[next_handle tm := delay]> (pending tm);
      next_handle := S (next_handle tm) |}).

Definition clearTimeout (h : nat) (tm : Timers) : Timers :=
  {| pending := delete h (pending tm); next_handle := next_handle tm |}.

(** ** The stall detector ([stall-detector.ts]) *)

Module StallDetector.
Record t : Type := Build {
  lastChunkTime : option Z;
  stallTimer : option nat;
  thresholdMs : Z;
}.

Definition create (thresholdMs : Z) : t :=
  {| lastChunkTime := None; stallTimer := None; thresholdMs := thresholdMs |}.

Definition clearTimer (d : t) (tm : Timers) : t * Timers :=
  match stallTimer d with
  | Some h =>
      ({| lastChunkTime := lastChunkTime d; stallTimer := None;
          thresholdMs := thresholdMs d |},
       clearTimeout h tm)
  | None => (d, tm)
  end.

(** Arms the timer whose callback is [timerCallback] below. *)
Definition scheduleStallCheck (d : t) (tm : Timers) : t * Timers :=
  let '(d1, tm1) := clearTimer d tm in
  let '(h, tm2) := setTimeout (thresholdMs d1) tm1 in
  ({| lastChunkTime := lastChunkTime d1; stallTimer := Some h;
      thresholdMs := thresholdMs d1 |}, tm2).

Definition set_lastChunkTime (v : option Z) (d : t) : t :=
  {| lastChunkTime := v; stallTimer := stallTimer d; thresholdMs := thresholdMs d |}.

Definition notifyChunk (now : Z) (d : t) (tm : Timers) : t * Timers :=
  let d1 := set_lastChunkTime (Some now) d in
  let '(d2, tm2) := clearTimer d1 tm in
  scheduleStallCheck d2 tm2.

Definition start (now : Z) (d : t) (tm : Timers) : t * Timers :=
  scheduleStallCheck (set_lastChunkTime (Some now) d) tm.

Definition stop (d : t) (tm : Timers) : t * Timers :=
  let '(d1, tm1) := clearTimer d tm in
  (set_lastChunkTime None d1, tm1).

Section Callback.
(** [onStall] is the constructor's callback; [S] is whatever it acts
    on (the callbacks of this library do not touch the detector). *)
Context {S : Type}.
Variable onStall : Z → S → S * completion unit.

(** The arrow function handed to [setTimeout], run at time [now]. *)
Definition timerCallback (now : Z) (d : t) (tm : Timers) (s : S)
  : t * Timers * S * completion unit :=
  match lastChunkTime d with
  | Some last =>
      let elapsed := now - last in
      if elapsed >=? thresholdMs d then
        match onStall elapsed s with
        | (s', Normal _) =>
            let '(d', tm') := scheduleStallCheck d tm in
            (d', tm', s', Normal tt)
        | (s', Throw e) => (d, tm, s', Throw e)
        end
      else (d, tm, s, Normal tt)
  | None => (d, tm, s, Normal tt)
  end.

(** The host fires timer [h] at time [now]: the timer stops being
    pending and its callback runs.  A handle that is not pending (never
    armed, cleared, or fired before) fires nothing. *)
Definition fire (h : nat) (now : Z) (d : t) (tm : Timers) (s : S)
  : t * Timers * S * completion unit :=
  match pending tm !! h with
  | Some _ => timerCallback now d (clearTimeout h tm) s
  | None => (d, tm, s, Normal tt)
  end.
End Callback.

(** Whether a timer of the detector is waiting to fire. *)
Definition armed (d : t) (tm : Timers) : bool :=
  match stallTimer d with
  | Some h => bool_decide (is_Some (pending tm !! h))
  | None => false
  end.
End StallDetector.

(** *** A detector used on its own: a user callback

    The callback is opaque: the calls are logged with their argument, and
    [cb_throws] says whether a call throws. *)
Definition call_onStall (cb_throws : Z → option exn) (elapsed : Z) (log : list Z)
  : list Z * completion unit :=
  (log ++ [elapsed],
   match cb_throws elapsed with
   | None => Normal tt
   | Some e => Throw e
   end).

(** ** Flow events and statistics ([types.ts]) *)

Record FlowStats : Type := {
  fillersInjected : Z;
  stallsDetected : Z;
  chunksProcessed : Z;
  firstChunkTime : option Z;
  totalDurationMs : Z;
}.

Definition stats_zero : FlowStats :=
  {| fillersInjected := 0; stallsDetected := 0; chunksProcessed := 0;
     firstChunkTime := None; totalDurationMs := 0 |}.

Inductive FlowEvent : Type :=
  | EvStallDetected (durationMs : Z)
  | EvFillerInjected (filler : string)
  | EvFirstChunk (chunk : string)
  | EvStateChange (from to : ConversationState)
  | EvInterrupted
  | EvChunkProcessed (chunk : string)
  | EvCompleted (stats : FlowStats).

(** A subscriber of [FlowManager.on]: its identity and whether it throws on
    a given event. *)
Record FlowEventListener : Type := {
  el_id : nat;
  el_throws : FlowEvent → option exn;
}.

(** What the outside observes of a flow: listener and callback invocations,
    what is written to [console.error], and the chunks that the wrapped
    stream yields. *)
Inductive Obs : Type :=
  | ListenerCalled (id : nat) (ev : FlowEvent)
  | ConsoleError (message : string) (error : exn)
  | CbFillerInjected (filler : string)
  | CbStallDetected (durationMs : Z)
  | CbFirstChunk
  | Yield (chunk : string).

Definition DEFAULT_STALL_THRESHOLD_MS : Z := 700.
Definition DEFAULT_FILLER_PHRASES : list string := ["um"; "let me think"; "hmm"].
Definition DEFAULT_MAX_FILLERS_PER_RESPONSE : Z := 3.

(** [if (filler)]: [null] and the empty string are falsy. *)
Definition truthy (s : option string) : bool :=
  match s with
  | Some x => negb (bool_decide (x = ""))
  | None => false
  end.

(** ** The event-based orchestrator ([flow-manager.ts]) *)

Module FlowManager.
(** The constructor's argument: every option may be left out. *)
Record FlowManagerConfig : Type := {
  cfg_stallThresholdMs : option Z;
  cfg_fillerPhrases : option (list string);
  cfg_enableFillers : option bool;
  cfg_maxFillersPerResponse : option Z;
  cfg_bufferSize : option Z;
}.

Definition no_config : FlowManagerConfig :=
  {| cfg_stallThresholdMs := None; cfg_fillerPhrases := None;
     cfg_enableFillers := None; cfg_maxFillersPerResponse := None;
     cfg_bufferSize := None |}.

(** [Required<FlowManagerConfig>], after the [??] defaults. *)
Record Config : Type := {
  stallThresholdMs : Z;
  fillerPhrases : list string;
  enableFillers : bool;
  maxFillersPerResponse : Z;
  bufferSize : Z;
}.

Definition resolve (c : FlowManagerConfig) : Config :=
  {| stallThresholdMs := default DEFAULT_STALL_THRESHOLD_MS (cfg_stallThresholdMs c);
     fillerPhrases := default DEFAULT_FILLER_PHRASES (cfg_fillerPhrases c);
     enableFillers := default true (cfg_enableFillers c);
     maxFillersPerResponse :=
       default DEFAULT_MAX_FILLERS_PER_RESPONSE (cfg_maxFillersPerResponse c);
     bufferSize := default 10 (cfg_bufferSize c) |}.

(** The fields of the object.  The state machine's listener set holds the
    arrow functions that [start()] subscribes; each is named by the
    location of its closure. *)
Record t : Type := Build {
  config : Config;
  stateMachine : StateMachine.t loc;
  stallDetector : StallDetector.t;
  fillerInjector : FillerInjector.t;
  bufferManager : BufferManager.t;
  listeners : list FlowEventListener;
  firstChunkEmitted : bool;
  stats : FlowStats;
  startTime : option Z;
  stateChangeUnsubscribe : option loc;
}.

(** The object together with what it acts on. *)
Record World : Type := {
  fm : t;
  timers : Timers;
  heap : Heap;
  trace : list Obs;
}.

Definition M (A : Type) : Type := Eff World A.

Definition get {A} (f : t → A) : M A := λ w, (w, Normal (f (fm w))).
Definition modify (f : t → t) : M unit :=
  λ w, ({| fm := f (fm w); timers := timers w; heap := heap w; trace := trace w |},
        Normal tt).

Definition set_stateMachine (v : StateMachine.t loc) (m : t) : t :=
  Build (config m) v (stallDetector m) (fillerInjector m) (bufferManager m)
    (listeners m) (firstChunkEmitted m) (stats m) (startTime m)
    (stateChangeUnsubscribe m).
Definition set_stallDetector (v : StallDetector.t) (m : t) : t :=
  Build (config m) (stateMachine m) v (fillerInjector m) (bufferManager m)
    (listeners m) (firstChunkEmitted m) (stats m) (startTime m)
    (stateChangeUnsubscribe m).
Definition set_fillerInjector (v : FillerInjector.t) (m : t) : t :=
  Build (config m) (stateMachine m) (stallDetector m) v (bufferManager m)
    (listeners m) (firstChunkEmitted m) (stats m) (startTime m)
    (stateChangeUnsubscribe m).
Definition set_bufferManager (v : BufferManager.t) (m : t) : t :=
  Build (config m) (stateMachine m) (stallDetector m) (fillerInjector m) v
    (listeners m) (firstChunkEmitted m) (stats m) (startTime m)
    (stateChangeUnsubscribe m).
Definition set_listeners (v : list FlowEventListener) (m : t) : t :=
  Build (config m) (stateMachine m) (stallDetector m) (fillerInjector m)
    (bufferManager m) v (firstChunkEmitted m) (stats m) (startTime m)
    (stateChangeUnsubscribe m).
Definition set_firstChunkEmitted (v : bool) (m : t) : t :=
  Build (config m) (stateMachine m) (stallDetector m) (fillerInjector m)
    (bufferManager m) (listeners m) v (stats m) (startTime m)
    (stateChangeUnsubscribe m).
Definition set_stats (v : FlowStats) (m : t) : t :=
  Build (config m) (stateMachine m) (stallDetector m) (fillerInjector m)
    (bufferManager m) (listeners m) (firstChunkEmitted m) v (startTime m)
    (stateChangeUnsubscribe m).
Definition set_startTime (v : option Z) (m : t) : t :=
  Build (config m) (stateMachine m) (stallDetector m) (fillerInjector m)
    (bufferManager m) (listeners m) (firstChunkEmitted m) (stats m) v
    (stateChangeUnsubscribe m).
Definition set_stateChangeUnsubscribe (v : option loc) (m : t) : t :=
  Build (config m) (stateMachine m) (stallDetector m) (fillerInjector m)
    (bufferManager m) (listeners m) (firstChunkEmitted m) (stats m)
    (startTime m) v.

Definition set_timers (v : Timers) (w : World) : World :=
  {| fm := fm w; timers := v; heap := heap w; trace := trace w |}.
Definition set_heap (v : Heap) (w : World) : World :=
  {| fm := fm w; timers := timers w; heap := v; trace := trace w |}.
Definition set_trace (v : list Obs) (w : World) : World :=
  {| fm := fm w; timers := timers w; heap := heap w; trace := v |}.
Definition set_fm (v : t) (w : World) : World :=
  {| fm := v; timers := timers w; heap := heap w; trace := trace w |}.

(** [emit]: one [try]/[catch] per listener, the error goes to
    [console.error]. *)
Fixpoint emit_to (ls : list FlowEventListener) (ev : FlowEvent) (tr : list Obs)
  : list Obs :=
  match ls with
  | [] => tr
  | l :: ls' =>
      let tr1 := tr ++ [ListenerCalled (el_id l) ev] in
      match el_throws l ev with
      | None => emit_to ls' ev tr1
      | Some e =>
          emit_to ls' ev
            (tr1 ++ [ConsoleError "Error in FlowManager event listener:" e])
      end
  end.

Definition emit (ev : FlowEvent) : M unit :=
  λ w, (set_trace (emit_to (listeners (fm w)) ev (trace w)) w, Normal tt).

(** The arrow function subscribed by [start()]: it forwards to [emit]. *)
Definition state_listener (ls : list FlowEventListener) (_ : loc)
  (from to : ConversationState) (tr : list Obs) : list Obs * completion unit :=
  (emit_to ls (EvStateChange from to) tr, Normal tt).

(** [this.stateMachine.transition(to)]. *)
Definition transition (to : ConversationState) : M bool :=
  λ w,
    let r :=
      StateMachine.transition (state_listener (listeners (fm w))) to
        (stateMachine (fm w)) (trace w) in
    (set_trace r.1.2 (set_fm (set_stateMachine r.1.1 (fm w)) w), r.2).

Definition getState (w : World) : ConversationState :=
  StateMachine.getState (stateMachine (fm w)).

(** Calls into the components, on the world. *)
Definition with_detector (f : StallDetector.t → Timers → StallDetector.t * Timers)
  : M unit :=
  λ w,
    let r := f (stallDetector (fm w)) (timers w) in
    (set_timers r.2 (set_fm (set_stallDetector r.1 (fm w)) w), Normal tt).

Definition with_buffer (f : BufferManager.t → Heap → BufferManager.t * Heap)
  : M unit :=
  λ w,
    let r := f (bufferManager (fm w)) (heap w) in
    (set_heap r.2 (set_fm (set_bufferManager r.1 (fm w)) w), Normal tt).

Definition filler_reset : M unit :=
  modify (λ m, set_fillerInjector (FillerInjector.reset (fillerInjector m)) m).

Definition filler_get : M (option string) :=
  λ w,
    let r := FillerInjector.getFiller (fillerInjector (fm w)) in
    (set_fm (set_fillerInjector r.1 (fm w)) w, Normal r.2).

Definition upd_stats (f : FlowStats → FlowStats) : M unit :=
  modify (λ m, set_stats (f (stats m)) m).

(** [new FlowManager(config)]. *)
Definition create (c : FlowManagerConfig) (h : Heap) : Heap * completion t :=
  let cfg := resolve c in
  match BufferManager.create (bufferSize cfg) h with
  | (h', Throw e) => (h', Throw e)
  | (h', Normal bm) =>
      (h', Normal
         {| config := cfg;
            stateMachine := StateMachine.create;
            stallDetector := StallDetector.create (stallThresholdMs cfg);
            fillerInjector :=
              FillerInjector.create (fillerPhrases cfg) (maxFillersPerResponse cfg);
            bufferManager := bm;
            listeners := [];
            firstChunkEmitted := false;
            stats := stats_zero;
            startTime := None;
            stateChangeUnsubscribe := None |})
  end.

(** [on(listener)] and the unsubscribe function it returns. *)
Definition on (l : FlowEventListener) : M unit :=
  modify (λ m,
    if bool_decide (el_id l ∈ map el_id (listeners m)) then m
    else set_listeners (listeners m ++ [l]) m).

Definition off (l : FlowEventListener) : M unit :=
  modify (λ m, set_listeners (filter (λ l', el_id l' ≠ el_id l) (listeners m)) m).

Definition reset : M unit :=
  modify (set_firstChunkEmitted false) ;;;
  filler_reset ;;;
  with_buffer BufferManager.clear ;;;
  modify (set_stats stats_zero).

(** A new closure for the state-change subscription. *)
Definition new_closure : M loc :=
  λ w, (set_heap {| arrays := arrays (heap w); next_loc := S (next_loc (heap w)) |} w,
        Normal (next_loc (heap w))).

Definition start (now : Z) : M unit :=
  st <- get startTime ;;
  match st with
  | Some _ => throw (FlowControlError "FlowManager already started" CtxNone)
  | None =>
    reset ;;;
    modify (set_startTime (Some now)) ;;;
    transition WAITING ;;;
    with_detector (StallDetector.start now) ;;;
    cl <- new_closure ;;
    modify (λ m,
      set_stateChangeUnsubscribe (Some cl)
        (set_stateMachine (StateMachine.onStateChange id cl (stateMachine m)) m))
  end.

Definition processChunk (now : Z) (chunk : string) : M unit :=
  st <- get startTime ;;
  match st with
  | None => throw (FlowControlError "FlowManager not started. Call start() first." CtxNone)
  | Some t0 =>
      s <- get (λ m, StateMachine.getState (stateMachine m)) ;;
      if state_eqb s INTERRUPTED then ret tt
      else
        with_detector (StallDetector.notifyChunk now) ;;;
        upd_stats (λ s, {| fillersInjected := fillersInjected s;
                           stallsDetected := stallsDetected s;
                           chunksProcessed := chunksProcessed s + 1;
                           firstChunkTime := firstChunkTime s;
                           totalDurationMs := totalDurationMs s |}) ;;;
        with_buffer (BufferManager.add chunk) ;;;
        first <- get firstChunkEmitted ;;
        (if negb first then
           modify (set_firstChunkEmitted true) ;;;
           upd_stats (λ s, {| fillersInjected := fillersInjected s;
                              stallsDetected := stallsDetected s;
                              chunksProcessed := chunksProcessed s;
                              firstChunkTime := Some (now - t0);
                              totalDurationMs := totalDurationMs s |}) ;;;
           transition SPEAKING ;;;
           emit (EvFirstChunk chunk)
         else ret tt) ;;;
        emit (EvChunkProcessed chunk)
  end.

Definition getStats (w : World) : FlowStats := stats (fm w).

Definition complete (now : Z) : M unit :=
  st <- get startTime ;;
  match st with
  | None => throw (FlowControlError "FlowManager not started" CtxNone)
  | Some t0 =>
      with_detector StallDetector.stop ;;;
      upd_stats (λ s, {| fillersInjected := fillersInjected s;
                         stallsDetected := stallsDetected s;
                         chunksProcessed := chunksProcessed s;
                         firstChunkTime := firstChunkTime s;
                         totalDurationMs := now - t0 |}) ;;;
      s <- get (λ m, StateMachine.getState (stateMachine m)) ;;
      (if negb (state_eqb s INTERRUPTED) then transition IDLE ;;; ret tt else ret tt) ;;;
      snapshot <- get stats ;;
      emit (EvCompleted snapshot) ;;;
      unsub <- get stateChangeUnsubscribe ;;
      (match unsub with
       | Some cl =>
           modify (λ m,
             set_stateChangeUnsubscribe None
               (set_stateMachine (StateMachine.unsubscribe id cl (stateMachine m)) m))
       | None => ret tt
       end) ;;;
      modify (set_startTime None)
  end.

Definition interrupt : M unit :=
  s <- get (λ m, StateMachine.getState (stateMachine m)) ;;
  if state_eqb s SPEAKING || state_eqb s WAITING then
    transition INTERRUPTED ;;;
    with_detector StallDetector.stop ;;;
    filler_reset ;;;
    with_buffer BufferManager.clear ;;;
    emit EvInterrupted
  else ret tt.

(** [getBufferedChunks()]: the location of the snapshot. *)
Definition getBufferedChunks : M loc :=
  λ w,
    let r := BufferManager.getAll (bufferManager (fm w)) (heap w) in
    (set_heap r.2 w, Normal r.1).

(** The contents of what [getBufferedChunks()] returns. *)
Definition bufferedChunks (w : World) : jsarray :=
  BufferManager.snapshot (bufferManager (fm w)) (heap w).

Definition handleStall (durationMs : Z) : M unit :=
  upd_stats (λ s, {| fillersInjected := fillersInjected s;
                     stallsDetected := stallsDetected s + 1;
                     chunksProcessed := chunksProcessed s;
                     firstChunkTime := firstChunkTime s;
                     totalDurationMs := totalDurationMs s |}) ;;;
  emit (EvStallDetected durationMs) ;;;
  en <- get (λ m, enableFillers (config m)) ;;
  first <- get firstChunkEmitted ;;
  s <- get (λ m, StateMachine.getState (stateMachine m)) ;;
  if en && negb first && negb (state_eqb s INTERRUPTED) then
    filler <- filler_get ;;
    if truthy filler then
      upd_stats (λ s, {| fillersInjected := fillersInjected s + 1;
                         stallsDetected := stallsDetected s;
                         chunksProcessed := chunksProcessed s;
                         firstChunkTime := firstChunkTime s;
                         totalDurationMs := totalDurationMs s |}) ;;;
      emit (EvFillerInjected (default "" filler))
    else ret tt
  else ret tt.

(** The host fires the detector's timer [h] at time [now]. *)
Definition timerFire (h : nat) (now : Z) : M unit :=
  λ w,
    let r :=
      StallDetector.fire handleStall h now (stallDetector (fm w)) (timers w) w in
    (set_timers r.1.1.2 (set_fm (set_stallDetector r.1.1.1 (fm r.1.2)) r.1.2), r.2).

(** What a caller and the host can do to a manager. *)
Inductive Op : Type :=
  | OpStart (now : Z)
  | OpProcessChunk (now : Z) (chunk : string)
  | OpComplete (now : Z)
  | OpInterrupt
  | OpOn (l : FlowEventListener)
  | OpOff (l : FlowEventListener)
  | OpTimerFire (h : nat) (now : Z).

Definition step (o : Op) : M unit :=
  match o with
  | OpStart now => start now
  | OpProcessChunk now chunk => processChunk now chunk
  | OpComplete now => complete now
  | OpInterrupt => interrupt
  | OpOn l => on l
  | OpOff l => off l
  | OpTimerFire h now => timerFire h now
  end.

(** A sequence of operations; what an operation throws is caught by its
    caller, and the next operation finds the object as the throw left
    it. *)
Definition run (ops : list Op) (w : World) : World :=
  foldl (λ w o, fst (step o w)) w ops.

(** The world right after a successful [new FlowManager(c)]. *)
Definition init (m : t) (h : Heap) : World :=
  {| fm := m; timers := timers_empty; heap := h; trace := [] |}.
End FlowManager.

(** ** The stream-wrapping orchestrator ([flow-controller.ts]) *)

Module FlowController.
(** The constructor's argument.  A callback is described by whether a call
    of it throws; the default callbacks [() => {}] never do. *)
Record FlowConfig : Type := {
  cfg_stallThresholdMs : option Z;
  cfg_fillerPhrases : option (list string);
  cfg_enableFillers : option bool;
  cfg_maxFillersPerResponse : option Z;
  cfg_onFillerInjected : option (string → option exn);
  cfg_onStallDetected : option (Z → option exn);
  cfg_onFirstChunk : option (option exn);
}.

Definition no_config : FlowConfig :=
  {| cfg_stallThresholdMs := None; cfg_fillerPhrases := None;
     cfg_enableFillers := None; cfg_maxFillersPerResponse := None;
     cfg_onFillerInjected := None; cfg_onStallDetected := None;
     cfg_onFirstChunk := None |}.

Record Config : Type := {
  stallThresholdMs : Z;
  fillerPhrases : list string;
  enableFillers : bool;
  maxFillersPerResponse : Z;
  onFillerInjected : string → option exn;
  onStallDetected : Z → option exn;
  onFirstChunk : option exn;
}.

Definition resolve (c : FlowConfig) : Config :=
  {| stallThresholdMs := default DEFAULT_STALL_THRESHOLD_MS (cfg_stallThresholdMs c);
     fillerPhrases := default DEFAULT_FILLER_PHRASES (cfg_fillerPhrases c);
     enableFillers := default true (cfg_enableFillers c);
     maxFillersPerResponse :=
       default DEFAULT_MAX_FILLERS_PER_RESPONSE (cfg_maxFillersPerResponse c);
     onFillerInjected := default (λ _, None) (cfg_onFillerInjected c);
     onStallDetected := default (λ _, None) (cfg_onStallDetected c);
     onFirstChunk := default None (cfg_onFirstChunk c) |}.

(** Nothing in the class subscribes to its state machine: the listener
    set stays empty. *)
Record t : Type := Build {
  config : Config;
  stateMachine : StateMachine.t Empty_set;
  stallDetector : StallDetector.t;
  fillerInjector : FillerInjector.t;
  bufferManager : BufferManager.t;
  firstChunkEmitted : bool;
  stats : FlowStats;
  startTime : option Z;
}.

Record World : Type := {
  fc : t;
  timers : Timers;
  heap : Heap;
  trace : list Obs;
}.

Definition M (A : Type) : Type := Eff World A.

Definition set_stateMachine (v : StateMachine.t Empty_set) (m : t) : t :=
  Build (config m) v (stallDetector m) (fillerInjector m) (bufferManager m)
    (firstChunkEmitted m) (stats m) (startTime m).
Definition set_stallDetector (v : StallDetector.t) (m : t) : t :=
  Build (config m) (stateMachine m) v (fillerInjector m) (bufferManager m)
    (firstChunkEmitted m) (stats m) (startTime m).
Definition set_fillerInjector (v : FillerInjector.t) (m : t) : t :=
  Build (config m) (stateMachine m) (stallDetector m) v (bufferManager m)
    (firstChunkEmitted m) (stats m) (startTime m).
Definition set_bufferManager (v : BufferManager.t) (m : t) : t :=
  Build (config m) (stateMachine m) (stallDetector m) (fillerInjector m) v
    (firstChunkEmitted m) (stats m) (startTime m).
Definition set_firstChunkEmitted (v : bool) (m : t) : t :=
  Build (config m) (stateMachine m) (stallDetector m) (fillerInjector m)
    (bufferManager m) v (stats m) (startTime m).
Definition set_stats (v : FlowStats) (m : t) : t :=
  Build (config m) (stateMachine m) (stallDetector m) (fillerInjector m)
    (bufferManager m) (firstChunkEmitted m) v (startTime m).
Definition set_startTime (v : option Z) (m : t) : t :=
  Build (config m) (stateMachine m) (stallDetector m) (fillerInjector m)
    (bufferManager m) (firstChunkEmitted m) (stats m) v.

Definition set_fc (v : t) (w : World) : World :=
  {| fc := v; timers := timers w; heap := heap w; trace := trace w |}.
Definition set_timers (v : Timers) (w : World) : World :=
  {| fc := fc w; timers := v; heap := heap w; trace := trace w |}.
Definition set_heap (v : Heap) (w : World) : World :=
  {| fc := fc w; timers := timers w; heap := v; trace := trace w |}.
Definition set_trace (v : list Obs) (w : World) : World :=
  {| fc := fc w; timers := timers w; heap := heap w; trace := v |}.

Definition get {A} (f : t → A) : M A := λ w, (w, Normal (f (fc w))).
Definition modify (f : t → t) : M unit := λ w, (set_fc (f (fc w)) w, Normal tt).

(** A call of a user callback: logged, and it may throw. *)
Definition callback (o : Obs) (throws : option exn) : M unit :=
  λ w, (set_trace (trace w ++ [o]) w,
        match throws with None => Normal tt | Some e => Throw e end).

Definition no_listener (l : Empty_set) (from to : ConversationState) (tr : list Obs)
  : list Obs * completion unit :=
  match l with end.

Definition transition (to : ConversationState) : M bool :=
  λ w,
    let r :=
      StateMachine.transition no_listener to (stateMachine (fc w)) (trace w) in
    (set_trace r.1.2 (set_fc (set_stateMachine r.1.1 (fc w)) w), r.2).

Definition getState (w : World) : ConversationState :=
  StateMachine.getState (stateMachine (fc w)).

Definition with_detector (f : StallDetector.t → Timers → StallDetector.t * Timers)
  : M unit :=
  λ w,
    let r := f (stallDetector (fc w)) (timers w) in
    (set_timers r.2 (set_fc (set_stallDetector r.1 (fc w)) w), Normal tt).

Definition with_buffer (f : BufferManager.t → Heap → BufferManager.t * Heap)
  : M unit :=
  λ w,
    let r := f (bufferManager (fc w)) (heap w) in
    (set_heap r.2 (set_fc (set_bufferManager r.1 (fc w)) w), Normal tt).

Definition filler_reset : M unit :=
  modify (λ m, set_fillerInjector (FillerInjector.reset (fillerInjector m)) m).

Definition filler_get : M (option string) :=
  λ w,
    let r := FillerInjector.getFiller (fillerInjector (fc w)) in
    (set_fc (set_fillerInjector r.1 (fc w)) w, Normal r.2).

Definition upd_stats (f : FlowStats → FlowStats) : M unit :=
  modify (λ m, set_stats (f (stats m)) m).

(** [new FlowController(config)]: the buffer always has size 10. *)
Definition create (c : FlowConfig) (h : Heap) : Heap * completion t :=
  let cfg := resolve c in
  match BufferManager.create 10 h with
  | (h', Throw e) => (h', Throw e)
  | (h', Normal bm) =>
      (h', Normal
         {| config := cfg;
            stateMachine := StateMachine.create;
            stallDetector := StallDetector.create (stallThresholdMs cfg);
            fillerInjector :=
              FillerInjector.create (fillerPhrases cfg) (maxFillersPerResponse cfg);
            bufferManager := bm;
            firstChunkEmitted := false;
            stats := stats_zero;
            startTime := None |})
  end.

Definition reset : M unit :=
  modify (set_firstChunkEmitted false) ;;;
  filler_reset ;;;
  with_buffer BufferManager.clear ;;;
  modify (set_stats stats_zero).

Definition interrupt : M unit :=
  s <- get (λ m, StateMachine.getState (stateMachine m)) ;;
  if state_eqb s SPEAKING || state_eqb s WAITING then
    transition INTERRUPTED ;;;
    with_detector StallDetector.stop ;;;
    filler_reset ;;;
    with_buffer BufferManager.clear
  else ret tt.

Definition getStats (w : World) : FlowStats := stats (fc w).

Definition bufferedChunks (w : World) : jsarray :=
  BufferManager.snapshot (bufferManager (fc w)) (heap w).

Definition handleStall (durationMs : Z) : M unit :=
  en <- get (λ m, enableFillers (config m)) ;;
  first <- get firstChunkEmitted ;;
  s <- get (λ m, StateMachine.getState (stateMachine m)) ;;
  (if en && negb first && negb (state_eqb s INTERRUPTED) then
     filler <- filler_get ;;
     if truthy filler then
       upd_stats (λ s, {| fillersInjected := fillersInjected s + 1;
                          stallsDetected := stallsDetected s;
                          chunksProcessed := chunksProcessed s;
                          firstChunkTime := firstChunkTime s;
                          totalDurationMs := totalDurationMs s |}) ;;;
       cb <- get (λ m, onFillerInjected (config m)) ;;
       callback (CbFillerInjected (default "" filler)) (cb (default "" filler))
     else ret tt
   else ret tt) ;;;
  upd_stats (λ s, {| fillersInjected := fillersInjected s;
                     stallsDetected := stallsDetected s + 1;
                     chunksProcessed := chunksProcessed s;
                     firstChunkTime := firstChunkTime s;
                     totalDurationMs := totalDurationMs s |}) ;;;
  cb <- get (λ m, onStallDetected (config m)) ;;
  callback (CbStallDetected durationMs) (cb durationMs).

Definition timerFire (h : nat) (now : Z) : M unit :=
  λ w,
    let r :=
      StallDetector.fire handleStall h now (stallDetector (fc w)) (timers w) w in
    (set_timers r.1.1.2 (set_fc (set_stallDetector r.1.1.1 (fc r.1.2)) r.1.2), r.2).

(** *** [wrap]: the async generator, one resumption at a time *)

(** How a resumption of the generator ends. *)
Inductive Resumed : Type :=
  | Yielded (chunk : string)
  | Finished
  | Raised (e : exn).

Definition stream_error (error : exn) : exn :=
  FlowControlError "Flow control error during stream processing" (CtxError error).

(** The [finally] block. *)
Definition finally_block (now : Z) (w : World) : World :=
  let w1 := fst (with_detector StallDetector.stop w) in
  fst (upd_stats (λ s, {| fillersInjected := fillersInjected s;
                          stallsDetected := stallsDetected s;
                          chunksProcessed := chunksProcessed s;
                          firstChunkTime := firstChunkTime s;
                          totalDurationMs := now - default now (startTime (fc w1)) |})
         w1).

(** The statements before the [try]: they run at the first [next()]. *)
Definition wrap_enter (now : Z) : M unit :=
  reset ;;;
  modify (set_startTime (Some now)) ;;;
  transition WAITING ;;;
  with_detector (StallDetector.start now).

(** The loop body up to [yield], for a chunk that the input delivered and
    that passed the interruption check. *)
Definition loop_body (now : Z) (chunk : string) : M unit :=
  with_detector (StallDetector.notifyChunk now) ;;;
  upd_stats (λ s, {| fillersInjected := fillersInjected s;
                     stallsDetected := stallsDetected s;
                     chunksProcessed := chunksProcessed s + 1;
                     firstChunkTime := firstChunkTime s;
                     totalDurationMs := totalDurationMs s |}) ;;;
  with_buffer (BufferManager.add chunk) ;;;
  first <- get firstChunkEmitted ;;
  if negb first then
    modify (set_firstChunkEmitted true) ;;;
    st <- get startTime ;;
    upd_stats (λ s, {| fillersInjected := fillersInjected s;
                       stallsDetected := stallsDetected s;
                       chunksProcessed := chunksProcessed s;
                       firstChunkTime := Some (now - default now st);
                       totalDurationMs := totalDurationMs s |}) ;;;
    transition SPEAKING ;;;
    cb <- get (λ m, onFirstChunk (config m)) ;;
    callback CbFirstChunk cb
  else ret tt.

(** After the loop: [IDLE] unless interrupted. *)
Definition after_loop : M unit :=
  s <- get (λ m, StateMachine.getState (stateMachine m)) ;;
  if negb (state_eqb s INTERRUPTED) then transition IDLE ;;; ret tt else ret tt.

Definition resumed_of (c : completion unit) (r : Resumed) : Resumed :=
  match c with Normal _ => r | Throw e => Raised e end.

(** The input delivers [chunk]. *)
Definition wrap_chunk (now : Z) (chunk : string) (w : World) : World * Resumed :=
  if state_eqb (getState w) INTERRUPTED then
    (* [break], then the statement after the loop *)
    let r :=
      try_finally (try_rethrow after_loop stream_error) (finally_block now) w in
    (r.1, resumed_of r.2 Finished)
  else
    match try_rethrow (loop_body now chunk) stream_error w with
    | (w', Normal _) => (w', Yielded chunk)
    | (w', Throw e) => (finally_block now w', Raised e)
    end.

(** The input is exhausted. *)
Definition wrap_end (now : Z) (w : World) : World * Resumed :=
  let r :=
    try_finally (try_rethrow after_loop stream_error) (finally_block now) w in
  (r.1, resumed_of r.2 Finished).

(** The input throws [e]. *)
Definition wrap_input_error (now : Z) (e : exn) (w : World) : World * Resumed :=
  (finally_block now w, Raised (stream_error e)).

(** The consumer leaves its loop: [return()] on the suspended generator. *)
Definition wrap_return (now : Z) (w : World) : World * Resumed :=
  (finally_block now w, Finished).

(** One iteration of [wrap(input)]: the generator is suspended in its
    [try] (after [wrap_enter]) until a resumption finishes it. *)
Record Iteration : Type := {
  world : World;
  running : bool;
  yielded : list string;
  raised : option exn;
}.

Inductive Op : Type :=
  | OpChunk (now : Z) (chunk : string)
  | OpEnd (now : Z)
  | OpInputError (now : Z) (e : exn)
  | OpReturn (now : Z)
  | OpInterrupt
  | OpTimerFire (h : nat) (now : Z).

Definition resume (it : Iteration) (r : World * Resumed) : Iteration :=
  match snd r with
  | Yielded c =>
      {| world := set_trace (trace (fst r) ++ [Yield c]) (fst r); running := true;
         yielded := yielded it ++ [c]; raised := raised it |}
  | Finished =>
      {| world := fst r; running := false; yielded := yielded it;
         raised := raised it |}
  | Raised e =>
      {| world := fst r; running := false; yielded := yielded it;
         raised := Some e |}
  end.

Definition on_world (it : Iteration) (w : World) : Iteration :=
  {| world := w; running := running it; yielded := yielded it; raised := raised it |}.

(** A finished generator ignores its input; [interrupt()] and the timer act
    on the controller whether or not an iteration is running. *)
Definition step (o : Op) (it : Iteration) : Iteration :=
  match o with
  | OpChunk now chunk =>
      if running it then resume it (wrap_chunk now chunk (world it)) else it
  | OpEnd now => if running it then resume it (wrap_end now (world it)) else it
  | OpInputError now e =>
      if running it then resume it (wrap_input_error now e (world it)) else it
  | OpReturn now => if running it then resume it (wrap_return now (world it)) else it
  | OpInterrupt => on_world it (fst (interrupt (world it)))
  | OpTimerFire h now => on_world it (fst (timerFire h now (world it)))
  end.

Definition run (ops : list Op) (it : Iteration) : Iteration :=
  foldl (λ it o, step o it) it ops.

(** [controller.wrap(input)] followed by the first [next()]. *)
Definition wrap (now : Z) (w : World) : Iteration :=
  match wrap_enter now w with
  | (w', Normal _) => {| world := w'; running := true; yielded := []; raised := None |}
  | (w', Throw e) => {| world := w'; running := false; yielded := []; raised := Some e |}
  end.

Definition init (m : t) (h : Heap) : World :=
  {| fc := m; timers := timers_empty; heap := h; trace := [] |}.
End FlowController.

(** * Vocabulary of the properties

    The predicates, views and fixtures in which the properties below are
    stated. *)

(** ** Filler rotation *)

(** The injector after [k] successful calls. *)
Definition injector_after (phrases : list string) (maxCount k : Z) : FillerInjector.t :=
  {| FillerInjector.phrases := phrases;
     FillerInjector.maxFillers := maxCount;
     FillerInjector.fillersUsed := k;
     FillerInjector.lastFillerIndex :=
       Some (if k =? 0 then -1 else (k - 1) `mod` Z.of_nat (length phrases)) |}.

(** What the call number [k] (from 0) of a fresh injector returns. *)
Definition expected_filler (phrases : list string) (maxCount k : Z) : option string :=
  if k <? maxCount then phrases !! Z.to_nat (k `mod` Z.of_nat (length phrases))
  else None.

(** ** Heap and buffer *)

(** What holds of a buffer of capacity [c], stored at [b], into which the
    chunks [l] have been pushed: below capacity the array is what was
    pushed; at capacity, reading from the head round to the head gives the
    last [c] chunks. *)
Definition buffer_inv (c : Z) (b : loc) (l : list string) (bm : BufferManager.t) (h : Heap)
  : Prop :=
  BufferManager.buffer bm = b
  ∧ BufferManager.maxSize bm = c
  ∧ (b < next_loc h)%nat
  ∧ ((BufferManager.size bm = Z.of_nat (length l)
      ∧ BufferManager.size bm < c
      ∧ BufferManager.head bm = 0
      ∧ read b h = map Some l)
     ∨ (BufferManager.size bm = c
        ∧ c ≤ Z.of_nat (length l)
        ∧ 0 ≤ BufferManager.head bm < c
        ∧ length (read b h) = Z.to_nat c
        ∧ drop (Z.to_nat (BufferManager.head bm)) (read b h)
          ++ take (Z.to_nat (BufferManager.head bm)) (read b h)
          = map Some (drop (length l - Z.to_nat c) l))).

(** ** Listeners *)

(** Two subscribers: the first always throws, the second never does. *)
Definition throwing_listener : StateListener :=
  {| sl_id := 1%nat; sl_throws := λ _ _, Some (UserThrown 0) |}.

Definition quiet_listener : StateListener :=
  {| sl_id := 2%nat; sl_throws := λ _ _, None |}.

(** The calls of event listeners in a trace. *)
Definition listener_calls (tr : list Obs) : list (nat * FlowEvent) :=
  omap (λ o, match o with ListenerCalled i ev => Some (i, ev) | _ => None end) tr.

(** Locations at or past [next_loc] hold nothing yet. *)
Definition heap_wf (h : Heap) : Prop :=
  ∀ l : loc, (next_loc h ≤ l)%nat → arrays h !! l = None.

(** ** Fixtures *)

(** A configuration with fillers enabled and no phrase at all, for each
    orchestrator. *)
Definition no_phrases_manager : FlowManager.FlowManagerConfig :=
  {| FlowManager.cfg_stallThresholdMs := None;
     FlowManager.cfg_fillerPhrases := Some [];
     FlowManager.cfg_enableFillers := Some true;
     FlowManager.cfg_maxFillersPerResponse := None;
     FlowManager.cfg_bufferSize := None |}.

Definition no_phrases_controller : FlowController.FlowConfig :=
  {| FlowController.cfg_stallThresholdMs := None;
     FlowController.cfg_fillerPhrases := Some [];
     FlowController.cfg_enableFillers := Some true;
     FlowController.cfg_maxFillersPerResponse := None;
     FlowController.cfg_onFillerInjected := None;
     FlowController.cfg_onStallDetected := None;
     FlowController.cfg_onFirstChunk := None |}.

(** A detector with threshold 50, started at time 100: timer 0 is
    pending. *)
Definition early_detector : StallDetector.t * Timers :=
  StallDetector.start 100 (StallDetector.create 50) timers_empty.

(** ** Traces *)

(** A filler reaching a listener or the filler callback. *)
Definition is_filler_obs (o : Obs) : bool :=
  match o with
  | ListenerCalled _ (EvFillerInjected _) => true
  | CbFillerInjected _ => true
  | _ => false
  end.

(** A real chunk reaching a listener, the first-chunk callback or the
    consumer of the wrapped stream. *)
Definition is_chunk_obs (o : Obs) : bool :=
  match o with
  | ListenerCalled _ (EvFirstChunk _) => true
  | ListenerCalled _ (EvChunkProcessed _) => true
  | CbFirstChunk => true
  | Yield _ => true
  | _ => false
  end.

(** [tr'] is [tr] followed by observations none of which is a [P]. *)
Definition extends (P : Obs → bool) (tr tr' : list Obs) : Prop :=
  ∃ seg, tr' = tr ++ seg ∧ Forall (λ o, P o = false) seg.

(** [tr'] is [tr] followed by a stretch without chunks and then a stretch
    without fillers: no filler comes after a chunk. *)
Definition fillers_first (tr tr' : list Obs) : Prop :=
  ∃ pre post, tr' = tr ++ pre ++ post
              ∧ Forall (λ o, is_chunk_obs o = false) pre
              ∧ Forall (λ o, is_filler_obs o = false) post.

(** The trace after the state machine of a manager has notified its
    subscriptions [cls] of a transition: each forwards to [emit]. *)
Definition notify_trace (ls : list FlowEventListener) (cls : list loc)
  (from to : ConversationState) (tr : list Obs) : list Obs :=
  foldl (λ tr _, FlowManager.emit_to ls (EvStateChange from to) tr) tr cls.

(** ** Sessions *)

(** The part of an orchestrator that the filler policy is about. *)
Record SessionView : Type := {
  sv_first : bool;
  sv_fillers : Z;
  sv_trace : list Obs;
  sv_injector : FillerInjector.t;
}.

Definition fm_view (w : FlowManager.World) : SessionView :=
  {| sv_first := FlowManager.firstChunkEmitted (FlowManager.fm w);
     sv_fillers := fillersInjected (FlowManager.stats (FlowManager.fm w));
     sv_trace := FlowManager.trace w;
     sv_injector := FlowManager.fillerInjector (FlowManager.fm w) |}.

Definition fc_view (w : FlowController.World) : SessionView :=
  {| sv_first := FlowController.firstChunkEmitted (FlowController.fc w);
     sv_fillers := fillersInjected (FlowController.stats (FlowController.fc w));
     sv_trace := FlowController.trace w;
     sv_injector := FlowController.fillerInjector (FlowController.fc w) |}.

(** What one operation of a session does to the filler bookkeeping: after
    the first chunk the flag and [fillersInjected] stay, no filler is
    emitted and the injector is untouched or reset; before it, either no
    chunk is emitted, or the flag is set and no filler is emitted. *)
Definition session_step (v v' : SessionView) : Prop :=
  (sv_first v = true →
     sv_first v' = true
     ∧ sv_fillers v' = sv_fillers v
     ∧ extends is_filler_obs (sv_trace v) (sv_trace v')
     ∧ (sv_injector v' = sv_injector v
        ∨ sv_injector v' = FillerInjector.reset (sv_injector v)))
  ∧ (sv_first v = false →
       (sv_first v' = false ∧ extends is_chunk_obs (sv_trace v) (sv_trace v'))
       ∨ (sv_first v' = true ∧ extends is_filler_obs (sv_trace v) (sv_trace v'))).

(** [start()] begins a session; every other operation belongs to one. *)
Definition is_start (o : FlowManager.Op) : bool :=
  match o with FlowManager.OpStart _ => true | _ => false end.

(** ** Reachable worlds of the event-based orchestrator *)

(** Between the state machine and the session marker: no session, and the
    machine rests in [IDLE] or [INTERRUPTED]; a session, and the machine has
    left [IDLE], and it is in [SPEAKING] only after the first chunk. *)
Definition lifecycle_ok (w : FlowManager.World) : bool :=
  match FlowManager.startTime (FlowManager.fm w), FlowManager.getState w with
  | None, (IDLE | INTERRUPTED) => true
  | None, _ => false
  | Some _, IDLE => false
  | Some _, SPEAKING => FlowManager.firstChunkEmitted (FlowManager.fm w)
  | Some _, _ => true
  end.

(** Every pending timer is the one the detector holds. *)
Definition timers_owned (d : StallDetector.t) (tm : Timers) : Prop :=
  ∀ h, is_Some (pending tm !! h) → StallDetector.stallTimer d = Some h.

(** What every reachable world satisfies. *)
Definition fm_inv (w : FlowManager.World) : Prop :=
  lifecycle_ok w = true
  ∧ timers_owned (FlowManager.stallDetector (FlowManager.fm w)) (FlowManager.timers w).

(** The worlds a program can bring a manager to: construction, then any
    sequence of operations. *)
Definition reachable (w : FlowManager.World) : Prop :=
  ∃ c h h0 m ops,
    FlowManager.create c h = (h0, Normal m)
    ∧ w = FlowManager.run ops (FlowManager.init m h0).

(** The error of a second [start()]. *)
Definition already_started : exn :=
  FlowControlError "FlowManager already started" CtxNone.

(** A reachable world without a session: a manager just constructed. *)
Definition fresh_manager : FlowManager.World :=
  FlowManager.init
    {| FlowManager.config := FlowManager.resolve FlowManager.no_config;
       FlowManager.stateMachine := StateMachine.create;
       FlowManager.stallDetector := StallDetector.create 700;
       FlowManager.fillerInjector := FillerInjector.create DEFAULT_FILLER_PHRASES 3;
       FlowManager.bufferManager :=
         {| BufferManager.buffer := 0%nat; BufferManager.maxSize := 10;
            BufferManager.head := 0; BufferManager.size := 0 |};
       FlowManager.listeners := [];
       FlowManager.firstChunkEmitted := false;
       FlowManager.stats := stats_zero;
       FlowManager.startTime := None;
       FlowManager.stateChangeUnsubscribe := None |}
    (alloc [] heap_empty).2.

(** A session with threshold 50, one filler allowed, one phrase and a
    buffer of two: the timer fires twice before the first chunk and once
    after it. *)
Definition um_config : FlowManager.FlowManagerConfig :=
  {| FlowManager.cfg_stallThresholdMs := Some 50;
     FlowManager.cfg_fillerPhrases := Some ["um"];
     FlowManager.cfg_enableFillers := None;
     FlowManager.cfg_maxFillersPerResponse := Some 1;
     FlowManager.cfg_bufferSize := Some 2 |}.

(** The suite's barge-in session of the event form: two chunks, an
    interruption, a chunk that must be ignored, completion. *)
Definition barge_in_session : list FlowManager.Op :=
  [FlowManager.OpStart 0;
   FlowManager.OpProcessChunk 1 "chunk1"; FlowManager.OpProcessChunk 2 "chunk2";
   FlowManager.OpInterrupt; FlowManager.OpProcessChunk 3 "chunk3";
   FlowManager.OpComplete 4].

(** The same for the stream form: the input interrupts after its first
    chunk and goes on delivering. *)
Definition barge_in_stream : list FlowController.Op :=
  [FlowController.OpChunk 1 "chunk1"; FlowController.OpInterrupt;
   FlowController.OpChunk 2 "chunk2"; FlowController.OpChunk 3 "chunk3"].

(** A listener that never throws. *)
Definition recorder : FlowEventListener :=
  {| el_id := 1%nat; el_throws := λ _, None |}.

Definition um_session : list FlowManager.Op :=
  [FlowManager.OpOn recorder; FlowManager.OpStart 0;
   FlowManager.OpTimerFire 0 50; FlowManager.OpTimerFire 1 100;
   FlowManager.OpProcessChunk 110 "a"; FlowManager.OpTimerFire 3 160;
   FlowManager.OpProcessChunk 170 "b"; FlowManager.OpProcessChunk 180 "c";
   FlowManager.OpComplete 200].

(** ** A detector driven by its user and the host *)

(** What a user and the host can do to a detector: the three public
    methods, and the host firing a timer. *)
Inductive DetOp : Type :=
  | DetStart (now : Z)
  | DetNotifyChunk (now : Z)
  | DetStop
  | DetFire (h : nat) (now : Z).

(** The detector, the host's timers and the arguments its callback has
    been called with. *)
Record DetWorld : Type := {
  dw_detector : StallDetector.t;
  dw_timers : Timers;
  dw_calls : list Z;
}.

(** One operation; an exception of the callback ends the timer task and
    nothing else. *)
Definition det_step (cb : Z → option exn) (o : DetOp) (w : DetWorld) : DetWorld :=
  match o with
  | DetStart now =>
      let r := StallDetector.start now (dw_detector w) (dw_timers w) in
      {| dw_detector := r.1; dw_timers := r.2; dw_calls := dw_calls w |}
  | DetNotifyChunk now =>
      let r := StallDetector.notifyChunk now (dw_detector w) (dw_timers w) in
      {| dw_detector := r.1; dw_timers := r.2; dw_calls := dw_calls w |}
  | DetStop =>
      let r := StallDetector.stop (dw_detector w) (dw_timers w) in
      {| dw_detector := r.1; dw_timers := r.2; dw_calls := dw_calls w |}
  | DetFire h now =>
      let r :=
        StallDetector.fire (call_onStall cb) h now (dw_detector w) (dw_timers w)
          (dw_calls w) in
      {| dw_detector := r.1.1.1; dw_timers := r.1.1.2; dw_calls := r.1.2 |}
  end.

Definition det_run (cb : Z → option exn) (ops : list DetOp) (w : DetWorld) : DetWorld :=
  foldl (λ w o, det_step cb o w) w ops.

(** [new StallDetector(thresholdMs, cb)] in a host without timers. *)
Definition det_init (thresholdMs : Z) : DetWorld :=
  {| dw_detector := StallDetector.create thresholdMs; dw_timers := timers_empty;
     dw_calls := [] |}.

(** Operations that do not begin a watch. *)
Definition det_passive (o : DetOp) : bool :=
  match o with DetStop | DetFire _ _ => true | _ => false end.

(** What every world of a detector satisfies: the threshold is the
    constructor's, a pending timer is the one the detector holds, it was
    armed for the threshold and a chunk time is recorded; the callback has
    only been called with durations of at least the threshold. *)
Definition det_inv (thresholdMs : Z) (w : DetWorld) : Prop :=
  StallDetector.thresholdMs (dw_detector w) = thresholdMs
  ∧ (∀ h delay, pending (dw_timers w) !! h = Some delay →
       delay = thresholdMs
       ∧ StallDetector.stallTimer (dw_detector w) = Some h
       ∧ is_Some (StallDetector.lastChunkTime (dw_detector w)))
  ∧ Forall (λ elapsed, thresholdMs ≤ elapsed) (dw_calls w).

(** ** More of what a reachable manager satisfies *)

(** The state machine's subscriptions: during a session the one closure
    that [start()] subscribed, outside a session none; and the machine
    waits only before the first chunk. *)
Definition subscription_ok (w : FlowManager.World) : Prop :=
  StateMachine.listeners (FlowManager.stateMachine (FlowManager.fm w))
  = match FlowManager.stateChangeUnsubscribe (FlowManager.fm w) with
    | Some cl => [cl]
    | None => []
    end
  ∧ (FlowManager.stateChangeUnsubscribe (FlowManager.fm w) = None
     ↔ FlowManager.startTime (FlowManager.fm w) = None)
  ∧ (FlowManager.getState w = WAITING →
     FlowManager.firstChunkEmitted (FlowManager.fm w) = false).

(** The components are the ones the constructor built from the
    configuration. *)
Definition components_ok (w : FlowManager.World) : Prop :=
  let m := FlowManager.fm w in
  BufferManager.maxSize (FlowManager.bufferManager m)
  = FlowManager.bufferSize (FlowManager.config m)
  ∧ 0 < FlowManager.bufferSize (FlowManager.config m)
  ∧ FillerInjector.maxFillers (FlowManager.fillerInjector m)
    = FlowManager.maxFillersPerResponse (FlowManager.config m)
  ∧ FillerInjector.phrases (FlowManager.fillerInjector m)
    = FlowManager.fillerPhrases (FlowManager.config m)
  ∧ StallDetector.thresholdMs (FlowManager.stallDetector m)
    = FlowManager.stallThresholdMs (FlowManager.config m).

(** The filler budget: the injector has handed out at most the limit, and
    the statistics count at most what the injector handed out. *)
Definition budget_ok (f : FillerInjector.t) (s : FlowStats) (st : ConversationState)
  : Prop :=
  0 ≤ FillerInjector.fillersUsed f ≤ Z.max 0 (FillerInjector.maxFillers f)
  ∧ 0 ≤ fillersInjected s ≤ Z.max 0 (FillerInjector.maxFillers f)
  ∧ (st ≠ INTERRUPTED → fillersInjected s ≤ FillerInjector.fillersUsed f).

(** No timer is pending outside a session or after an interruption. *)
Definition idle_timers (w : FlowManager.World) : Prop :=
  FlowManager.startTime (FlowManager.fm w) = None ∨ FlowManager.getState w = INTERRUPTED →
  pending (FlowManager.timers w) = ∅.

(** Everything above, with the invariant of the claims. *)
Definition fm_wf (w : FlowManager.World) : Prop :=
  fm_inv w
  ∧ subscription_ok w
  ∧ NoDup (map el_id (FlowManager.listeners (FlowManager.fm w)))
  ∧ components_ok w
  ∧ budget_ok (FlowManager.fillerInjector (FlowManager.fm w))
      (FlowManager.stats (FlowManager.fm w)) (FlowManager.getState w)
  ∧ idle_timers w.

(** The calls that delivering the events [evs], one after the other, to the
    listeners [ls] makes. *)
Definition deliveries (ls : list FlowEventListener) (evs : list FlowEvent)
  : list (nat * FlowEvent) :=
  ev ← evs; map (λ l, (el_id l, ev)) ls.

(** The two errors of calls outside a session. *)
Definition not_started_chunk : exn :=
  FlowControlError "FlowManager not started. Call start() first." CtxNone.

Definition not_started : exn := FlowControlError "FlowManager not started" CtxNone.

(** ** Sessions of the event-based orchestrator *)

(** Operations that neither begin, end nor interrupt a session. *)
Definition keeps_session (o : FlowManager.Op) : bool :=
  match o with
  | FlowManager.OpProcessChunk _ _ | FlowManager.OpOn _ | FlowManager.OpOff _
  | FlowManager.OpTimerFire _ _ => true
  | _ => false
  end.

(** The chunks that a sequence of operations hands to [processChunk()],
    each with the time of the call. *)
Definition chunks_of (ops : list FlowManager.Op) : list (Z * string) :=
  omap (λ o, match o with
             | FlowManager.OpProcessChunk now chunk => Some (now, chunk)
             | _ => None
             end) ops.

(** A session begun at [t0] into which the chunks [l] went: what the
    manager holds. *)
Definition session_inv (t0 : Z) (b : loc) (l : list (Z * string)) (w : FlowManager.World)
  : Prop :=
  FlowManager.startTime (FlowManager.fm w) = Some t0
  ∧ FlowManager.getState w = (if l is [] then WAITING else SPEAKING)
  ∧ FlowManager.firstChunkEmitted (FlowManager.fm w) = (if l is [] then false else true)
  ∧ chunksProcessed (FlowManager.stats (FlowManager.fm w)) = Z.of_nat (length l)
  ∧ firstChunkTime (FlowManager.stats (FlowManager.fm w)) = ((λ p, p.1 - t0) <$> head l)
  ∧ buffer_inv (FlowManager.bufferSize (FlowManager.config (FlowManager.fm w))) b
      (map snd l) (FlowManager.bufferManager (FlowManager.fm w)) (FlowManager.heap w).

(** Operations that do not subscribe a listener with the identity of
    [l]. *)
Definition leaves_out (l : FlowEventListener) (o : FlowManager.Op) : bool :=
  match o with
  | FlowManager.OpOn l' => negb (bool_decide (el_id l' = el_id l))
  | _ => true
  end.

(** The calls made to the listener [l]. *)
Definition calls_of (l : FlowEventListener) (tr : list Obs) : list (nat * FlowEvent) :=
  filter (λ c, c.1 = el_id l) (listener_calls tr).

(** ** Iterations of the stream-wrapping orchestrator *)


(** One use of a controller: [wrap] at some time, and what then happens to
    the iteration and the controller. *)
Definition Session : Type := Z * list FlowController.Op.

Definition fc_sessions (ss : list Session) (w : FlowController.World)
  : FlowController.World :=
  foldl (λ w s, FlowController.world (FlowController.run s.2 (FlowController.wrap s.1 w)))
    w ss.

(** The worlds a program can bring a controller to: construction, then
    iterations one after the other. *)
Definition fc_reachable (w : FlowController.World) : Prop :=
  ∃ c h h0 m ss,
    FlowController.create c h = (h0, Normal m)
    ∧ w = fc_sessions ss (FlowController.init m h0).

(** What every reachable controller satisfies. *)
Definition fc_wf (w : FlowController.World) : Prop :=
  let m := FlowController.fc w in
  timers_owned (FlowController.stallDetector m) (FlowController.timers w)
  ∧ BufferManager.maxSize (FlowController.bufferManager m) = 10
  ∧ FillerInjector.maxFillers (FlowController.fillerInjector m)
    = FlowController.maxFillersPerResponse (FlowController.config m)
  ∧ budget_ok (FlowController.fillerInjector m) (FlowController.stats m)
      (FlowController.getState w).

(** Input that keeps an iteration going: chunks, and timers in between. *)
Definition delivers (o : FlowController.Op) : bool :=
  match o with
  | FlowController.OpChunk _ _ | FlowController.OpTimerFire _ _ => true
  | _ => false
  end.

(** The chunks that the input delivers, each with its time. *)
Definition stream_chunks (ops : list FlowController.Op) : list (Z * string) :=
  omap (λ o, match o with
             | FlowController.OpChunk now chunk => Some (now, chunk)
             | _ => None
             end) ops.

(** A running iteration begun at [t0] that has received the chunks [l]. *)
Definition stream_inv (t0 : Z) (b : loc) (l : list (Z * string))
  (it : FlowController.Iteration) : Prop :=
  let w := FlowController.world it in
  FlowController.running it = true
  ∧ FlowController.raised it = None
  ∧ FlowController.yielded it = map snd l
  ∧ FlowController.startTime (FlowController.fc w) = Some t0
  ∧ FlowController.getState w = (if l is [] then WAITING else SPEAKING)
  ∧ FlowController.firstChunkEmitted (FlowController.fc w)
    = (if l is [] then false else true)
  ∧ chunksProcessed (FlowController.stats (FlowController.fc w)) = Z.of_nat (length l)
  ∧ firstChunkTime (FlowController.stats (FlowController.fc w))
    = ((λ p, p.1 - t0) <$> head l)
  ∧ buffer_inv 10 b (map snd l) (FlowController.bufferManager (FlowController.fc w))
      (FlowController.heap w)
  ∧ timers_owned (FlowController.stallDetector (FlowController.fc w))
      (FlowController.timers w)
  ∧ FlowController.onFirstChunk (FlowController.config (FlowController.fc w)) = None.


(** A controller just constructed with the default configuration. *)
Definition fresh_controller : FlowController.World :=
  FlowController.init
    {| FlowController.config := FlowController.resolve FlowController.no_config;
       FlowController.stateMachine := StateMachine.create;
       FlowController.stallDetector := StallDetector.create 700;
       FlowController.fillerInjector := FillerInjector.create DEFAULT_FILLER_PHRASES 3;
       FlowController.bufferManager :=
         {| BufferManager.buffer := 0%nat; BufferManager.maxSize := 10;
            BufferManager.head := 0; BufferManager.size := 0 |};
       FlowController.firstChunkEmitted := false;
       FlowController.stats := stats_zero;
       FlowController.startTime := None |}
    (alloc [] heap_empty).2.

(** ** Arrays handed out *)

(** An array [l] that exists and is not the manager's internal one. *)
Definition handed_out (l : loc) (w : FlowManager.World) : Prop :=
  (l < next_loc (FlowManager.heap w))%nat
  ∧ l ≠ BufferManager.buffer (FlowManager.bufferManager (FlowManager.fm w)).

(** The internal array exists. *)
Definition buffer_allocated (w : FlowManager.World) : Prop :=
  (BufferManager.buffer (FlowManager.bufferManager (FlowManager.fm w))
   < next_loc (FlowManager.heap w))%nat.

(** * Properties *)

(** ** The state machine *)

Section StateMachineFacts.
Context {L W : Type}.
Variable key : L → nat.
Variable invoke : L → ConversationState → ConversationState → W → W * completion unit.

(** A pair outside the table: the call throws the error that carries the
    pair, and neither the machine nor the world changes. *)
Lemma transition_invalid (to : ConversationState) (m : StateMachine.t L) (w : W) :
  in_table (StateMachine.getState m) to = false →
  StateMachine.transition invoke to m w
  = (m, w, Throw (invalid_transition (StateMachine.getState m) to)).
Proof.
  intros H. unfold StateMachine.transition, in_table, StateMachine.getState in *.
  by rewrite H.
Qed.

(** A pair of the table: the state is the target, whatever the listeners
    do. *)
Lemma transition_valid_state (to : ConversationState) (m : StateMachine.t L) (w : W) :
  in_table (StateMachine.getState m) to = true →
  StateMachine.getState (StateMachine.transition invoke to m w).1.1 = to
  ∧ StateMachine.listeners (StateMachine.transition invoke to m w).1.1
    = StateMachine.listeners m.
Proof.
  intros H. unfold StateMachine.transition, in_table, StateMachine.getState in *.
  rewrite H. simpl.
  by destruct (StateMachine.notify invoke (StateMachine.listeners m)
                 (StateMachine.currentState m) to w) as [w' [u|e]].
Qed.

Lemma transition_listeners (to : ConversationState) (m : StateMachine.t L) (w : W) :
  StateMachine.listeners (StateMachine.transition invoke to m w).1.1
  = StateMachine.listeners m.
Proof.
  destruct (in_table (StateMachine.getState m) to) eqn:H.
  - by apply transition_valid_state.
  - by rewrite transition_invalid.
Qed.
End StateMachineFacts.

(** The state after a run, from any starting machine. *)
Lemma um_run_final_state (tos : list ConversationState) (m : UserMachine)
  (log : list StateCall) :
  StateMachine.getState (um_run tos m log).1.1
  = default (StateMachine.getState m)
      (last (map at_to (filter (λ a, attempt_in_table a = true) (um_run tos m log).2))).
Proof.
  revert m log. induction tos as [|to tos IH]; intros m log; simpl; [done|].
  destruct (um_transition to m log) as [[m1 log1] r1] eqn:Et.
  specialize (IH m1 log1).
  destruct (um_run tos m1 log1) as [[m2 log2] atts] eqn:Er. simpl in *.
  rewrite IH. unfold um_transition in Et.
  destruct (in_table (StateMachine.getState m) to) eqn:Hin.
  - pose proof (transition_valid_state call_state_listener to m log Hin) as [Hs _].
    rewrite Et in Hs. simpl in Hs.
    rewrite filter_cons_True by done. simpl.
    destruct (map at_to (filter _ atts)) as [|x xs] eqn:Em; simpl; [done|].
    change (last (to :: x :: xs)) with (last (x :: xs)).
    destruct (last (x :: xs)) eqn:El; [done|].
    by apply last_None in El.
  - rewrite transition_invalid in Et by done. simplify_eq.
    by rewrite filter_cons_False by (unfold attempt_in_table; simpl; congruence).
Qed.

Lemma um_run_invalid_attempts (tos : list ConversationState) (m : UserMachine)
  (log : list StateCall) (a : Attempt) :
  a ∈ (um_run tos m log).2 →
  attempt_in_table a = false →
  at_result a = Throw (invalid_transition (at_from a) (at_to a)).
Proof.
  revert m log. induction tos as [|to tos IH]; intros m log; simpl.
  - by intros ?%elem_of_nil.
  - destruct (um_transition to m log) as [[m1 log1] r1] eqn:Et.
    specialize (IH m1 log1).
    destruct (um_run tos m1 log1) as [[m2 log2] atts] eqn:Er. simpl in *.
    intros [->|Hin]%elem_of_cons Hout; [|by apply IH].
    unfold attempt_in_table in Hout. simpl in *.
    unfold um_transition in Et. rewrite transition_invalid in Et by done.
    by simplify_eq.
Qed.

Lemma um_with_state (ls : list StateListener) :
  StateMachine.getState (um_with ls) = IDLE.
Proof.
  unfold um_with.
  assert (∀ m : UserMachine,
    StateMachine.getState
      (foldl (λ m l, StateMachine.onStateChange sl_id l m) m ls)
    = StateMachine.getState m) as H; [|by rewrite H].
  induction ls as [|l ls IH]; intros m; simpl; [done|].
  rewrite IH. unfold StateMachine.onStateChange. by case_match.
Qed.

(** C1.  Any sequence of [transition()] calls on a machine that starts in
    [IDLE], whatever listeners are subscribed and whether or not they
    throw: the final state is the target of the last call whose (from, to)
    pair was in the table ([IDLE] when there is none); every call whose pair
    is outside the table throws the error carrying that pair; and such a
    call changes neither the machine nor anything else. *)
Theorem transition_sequence_follows_table
  (ls : list StateListener) (tos : list ConversationState) (log : list StateCall) :
  let r := um_run tos (um_with ls) log in
  StateMachine.getState r.1.1
  = default IDLE (last (map at_to (filter (λ a, attempt_in_table a = true) r.2)))
  ∧ (∀ a, a ∈ r.2 → attempt_in_table a = false →
       at_result a = Throw (invalid_transition (at_from a) (at_to a)))
  ∧ (∀ (m : UserMachine) to lg,
       in_table (StateMachine.getState m) to = false →
       um_transition to m lg
       = (m, lg, Throw (FlowControlError
                          ("Invalid state transition: "
                           +:+ state_name (StateMachine.getState m)
                           +:+ " -> " +:+ state_name to)
                          (CtxTransition (StateMachine.getState m) to))))
  ∧ (∀ (m : UserMachine) to lg,
       in_table (StateMachine.getState m) to = true →
       StateMachine.getState (um_transition to m lg).1.1 = to)
  ∧ (∀ from to,
       in_table from to = true ↔
       (from, to) ∈ [(IDLE, SPEAKING); (IDLE, WAITING);
                     (WAITING, SPEAKING); (WAITING, IDLE); (WAITING, INTERRUPTED);
                     (SPEAKING, INTERRUPTED); (SPEAKING, IDLE);
                     (INTERRUPTED, IDLE); (INTERRUPTED, WAITING)]).
Proof.
  intros r. subst r. repeat split.
  - rewrite um_run_final_state. by rewrite um_with_state.
  - apply um_run_invalid_attempts.
  - intros m to lg H. by apply transition_invalid.
  - intros m to lg H. by apply transition_valid_state.
  - destruct from, to; simpl; intros H; try done; compute in H; try done;
      set_solver.
  - destruct from, to; intros H; try done; exfalso;
      repeat (apply elem_of_cons in H as [H|H]; [discriminate|]);
      by apply elem_of_nil in H.
Qed.


(** The first listener that throws ends the notification: the listeners
    after it are not called and the exception is the result. *)
Lemma notify_stops_at_throw (ls1 ls2 : list StateListener) (l : StateListener)
  (from to : ConversationState) (e : exn) (log : list StateCall) :
  Forall (λ l, sl_throws l from to = None) ls1 →
  sl_throws l from to = Some e →
  StateMachine.notify call_state_listener (ls1 ++ l :: ls2) from to log
  = (log ++ map (λ l, (sl_id l, from, to)) (ls1 ++ [l]), Throw e).
Proof.
  revert log. induction ls1 as [|l1 ls1 IH]; intros log Hall He; simpl.
  - by rewrite He.
  - inversion Hall as [|?? Hl Hls]; subst. rewrite Hl.
    rewrite IH by done. by rewrite <- app_assoc.
Qed.

(** C6.  [transition(WAITING)] on a machine in [IDLE] with the subscribers
    [throwing_listener] and [quiet_listener], in this order: the transition
    is in the table and the state becomes [WAITING], but the exception of
    the first listener reaches the caller and the second listener is never
    called.  ([FlowManager.emit] does isolate its listeners:
    [emit_to_calls_all] below.) *)
Theorem state_listener_exception_escapes :
  um_transition WAITING (um_with [throwing_listener; quiet_listener]) []
  = ({| StateMachine.currentState := WAITING;
        StateMachine.listeners := [throwing_listener; quiet_listener] |},
     [(1%nat, IDLE, WAITING)],
     Throw (UserThrown 0)).
Proof. reflexivity. Qed.

(** [FlowManager.emit] isolates each listener: all of them are called, in
    subscription order, whether or not some throw, and [emit] returns. *)
Lemma emit_to_calls_all (ls : list FlowEventListener) (ev : FlowEvent) (tr : list Obs) :
  listener_calls (FlowManager.emit_to ls ev tr)
  = listener_calls tr ++ map (λ l, (el_id l, ev)) ls.
Proof.
  revert tr. induction ls as [|l ls IH]; intros tr; simpl.
  - by rewrite app_nil_r.
  - destruct (el_throws l ev); rewrite IH; unfold listener_calls;
      rewrite ?omap_app; simpl; by rewrite <- ?app_assoc.
Qed.

Lemma emit_returns (ev : FlowEvent) (w : FlowManager.World) :
  (FlowManager.emit ev w).2 = Normal tt.
Proof. reflexivity. Qed.

(** ** Filler rotation *)

Lemma getFiller_exhausted (f : FillerInjector.t) :
  FillerInjector.maxFillers f ≤ FillerInjector.fillersUsed f →
  FillerInjector.getFiller f = (f, None).
Proof.
  intros H. unfold FillerInjector.getFiller.
  by destruct (Z.geb_spec (FillerInjector.fillersUsed f) (FillerInjector.maxFillers f));
    [|lia].
Qed.

Section FillerRotation.
Variable phrases : list string.
Variable maxCount : Z.
Hypothesis phrases_nonempty : phrases ≠ [].
Hypothesis maxCount_nonneg : 0 ≤ maxCount.

Local Abbreviation len := (Z.of_nat (length phrases)).

Lemma len_pos : 0 < len.
Proof. destruct phrases; [done|]. simpl. lia. Qed.

Lemma getFiller_step (k : Z) :
  0 ≤ k < maxCount →
  FillerInjector.getFiller (injector_after phrases maxCount k)
  = (injector_after phrases maxCount (k + 1), phrases !! Z.to_nat (k `mod` len)).
Proof using phrases_nonempty.
  intros Hk. pose proof len_pos as Hlen.
  unfold FillerInjector.getFiller, injector_after. simpl.
  destruct (Z.geb_spec k maxCount) as [?|_]; [lia|].
  unfold FillerInjector.js_rem.
  destruct (Z.eqb_spec len 0) as [?|_]; [lia|]. simpl.
  assert (Z.rem ((if k =? 0 then -1 else (k - 1) `mod` len) + 1) len = k `mod` len)
    as ->.
  { destruct (Z.eqb_spec k 0) as [->|Hk0].
    - simpl. rewrite Z.rem_0_l by lia. by rewrite Z.mod_0_l by lia.
    - pose proof (Z.mod_pos_bound (k - 1) len Hlen).
      rewrite Z.rem_mod_nonneg by lia.
      rewrite Z.add_mod_idemp_l by lia. f_equal. lia. }
  destruct (Z.eqb_spec (k + 1) 0) as [?|_]; [lia|].
  replace (k + 1 - 1) with k by lia.
  pose proof (Z.mod_pos_bound k len Hlen).
  by destruct (Z.ltb_spec (k `mod` len) 0) as [?|_]; [lia|].
Qed.

Lemma expected_filler_exhausted (n : nat) (k : Z) :
  maxCount ≤ k →
  map (expected_filler phrases maxCount) (seqZ k (Z.of_nat n)) = replicate n None.
Proof.
  revert k. induction n as [|n IH]; intros k Hk; [done|].
  replace (Z.of_nat (S n)) with (Z.succ (Z.of_nat n)) by lia.
  rewrite seqZ_cons by lia. rewrite Z.pred_succ. cbn [map replicate].
  rewrite IH by lia. f_equal.
  unfold expected_filler. by destruct (Z.ltb_spec k maxCount); [lia|].
Qed.

Lemma getFillers_from (n : nat) (k : Z) :
  0 ≤ k ≤ maxCount →
  FillerInjector.getFillers n (injector_after phrases maxCount k)
  = (injector_after phrases maxCount (Z.min (k + Z.of_nat n) maxCount),
     map (expected_filler phrases maxCount) (seqZ k (Z.of_nat n))).
Proof using phrases_nonempty.
  revert k. induction n as [|n IH]; intros k Hk.
  - simpl. f_equal. f_equal. lia.
  - cbn [FillerInjector.getFillers].
    replace (Z.of_nat (S n)) with (Z.succ (Z.of_nat n)) by lia.
    rewrite seqZ_cons by lia. rewrite Z.pred_succ. cbn [map].
    destruct (decide (k < maxCount)) as [Hlt|Hge].
    + rewrite getFiller_step by lia. rewrite IH by lia.
      f_equal; [f_equal; lia|]. f_equal.
      unfold expected_filler. by destruct (Z.ltb_spec k maxCount); [|lia].
    + rewrite getFiller_exhausted by (simpl; lia).
      rewrite IH by lia. f_equal; [f_equal; lia|].
      rewrite !expected_filler_exhausted by lia. f_equal.
      unfold expected_filler. by destruct (Z.ltb_spec k maxCount); [lia|].
Qed.

Lemma expected_filler_is_phrase (k : Z) :
  0 ≤ k < maxCount → is_Some (expected_filler phrases maxCount k).
Proof using phrases_nonempty.
  intros Hk. unfold expected_filler.
  destruct (Z.ltb_spec k maxCount); [|lia].
  apply lookup_lt_is_Some. pose proof (Z.mod_pos_bound k len len_pos).
  lia.
Qed.
End FillerRotation.

(** C5.  For a non-empty phrase list and a non-negative [maxCount]: the
    call number [k] (counting from 0) of a fresh injector returns the phrase
    at index [k mod len(phrases)] while [k < maxCount] and [null] from then
    on; after [n] calls [usedCount] is [min n maxCount]; a call on an
    exhausted injector returns [null] and leaves it as it was; and
    [reset()] gives back the fresh injector, so the cycle restarts at the
    first phrase. *)
Theorem filler_round_robin (phrases : list string) (maxCount : Z) (n : nat) :
  phrases ≠ [] →
  0 ≤ maxCount →
  let fresh := FillerInjector.create phrases maxCount in
  let r := FillerInjector.getFillers n fresh in
  r.2 = map (λ k, if k <? maxCount
                  then phrases !! Z.to_nat (k `mod` Z.of_nat (length phrases))
                  else None)
            (seqZ 0 (Z.of_nat n))
  ∧ (∀ k, 0 ≤ k < maxCount →
       is_Some (phrases !! Z.to_nat (k `mod` Z.of_nat (length phrases))))
  ∧ FillerInjector.getUsedCount r.1 = Z.min (Z.of_nat n) maxCount
  ∧ (FillerInjector.getUsedCount r.1 = maxCount →
       FillerInjector.getFiller r.1 = (r.1, None))
  ∧ FillerInjector.reset r.1 = fresh
  ∧ FillerInjector.lastFillerIndex (FillerInjector.reset r.1) = Some (-1)
  ∧ FillerInjector.getUsedCount (FillerInjector.reset r.1) = 0.
Proof.
  intros Hne Hmax fresh r.
  assert (fresh = injector_after phrases maxCount 0) as Hfresh by done.
  subst r. rewrite Hfresh.
  rewrite (getFillers_from phrases maxCount Hne n 0) by lia.
  cbn [fst snd]. split_and!; try done.
  - intros k Hk.
    pose proof (expected_filler_is_phrase phrases maxCount Hne k Hk) as H.
    unfold expected_filler in H. by destruct (Z.ltb_spec k maxCount); [|lia].
  - intros H. apply getFiller_exhausted.
    unfold FillerInjector.getUsedCount, injector_after in *.
    cbn [FillerInjector.maxFillers FillerInjector.fillersUsed] in *. lia.
Qed.

Lemma filler_round_robin_witness :
  (FillerInjector.getFillers 5 (FillerInjector.create ["a"; "b"; "c"] 4)).2
  = [Some "a"; Some "b"; Some "c"; Some "a"; None].
Proof.
  exact (proj1 (filler_round_robin ["a"; "b"; "c"] 4 5 ltac:(done) ltac:(lia))).
Defined.

(** ** The heap *)

Lemma heap_empty_wf : heap_wf heap_empty.
Proof. intros l _. apply lookup_empty. Qed.

Lemma read_write_eq (l : loc) (a : jsarray) (h : Heap) : read l (write l a h) = a.
Proof. unfold read, write. simpl. by rewrite lookup_insert_eq. Qed.

Lemma read_write_ne (l l' : loc) (a : jsarray) (h : Heap) :
  l ≠ l' → read l' (write l a h) = read l' h.
Proof. intros H. unfold read, write. simpl. by rewrite lookup_insert_ne. Qed.

Lemma read_alloc_eq (a : jsarray) (h : Heap) : read (alloc a h).1 (alloc a h).2 = a.
Proof. unfold read, alloc. simpl. by rewrite lookup_insert_eq. Qed.

Lemma read_alloc_ne (l : loc) (a : jsarray) (h : Heap) :
  l ≠ next_loc h → read l (alloc a h).2 = read l h.
Proof. intros H. unfold read, alloc. simpl. by rewrite lookup_insert_ne. Qed.

Lemma write_wf (l : loc) (a : jsarray) (h : Heap) :
  (l < next_loc h)%nat → heap_wf h → heap_wf (write l a h).
Proof.
  intros Hl Hwf l' Hl'. unfold write in *. simpl in *.
  rewrite lookup_insert_ne by lia. by apply Hwf.
Qed.

Lemma alloc_wf (a : jsarray) (h : Heap) : heap_wf h → heap_wf (alloc a h).2.
Proof.
  intros Hwf l' Hl'. unfold alloc in *. simpl in *.
  rewrite lookup_insert_ne by lia. apply Hwf. lia.
Qed.

(** ** The circular buffer *)

(** Overwriting position [i] and moving the head to the next position turns
    the reading "from the head round to the head" into the old reading
    without its first element and with the new element at its end. *)
Lemma rotate_overwrite {A} (arr : list A) (i : nat) (v : A) :
  (i < length arr)%nat →
  let arr' := <[i := v]> arr in
  let i' := (S i `mod` length arr)%nat in
  drop i' arr' ++ take i' arr' = drop 1 (drop i arr ++ take i arr) ++ [v].
Proof.
  intros Hi arr' i'. subst arr' i'.
  destruct (lookup_lt_is_Some_2 arr i Hi) as [y Hy].
  pose proof (take_drop_middle arr i y Hy) as Harr.
  set (A1 := take i arr) in *. set (B := drop (S i) arr) in *.
  assert (length A1 = i) as HA1 by (unfold A1; rewrite length_take; lia).
  assert (drop i arr = y :: B) as Hd.
  { rewrite <- Harr at 1. rewrite drop_app_length'; done. }
  assert (<[i := v]> arr = A1 ++ v :: B) as Hins.
  { rewrite <- Harr at 1. rewrite insert_app_r_alt by lia.
    replace (i - length A1)%nat with 0%nat by lia. done. }
  assert (length arr = S (i + length B)) as Hlen.
  { rewrite <- Harr. rewrite length_app. simpl. lia. }
  rewrite Hins, Hd, Hlen.
  change (drop 1 ((y :: B) ++ A1)) with (B ++ A1).
  clearbody A1 B. clear Harr Hd Hins Hlen Hy Hi.
  destruct B as [|b B'].
  - replace (S (i + length (@nil A))) with (S i) by (simpl; lia).
    rewrite Nat.Div0.mod_same. simpl. by rewrite app_nil_r.
  - rewrite Nat.mod_small by (simpl; lia).
    replace (S i) with (length A1 + 1)%nat by lia.
    rewrite drop_app_add, take_app_add. simpl.
    by rewrite <- app_assoc.
Qed.

Section BufferFacts.
Variable c : Z.
Hypothesis c_pos : 0 < c.

Lemma buffer_inv_add (b : loc) (l : list string) (x : string)
  (bm : BufferManager.t) (h : Heap) :
  buffer_inv c b l bm h →
  buffer_inv c b (l ++ [x]) (BufferManager.add x bm h).1 (BufferManager.add x bm h).2.
Proof using c_pos.
  intros (Hb & Hm & Hlt & Hcase). unfold BufferManager.add. rewrite Hm, Hb.
  destruct Hcase as [(Hs & Hsc & Hh & Hr) | (Hs & Hn & Hh & Hlen & Hrot)].
  - destruct (Z.ltb_spec (BufferManager.size bm) c) as [_|?]; [|lia].
    simpl. split_and!; try done.
    rewrite read_write_eq, Hr, length_app. simpl.
    destruct (decide (BufferManager.size bm + 1 < c)) as [Hlt'|Hge].
    + left. split_and!; try done; [lia|]. by rewrite map_app.
    + right. rewrite Hh. simpl. rewrite drop_0, app_nil_r.
      rewrite length_app, length_map. simpl.
      split_and!; try lia.
      replace (length l + 1 - Z.to_nat c)%nat with 0%nat by lia.
      by rewrite drop_0, map_app.
  - destruct (Z.ltb_spec (BufferManager.size bm) c) as [?|_]; [lia|].
    simpl. split_and!; try done. right.
    rewrite read_write_eq. unfold array_set.
    destruct (Z.ltb_spec (BufferManager.head bm) 0) as [?|_]; [lia|].
    destruct (Z.ltb_spec (BufferManager.head bm) (Z.of_nat (length (read b h))))
      as [_|?]; [|lia].
    rewrite length_insert, length_app. simpl.
    pose proof (Z.rem_bound_pos (BufferManager.head bm + 1) c ltac:(lia) c_pos).
    split_and!; try done; try lia.
    assert (Z.to_nat (Z.rem (BufferManager.head bm + 1) c)
            = (S (Z.to_nat (BufferManager.head bm)) `mod` length (read b h))%nat)
      as ->.
    { rewrite Hlen. rewrite Z.rem_mod_nonneg by lia.
      rewrite <- (Z2Nat.id c) at 1 by lia.
      replace (BufferManager.head bm + 1)
        with (Z.of_nat (S (Z.to_nat (BufferManager.head bm)))) by lia.
      rewrite <- Nat2Z.inj_mod. by rewrite Nat2Z.id. }
    rewrite rotate_overwrite by lia. rewrite Hrot.
    rewrite skipn_map, drop_drop.
    replace (length l + 1 - Z.to_nat c)%nat with (S (length l - Z.to_nat c)) by lia.
    rewrite drop_app_le by (rewrite ?length_app; lia).
    rewrite map_app. simpl. do 2 f_equal. f_equal. lia.
Qed.

Lemma buffer_inv_addAll (b : loc) (chunks l : list string)
  (bm : BufferManager.t) (h : Heap) :
  buffer_inv c b l bm h →
  buffer_inv c b (l ++ chunks)
    (BufferManager.addAll chunks bm h).1 (BufferManager.addAll chunks bm h).2.
Proof using c_pos.
  revert l bm h. induction chunks as [|x chunks IH]; intros l bm h Hinv; simpl.
  - by rewrite app_nil_r.
  - pose proof (buffer_inv_add b l x bm h Hinv) as Hstep.
    destruct (BufferManager.add x bm h) as [bm1 h1]. simpl in Hstep.
    specialize (IH _ _ _ Hstep). by rewrite <- app_assoc in IH.
Qed.

Lemma buffer_inv_snapshot (b : loc) (l : list string)
  (bm : BufferManager.t) (h : Heap) :
  buffer_inv c b l bm h →
  BufferManager.snapshot bm h = map Some (drop (length l - Z.to_nat c) l).
Proof using c_pos.
  intros (Hb & Hm & Hlt & Hcase).
  unfold BufferManager.snapshot, BufferManager.getAll. rewrite Hm, Hb.
  destruct Hcase as [(Hs & Hsc & Hh & Hr) | (Hs & Hn & Hh & Hlen & Hrot)].
  - destruct (Z.ltb_spec (BufferManager.size bm) c) as [_|?]; [|lia].
    pose proof (read_alloc_eq (read b h) h) as Ha.
    destruct (alloc (read b h) h) as [r h']. simpl in Ha. rewrite Ha, Hr.
    replace (length l - Z.to_nat c)%nat with 0%nat by lia. by rewrite drop_0.
  - destruct (Z.ltb_spec (BufferManager.size bm) c) as [?|_]; [lia|].
    unfold slice_from, slice_to, slice_index.
    destruct (Z.ltb_spec (BufferManager.head bm) 0) as [?|_]; [lia|].
    rewrite Hrot.
    pose proof (read_alloc_eq (map Some (drop (length l - Z.to_nat c) l)) h) as Ha.
    by destruct (alloc _ h) as [r h'].
Qed.

(** The array that [getAll()] returns is a new object: it is not the
    internal array, the location was unused, and whatever the caller then
    stores in it, the buffer reads as before. *)
Lemma buffer_inv_getAll_fresh (b : loc) (l : list string)
  (bm : BufferManager.t) (h : Heap) :
  heap_wf h →
  buffer_inv c b l bm h →
  let r := (BufferManager.getAll bm h).1 in
  let h' := (BufferManager.getAll bm h).2 in
  r ≠ BufferManager.buffer bm
  ∧ arrays h !! r = None
  ∧ read (BufferManager.buffer bm) h' = read (BufferManager.buffer bm) h
  ∧ ∀ a : jsarray,
      buffer_inv c b l bm (write r a h')
      ∧ BufferManager.snapshot bm (write r a h') = BufferManager.snapshot bm h.
Proof using c_pos.
  intros Hwf Hinv r h'.
  assert (r = next_loc h ∧ ∃ a0, h' = (alloc a0 h).2) as [Hr [a0 Hh']].
  { subst r h'. unfold BufferManager.getAll. case_match; simpl; eauto. }
  pose proof Hinv as (Hb & Hm & Hlt & Hcase).
  assert (r ≠ b) as Hne by lia.
  assert (read b h' = read b h) as Hread.
  { rewrite Hh'. apply read_alloc_ne. lia. }
  rewrite Hb. split_and!; try done.
  { rewrite Hr. by apply Hwf. }
  intros a.
  assert (buffer_inv c b l bm (write r a h')) as Hinv'.
  { unfold buffer_inv. rewrite read_write_ne by done. rewrite Hread.
    split_and!; try done. rewrite Hh'. simpl. lia. }
  split; [done|].
  by rewrite (buffer_inv_snapshot b l bm _ Hinv'), (buffer_inv_snapshot b l bm h Hinv).
Qed.

Lemma buffer_inv_create (h : Heap) :
  ∃ bm, BufferManager.create c h = ((alloc [] h).2, Normal bm)
        ∧ buffer_inv c (next_loc h) [] bm (alloc [] h).2.
Proof using c_pos.
  unfold BufferManager.create. simpl.
  destruct (Z.leb_spec c 0) as [?|_]; [lia|].
  eexists. split; [done|]. unfold buffer_inv. simpl. split_and!; try done; [lia|].
  left. split_and!; try done. unfold read. simpl. by rewrite lookup_insert_eq.
Qed.
End BufferFacts.

Lemma buffer_addAll_wf (c : Z) (b : loc) (chunks l : list string)
  (bm : BufferManager.t) (h : Heap) :
  0 < c →
  buffer_inv c b l bm h →
  heap_wf h →
  heap_wf (BufferManager.addAll chunks bm h).2.
Proof.
  intros Hc. revert l bm h. induction chunks as [|x chunks IH]; intros l bm h Hinv Hwf;
    simpl; [done|].
  pose proof (buffer_inv_add c Hc b l x bm h Hinv) as Hstep.
  assert (heap_wf (BufferManager.add x bm h).2) as Hwf'.
  { destruct Hinv as (Hb & _ & Hlt & _).
    unfold BufferManager.add. case_match; simpl; apply write_wf; by rewrite ?Hb. }
  destruct (BufferManager.add x bm h) as [bm1 h1]. by eapply IH.
Qed.

(** The suite's circular case: capacity 3, five chunks. *)
Example buffer_keeps_last_three :
  ∃ bm h, BufferManager.create 3 heap_empty = (h, Normal bm)
          ∧ let '(bm', h') := BufferManager.addAll ["a"; "b"; "c"; "d"; "e"] bm h in
            BufferManager.snapshot bm' h' = [Some "c"; Some "d"; Some "e"].
Proof. do 2 eexists. split; [reflexivity|]. vm_compute. reflexivity. Qed.

(** C4.  A buffer of positive capacity [c], freshly constructed, into which
    [chunks] are pushed: the snapshot holds the last [c] chunks pushed (all
    of them when there are at most [c]), oldest first, with no hole; in
    particular exactly [c] chunks come back as pushed, and [c + k] chunks
    come back without their first [k].  The snapshot is a new array: its
    location differs from the internal array's and was unused before, and
    whatever the caller stores in it afterwards, the buffer's next snapshot
    is what it would have been. *)
Theorem buffer_snapshot_last_capacity (c : Z) (chunks : list string) (h0 : Heap) :
  0 < c →
  heap_wf h0 →
  ∃ bm0 h1,
    BufferManager.create c h0 = (h1, Normal bm0)
    ∧ let bm := (BufferManager.addAll chunks bm0 h1).1 in
      let h := (BufferManager.addAll chunks bm0 h1).2 in
      BufferManager.snapshot bm h
      = map Some (drop (length chunks - Z.to_nat c) chunks)
      ∧ (Z.of_nat (length chunks) = c → BufferManager.snapshot bm h = map Some chunks)
      ∧ (∀ k : nat, Z.of_nat (length chunks) = c + Z.of_nat k →
           BufferManager.snapshot bm h = map Some (drop k chunks)
           ∧ Z.of_nat (length (drop k chunks)) = c)
      ∧ let r := (BufferManager.getAll bm h).1 in
        let h' := (BufferManager.getAll bm h).2 in
        r ≠ BufferManager.buffer bm
        ∧ arrays h !! r = None
        ∧ read r h' = BufferManager.snapshot bm h
        ∧ read (BufferManager.buffer bm) h' = read (BufferManager.buffer bm) h
        ∧ ∀ a : list (option string),
            BufferManager.snapshot bm (write r a h') = BufferManager.snapshot bm h.
Proof.
  intros Hc Hwf0.
  destruct (buffer_inv_create c Hc h0) as (bm0 & Hcreate & Hinv0).
  exists bm0, (alloc [] h0).2. split; [done|].
  pose proof (buffer_inv_addAll c Hc _ chunks [] bm0 _ Hinv0) as Hinv.
  pose proof (buffer_addAll_wf c _ chunks [] bm0 _ Hc Hinv0 (alloc_wf [] h0 Hwf0)) as Hwf.
  simpl in Hinv.
  set (bm := (BufferManager.addAll chunks bm0 (alloc [] h0).2).1) in *.
  set (h := (BufferManager.addAll chunks bm0 (alloc [] h0).2).2) in *.
  pose proof (buffer_inv_snapshot c Hc _ _ bm h Hinv) as Hsnap.
  cbv zeta. split_and!.
  - done.
  - intros Hlen. rewrite Hsnap.
    replace (length chunks - Z.to_nat c)%nat with 0%nat by lia. by rewrite drop_0.
  - intros k Hlen. rewrite Hsnap, length_drop.
    replace (length chunks - Z.to_nat c)%nat with k by lia. split; [done|lia].
  - by apply (buffer_inv_getAll_fresh c Hc _ chunks bm h Hwf Hinv).
  - by apply (buffer_inv_getAll_fresh c Hc _ chunks bm h Hwf Hinv).
  - unfold BufferManager.snapshot. by destruct (BufferManager.getAll bm h).
  - by apply (buffer_inv_getAll_fresh c Hc _ chunks bm h Hwf Hinv).
  - intros a. by apply (buffer_inv_getAll_fresh c Hc _ chunks bm h Hwf Hinv).
Qed.

Lemma buffer_snapshot_last_capacity_witness :
  ∃ bm0 h1,
    BufferManager.create 2 heap_empty = (h1, Normal bm0)
    ∧ let bm := (BufferManager.addAll ["a"; "b"; "c"] bm0 h1).1 in
      let h := (BufferManager.addAll ["a"; "b"; "c"] bm0 h1).2 in
      BufferManager.snapshot bm h = [Some "b"; Some "c"].
Proof.
  destruct (buffer_snapshot_last_capacity 2 ["a"; "b"; "c"] heap_empty
              ltac:(lia) heap_empty_wf) as (bm0 & h1 & Hc & Hs & _).
  by exists bm0, h1.
Defined.

(** ** Construction *)

(** The buffer's constructor throws exactly for a capacity that is not
    positive. *)
Lemma buffer_create_throws (n : Z) (h : Heap) :
  (BufferManager.create n h).2
  = if n <=? 0 then Throw (JsError "Buffer size must be positive")
    else Normal {| BufferManager.buffer := next_loc h; BufferManager.maxSize := n;
                   BufferManager.head := 0; BufferManager.size := 0 |}.
Proof. unfold BufferManager.create. simpl. by destruct (n <=? 0). Qed.

(** C9, as stated, fails: with fillers enabled and an empty phrase list both
    orchestrators are constructed, and so is the injector itself. *)
Lemma empty_phrases_accepted :
  is_normal (FlowManager.create no_phrases_manager heap_empty).2 = true
  ∧ is_normal (FlowController.create no_phrases_controller heap_empty).2 = true
  ∧ FillerInjector.phrases (FillerInjector.create [] 3) = []
  ∧ ¬ (∀ c h, FlowManager.enableFillers (FlowManager.resolve c) = true →
              FlowManager.fillerPhrases (FlowManager.resolve c) = [] →
              is_normal (FlowManager.create c h).2 = false).
Proof.
  split_and!; try done.
  intros H. by specialize (H no_phrases_manager heap_empty eq_refl eq_refl).
Qed.

(** C9, amended.  Construction throws exactly when the buffer capacity is
    not positive: [new BufferManager(n)] and [new FlowManager(config)] (whose
    capacity is [config.bufferSize ?? 10]) throw
    [Error('Buffer size must be positive')] when the capacity is [<= 0] and
    succeed otherwise; [new FlowController(config)] and
    [new FillerInjector(phrases, max)] always succeed; the phrase list and
    [enableFillers] play no part. *)
Theorem construction_fails_iff_capacity_not_positive
  (n : Z) (cm : FlowManager.FlowManagerConfig) (cc : FlowController.FlowConfig)
  (h : Heap) :
  (BufferManager.create n h).2
  = (if n <=? 0 then Throw (JsError "Buffer size must be positive")
     else Normal {| BufferManager.buffer := next_loc h; BufferManager.maxSize := n;
                    BufferManager.head := 0; BufferManager.size := 0 |})
  ∧ is_normal (FlowManager.create cm h).2
    = negb (default 10 (FlowManager.cfg_bufferSize cm) <=? 0)
  ∧ ((default 10 (FlowManager.cfg_bufferSize cm) <=? 0) = true ↔
     (FlowManager.create cm h).2 = Throw (JsError "Buffer size must be positive"))
  ∧ is_normal (FlowController.create cc h).2 = true.
Proof.
  split_and!.
  - apply buffer_create_throws.
  - unfold FlowManager.create, BufferManager.create. simpl.
    by destruct (default 10 (FlowManager.cfg_bufferSize cm) <=? 0).
  - unfold FlowManager.create, BufferManager.create. simpl.
    by destruct (default 10 (FlowManager.cfg_bufferSize cm) <=? 0).
  - done.
Qed.

(** ** The stall detector *)

Lemma armed_after_schedule (d : StallDetector.t) (tm : Timers) :
  let r := StallDetector.scheduleStallCheck d tm in
  StallDetector.stallTimer r.1 = Some (next_handle tm)
  ∧ pending r.2 !! next_handle tm = Some (StallDetector.thresholdMs d)
  ∧ StallDetector.armed r.1 r.2 = true
  ∧ StallDetector.lastChunkTime r.1 = StallDetector.lastChunkTime d
  ∧ StallDetector.thresholdMs r.1 = StallDetector.thresholdMs d.
Proof.
  unfold StallDetector.scheduleStallCheck, StallDetector.clearTimer, StallDetector.armed.
  destruct (StallDetector.stallTimer d) as [h|]; simpl;
    rewrite lookup_insert_eq; split_and!; try done;
    by apply bool_decide_eq_true_2.
Qed.

Lemma armed_after_notifyChunk (now : Z) (d : StallDetector.t) (tm : Timers) :
  let r := StallDetector.notifyChunk now d tm in
  pending r.2 !! next_handle tm = Some (StallDetector.thresholdMs d)
  ∧ StallDetector.armed r.1 r.2 = true
  ∧ StallDetector.lastChunkTime r.1 = Some now.
Proof.
  unfold StallDetector.notifyChunk.
  destruct (StallDetector.clearTimer (StallDetector.set_lastChunkTime (Some now) d) tm)
    as [d2 tm2] eqn:Ec.
  assert (next_handle tm2 = next_handle tm
          ∧ StallDetector.thresholdMs d2 = StallDetector.thresholdMs d
          ∧ StallDetector.lastChunkTime d2 = Some now) as (Hn & Ht & Hl).
  { unfold StallDetector.clearTimer in Ec. simpl in Ec.
    destruct (StallDetector.stallTimer d); by simplify_eq. }
  pose proof (armed_after_schedule d2 tm2) as (_ & Hp & Ha & Hl' & _).
  rewrite Hn, Ht in Hp. by rewrite Hl' .
Qed.

Lemma stopped_after_stop (d : StallDetector.t) (tm : Timers) :
  let r := StallDetector.stop d tm in
  StallDetector.stallTimer r.1 = None
  ∧ StallDetector.lastChunkTime r.1 = None
  ∧ StallDetector.armed r.1 r.2 = false
  ∧ (∀ h, StallDetector.stallTimer d = Some h → pending r.2 !! h = None).
Proof.
  unfold StallDetector.stop, StallDetector.clearTimer, StallDetector.armed.
  destruct (StallDetector.stallTimer d) as [h|] eqn:E; simpl; rewrite ?E;
    split_and!; try done.
  intros ? [= <-]. apply lookup_delete_eq.
Qed.

(** C7, as stated, fails: threshold 50, started at time 100, the timer
    fires at time 120.  The callback is not called, and afterwards no timer
    is pending at all: none for the remaining 30, none for anything. *)
Lemma early_fire_leaves_detector_unarmed :
  let '(d', tm', log, c) :=
    StallDetector.fire (call_onStall (λ _, None)) 0%nat 120
      early_detector.1 early_detector.2 [] in
  pending early_detector.2 = {[0%nat := 50]}
  ∧ log = []
  ∧ c = Normal tt
  ∧ pending tm' = ∅
  ∧ StallDetector.armed d' tm' = false.
Proof. vm_compute. split_and!; reflexivity. Qed.

(** C7, amended.  When the detector's timer fires and
    [elapsed = now - lastChunkTime] is below the threshold, the callback is
    not called and the detector does not re-arm: the timer that fired is
    gone, no other is created, and the detector is as it was; it is armed
    again only by the next [notifyChunk()] (or [start()]), for a full
    threshold. *)
Theorem early_fire_does_not_rearm
  (cb : Z → option exn) (d : StallDetector.t) (tm : Timers) (h : nat)
  (now last : Z) (log : list Z) :
  StallDetector.stallTimer d = Some h →
  is_Some (pending tm !! h) →
  StallDetector.lastChunkTime d = Some last →
  now - last < StallDetector.thresholdMs d →
  StallDetector.fire (call_onStall cb) h now d tm log
  = (d, clearTimeout h tm, log, Normal tt)
  ∧ pending (clearTimeout h tm) = delete h (pending tm)
  ∧ StallDetector.armed d (clearTimeout h tm) = false
  ∧ (∀ now', StallDetector.fire (call_onStall cb) h now' d (clearTimeout h tm) log
             = (d, clearTimeout h tm, log, Normal tt))
  ∧ (∀ now',
       let r := StallDetector.notifyChunk now' d (clearTimeout h tm) in
       StallDetector.armed r.1 r.2 = true
       ∧ pending r.2 !! next_handle tm = Some (StallDetector.thresholdMs d)).
Proof.
  intros Ht [delay Hp] Hl Hlt.
  assert (pending (clearTimeout h tm) !! h = None) as Hgone
    by (simpl; apply lookup_delete_eq).
  split_and!.
  - unfold StallDetector.fire, StallDetector.timerCallback. rewrite Hp, Hl.
    by destruct (Z.geb_spec (now - last) (StallDetector.thresholdMs d)); [lia|].
  - done.
  - unfold StallDetector.armed. rewrite Ht, Hgone.
    apply bool_decide_eq_false_2. by intros [? ?].
  - intros now'. unfold StallDetector.fire. by rewrite Hgone.
  - intros now'.
    pose proof (armed_after_notifyChunk now' d (clearTimeout h tm)) as (Hp' & Ha & _).
    by split.
Qed.

Lemma early_fire_does_not_rearm_witness :
  StallDetector.fire (call_onStall (λ _, None)) 0%nat 120
    early_detector.1 early_detector.2 []
  = (early_detector.1, clearTimeout 0%nat early_detector.2, [], Normal tt).
Proof.
  refine (proj1 (early_fire_does_not_rearm (λ _, None) early_detector.1
                   early_detector.2 0%nat 120 100 [] _ _ _ _)).
  - reflexivity.
  - vm_compute. eexists. reflexivity.
  - reflexivity.
  - vm_compute. reflexivity.
Defined.

(** C8, as stated, fails: threshold 50, started at time 100, the timer
    fires at time 150 and the callback throws.  The exception leaves the
    timer callback and no timer is pending afterwards. *)
Lemma throwing_callback_disarms_detector :
  let '(d', tm', log, c) :=
    StallDetector.fire (call_onStall (λ _, Some (UserThrown 0))) 0%nat 150
      early_detector.1 early_detector.2 [] in
  log = [50]
  ∧ c = Throw (UserThrown 0)
  ∧ pending tm' = ∅
  ∧ StallDetector.armed d' tm' = false.
Proof. vm_compute. split_and!; reflexivity. Qed.

(** C8, amended.  When the timer fires with [elapsed >= threshold], the
    callback is called with [elapsed].  If it returns, the detector re-arms
    for another threshold period.  If it throws, the exception leaves the
    timer callback and the detector does not re-arm: the timer that fired is
    gone and no other is created; the detector is armed again only by the
    next [notifyChunk()] (or [start()]). *)
Theorem rearm_only_when_callback_returns
  (cb : Z → option exn) (d : StallDetector.t) (tm : Timers) (h : nat)
  (now last : Z) (log : list Z) :
  StallDetector.stallTimer d = Some h →
  is_Some (pending tm !! h) →
  StallDetector.lastChunkTime d = Some last →
  StallDetector.thresholdMs d ≤ now - last →
  let r := StallDetector.fire (call_onStall cb) h now d tm log in
  r.1.2 = log ++ [now - last]
  ∧ (∀ e, cb (now - last) = Some e →
       r = (d, clearTimeout h tm, log ++ [now - last], Throw e)
       ∧ StallDetector.armed r.1.1.1 r.1.1.2 = false
       ∧ ∀ now',
           let r' := StallDetector.notifyChunk now' d (clearTimeout h tm) in
           StallDetector.armed r'.1 r'.2 = true)
  ∧ (cb (now - last) = None →
       r.2 = Normal tt
       ∧ StallDetector.armed r.1.1.1 r.1.1.2 = true
       ∧ pending r.1.1.2 !! next_handle tm = Some (StallDetector.thresholdMs d)
       ∧ StallDetector.lastChunkTime r.1.1.1 = Some last).
Proof.
  intros Ht [delay Hp] Hl Hge r.
  assert (pending (clearTimeout h tm) !! h = None) as Hgone
    by (simpl; apply lookup_delete_eq).
  subst r. unfold StallDetector.fire, StallDetector.timerCallback. rewrite Hp, Hl.
  destruct (Z.geb_spec (now - last) (StallDetector.thresholdMs d)) as [_|?]; [|lia].
  unfold call_onStall.
  destruct (cb (now - last)) as [e|] eqn:Hcb.
  - split_and!; try done.
    intros e' [= <-]. split_and!; try done.
    + simpl. unfold StallDetector.armed. rewrite Ht. simpl. rewrite lookup_delete_eq.
      apply bool_decide_eq_false_2. by intros [? ?].
    + intros now'. by apply armed_after_notifyChunk.
  - pose proof (armed_after_schedule d (clearTimeout h tm)) as (Hs & Hp' & Ha & Hl' & _).
    destruct (StallDetector.scheduleStallCheck d (clearTimeout h tm)) as [d' tm'].
    simpl in *. split_and!; try done. intros _. split_and!; try done. by rewrite Hl'.
Qed.

Lemma rearm_only_when_callback_returns_witness :
  (StallDetector.fire (call_onStall (λ _, None)) 0%nat 150
     early_detector.1 early_detector.2 []).1.2 = [] ++ [150 - 100].
Proof.
  refine (proj1 (rearm_only_when_callback_returns (λ _, None) early_detector.1
                   early_detector.2 0%nat 150 100 [] _ _ _ _)).
  - reflexivity.
  - vm_compute. eexists. reflexivity.
  - reflexivity.
  - vm_compute. discriminate.
Defined.

(** ** Traces *)

Lemma extends_refl (P : Obs → bool) (tr : list Obs) : extends P tr tr.
Proof. exists []. by rewrite app_nil_r. Qed.

Lemma extends_trans (P : Obs → bool) (tr1 tr2 tr3 : list Obs) :
  extends P tr1 tr2 → extends P tr2 tr3 → extends P tr1 tr3.
Proof.
  intros (s1 & -> & H1) (s2 & -> & H2). exists (s1 ++ s2).
  split; [by rewrite app_assoc|]. by apply Forall_app.
Qed.

Lemma extends_emit (P : Obs → bool) (ls : list FlowEventListener) (ev : FlowEvent)
  (tr : list Obs) :
  (∀ i, P (ListenerCalled i ev) = false) →
  (∀ m e, P (ConsoleError m e) = false) →
  extends P tr (FlowManager.emit_to ls ev tr).
Proof.
  intros Hev Hce. revert tr. induction ls as [|l ls IH]; intros tr.
  - apply extends_refl.
  - cbn [FlowManager.emit_to]. destruct (el_throws l ev).
    + eapply extends_trans; [|apply IH].
      exists [ListenerCalled (el_id l) ev; ConsoleError "Error in FlowManager event listener:" e].
      split; [by rewrite <- app_assoc|]. repeat constructor; auto.
    + eapply extends_trans; [|apply IH].
      exists [ListenerCalled (el_id l) ev]. split; [done|]. repeat constructor; auto.
Qed.

Lemma extends_notify (P : Obs → bool) (ls : list FlowEventListener) (cls : list loc)
  (from to : ConversationState) (tr : list Obs) :
  (∀ i, P (ListenerCalled i (EvStateChange from to)) = false) →
  (∀ m e, P (ConsoleError m e) = false) →
  extends P tr (notify_trace ls cls from to tr).
Proof.
  intros Hev Hce. revert tr. unfold notify_trace.
  induction cls as [|c cls IH]; intros tr; simpl.
  - apply extends_refl.
  - eapply extends_trans; [|apply IH]. by apply extends_emit.
Qed.

Lemma fm_notify_eq (ls : list FlowEventListener) (cls : list loc)
  (from to : ConversationState) (tr : list Obs) :
  StateMachine.notify (FlowManager.state_listener ls) cls from to tr
  = (notify_trace ls cls from to tr, Normal tt).
Proof.
  revert tr. unfold notify_trace. induction cls as [|c cls IH]; intros tr; simpl; [done|].
  by rewrite IH.
Qed.

Arguments StallDetector.stop : simpl never.
Arguments StallDetector.start : simpl never.
Arguments StallDetector.notifyChunk : simpl never.
Arguments StallDetector.fire : simpl never.
Arguments BufferManager.add : simpl never.
Arguments BufferManager.clear : simpl never.
Arguments BufferManager.getAll : simpl never.
Arguments FillerInjector.getFiller : simpl never.
Arguments FillerInjector.reset : simpl never.
Arguments FlowManager.transition : simpl never.
Arguments FlowController.transition : simpl never.
Arguments StateMachine.transition : simpl never.
Arguments StateMachine.onStateChange : simpl never.
Arguments StateMachine.unsubscribe : simpl never.
Arguments notify_trace : simpl never.
Arguments FlowManager.emit_to : simpl never.

Lemma fm_transition_eq (to : ConversationState) (w : FlowManager.World) :
  FlowManager.transition to w
  = if in_table (FlowManager.getState w) to then
      (FlowManager.set_trace
         (notify_trace (FlowManager.listeners (FlowManager.fm w))
            (StateMachine.listeners (FlowManager.stateMachine (FlowManager.fm w)))
            (FlowManager.getState w) to (FlowManager.trace w))
         (FlowManager.set_fm
            (FlowManager.set_stateMachine
               {| StateMachine.currentState := to;
                  StateMachine.listeners :=
                    StateMachine.listeners (FlowManager.stateMachine (FlowManager.fm w)) |}
               (FlowManager.fm w)) w),
       Normal true)
    else (w, Throw (invalid_transition (FlowManager.getState w) to)).
Proof.
  unfold FlowManager.transition, StateMachine.transition, in_table, FlowManager.getState,
    StateMachine.getState.
  destruct (includes _ to); simpl.
  - by rewrite fm_notify_eq.
  - by destruct w as [[] ? ? ?].
Qed.

Lemma onStateChange_state {L} (key : L → nat) (l : L) (m : StateMachine.t L) :
  StateMachine.currentState (StateMachine.onStateChange key l m)
  = StateMachine.currentState m.
Proof. unfold StateMachine.onStateChange. by case_match. Qed.

Lemma unsubscribe_state {L} (key : L → nat) (l : L) (m : StateMachine.t L) :
  StateMachine.currentState (StateMachine.unsubscribe key l m)
  = StateMachine.currentState m.
Proof. done. Qed.

Ltac fm_exec :=
  unfold FlowManager.handleStall, FlowManager.interrupt, FlowManager.processChunk,
    FlowManager.complete, FlowManager.start, FlowManager.reset, FlowManager.on,
    FlowManager.off, FlowManager.filler_reset, FlowManager.filler_get,
    FlowManager.upd_stats, FlowManager.with_buffer, FlowManager.with_detector,
    FlowManager.new_closure, FlowManager.emit, FlowManager.modify, FlowManager.get,
    FlowManager.getState, StateMachine.getState, bind, ret, throw;
  cbn.

Ltac fm_run :=
  fm_exec; repeat (rewrite fm_transition_eq; cbn);
  unfold FlowManager.getState, StateMachine.getState; cbn;
  rewrite ?onStateChange_state, ?unsubscribe_state; cbn.

Ltac fm_world w :=
  let cfg := fresh "cfg" in let st := fresh "st" in let cls := fresh "cls" in
  let det := fresh "det" in let fi := fresh "fi" in let bm := fresh "bm" in
  let ls := fresh "ls" in let first := fresh "first" in let sts := fresh "sts" in
  let t0 := fresh "t0" in let unsub := fresh "unsub" in let tm := fresh "tm" in
  let hp := fresh "hp" in let tr := fresh "tr" in
  destruct w as [[cfg [st cls] det fi bm ls first sts t0 unsub] tm hp tr].

Lemma extends_snoc (P : Obs → bool) (tr : list Obs) (o : Obs) :
  P o = false → extends P tr (tr ++ [o]).
Proof. intros H. exists [o]. split; [done|]. by constructor. Qed.

Ltac extends_tac :=
  repeat first
    [ apply extends_refl
    | (eapply extends_trans; [|apply extends_emit; by intros]; cbn)
    | (eapply extends_trans; [|apply extends_notify; by intros]; cbn)
    | (eapply extends_trans; [|by apply extends_snoc]; cbn) ].

(** [handleStall] returns; it touches the statistics, the injector and the
    trace, and nothing else; it emits no chunk event; and once the first
    chunk has been seen it leaves the injector and [fillersInjected] alone
    and emits no filler. *)
Lemma fm_handleStall_spec (d : Z) (w : FlowManager.World) :
  let w' := (FlowManager.handleStall d w).1 in
  (FlowManager.handleStall d w).2 = Normal tt
  ∧ w' = FlowManager.set_trace (FlowManager.trace w')
           (FlowManager.set_fm
              (FlowManager.set_stats (FlowManager.stats (FlowManager.fm w'))
                 (FlowManager.set_fillerInjector
                    (FlowManager.fillerInjector (FlowManager.fm w'))
                    (FlowManager.fm w))) w)
  ∧ chunksProcessed (FlowManager.stats (FlowManager.fm w'))
    = chunksProcessed (FlowManager.stats (FlowManager.fm w))
  ∧ firstChunkTime (FlowManager.stats (FlowManager.fm w'))
    = firstChunkTime (FlowManager.stats (FlowManager.fm w))
  ∧ stallsDetected (FlowManager.stats (FlowManager.fm w'))
    = stallsDetected (FlowManager.stats (FlowManager.fm w)) + 1
  ∧ extends is_chunk_obs (FlowManager.trace w) (FlowManager.trace w')
  ∧ (FlowManager.firstChunkEmitted (FlowManager.fm w) = true →
       FlowManager.fillerInjector (FlowManager.fm w')
       = FlowManager.fillerInjector (FlowManager.fm w)
       ∧ fillersInjected (FlowManager.stats (FlowManager.fm w'))
         = fillersInjected (FlowManager.stats (FlowManager.fm w))
       ∧ extends is_filler_obs (FlowManager.trace w) (FlowManager.trace w')).
Proof.
  fm_world w. destruct first, st; fm_exec;
    destruct (FlowManager.enableFillers cfg); cbn;
    try destruct (truthy (FillerInjector.getFiller fi).2); cbn.
  all: split_and!; try done; try (intros ?; simplify_eq); try split_and!; try done.
  all: extends_tac.
Qed.

Lemma fm_timerFire_spec (h : nat) (now : Z) (w : FlowManager.World) :
  (FlowManager.timerFire h now w).2 = Normal tt
  ∧ ∃ w1 d' tm',
      (w1 = w ∨ ∃ el, w1 = (FlowManager.handleStall el w).1)
      ∧ (FlowManager.timerFire h now w).1
        = FlowManager.set_timers tm'
            (FlowManager.set_fm
               (FlowManager.set_stallDetector d' (FlowManager.fm w1)) w1)
      ∧ ((d', tm') = (FlowManager.stallDetector (FlowManager.fm w), FlowManager.timers w)
         ∨ (d', tm') = (FlowManager.stallDetector (FlowManager.fm w),
                        clearTimeout h (FlowManager.timers w))
         ∨ (d', tm') = StallDetector.scheduleStallCheck
                         (FlowManager.stallDetector (FlowManager.fm w))
                         (clearTimeout h (FlowManager.timers w))).
Proof.
  unfold FlowManager.timerFire, StallDetector.fire, StallDetector.timerCallback.
  destruct (pending (FlowManager.timers w) !! h) as [delay|]; cbn [fst snd].
  2: { split; [done|]. exists w, (FlowManager.stallDetector (FlowManager.fm w)),
         (FlowManager.timers w). split_and!; auto. }
  destruct (StallDetector.lastChunkTime (FlowManager.stallDetector (FlowManager.fm w)))
    as [last|]; cbn [fst snd].
  2: { split; [done|]. exists w, (FlowManager.stallDetector (FlowManager.fm w)),
         (clearTimeout h (FlowManager.timers w)). split_and!; auto. }
  destruct (now - last >=? _); cbn [fst snd].
  2: { split; [done|]. exists w, (FlowManager.stallDetector (FlowManager.fm w)),
         (clearTimeout h (FlowManager.timers w)). split_and!; auto. }
  pose proof (fm_handleStall_spec (now - last) w) as (Hn & _).
  destruct (FlowManager.handleStall (now - last) w) as [w1 c] eqn:Eh. cbn [snd] in Hn. subst c.
  destruct (StallDetector.scheduleStallCheck _ _) as [d' tm'] eqn:Es. cbn [fst snd].
  split; [done|]. exists w1, d', tm'. split_and!; auto.
  right. exists (now - last). by rewrite Eh.
Qed.

Ltac session_tac :=
  unfold session_step, fm_view, fc_view; cbn; split; intros; simplify_eq;
  first
    [ split_and!; [done | done | extends_tac | first [by left | by right]]
    | left; split; [done | extends_tac]
    | right; split; [done | extends_tac] ].

Lemma fm_step_session (o : FlowManager.Op) (w : FlowManager.World) :
  is_start o = false → session_step (fm_view w) (fm_view (FlowManager.step o w).1).
Proof.
  intros Ho. destruct o as [now|now chunk|now| |l|l|h now]; try done; cbn [FlowManager.step].
  - (* processChunk *)
    fm_world w. destruct first, st, t0; fm_exec; repeat (rewrite fm_transition_eq; cbn);
      session_tac.
  - (* complete *)
    fm_world w. destruct first, st, t0, unsub; fm_exec;
      repeat (rewrite fm_transition_eq; cbn); session_tac.
  - (* interrupt *)
    fm_world w. destruct first, st; fm_exec; repeat (rewrite fm_transition_eq; cbn);
      session_tac.
  - (* on *)
    fm_world w. destruct first; fm_exec; case_match; session_tac.
  - (* off *)
    fm_world w. destruct first; fm_exec; session_tac.
  - (* the timer *)
    destruct (fm_timerFire_spec h now w) as (_ & w1 & d' & tm' & Hw1 & -> & _).
    destruct Hw1 as [->|[el ->]].
    + fm_world w. destruct first; session_tac.
    + pose proof (fm_handleStall_spec el w) as (_ & Hfr & _ & _ & _ & Hc & Hf).
      rewrite Hfr in *. clear Hfr.
      fm_world w. destruct first; cbn in *.
      * destruct (Hf eq_refl) as (Hfi & Hst & Hext).
        unfold session_step, fm_view; cbn. split; intros; simplify_eq. split_and!; auto.
      * unfold session_step, fm_view; cbn. split; intros; simplify_eq. left. by split.
Qed.

Lemma extends_fillers_first_chunk (tr tr' : list Obs) :
  extends is_chunk_obs tr tr' → fillers_first tr tr'.
Proof. intros (seg & -> & H). exists seg, []. by rewrite app_nil_r. Qed.

Lemma extends_fillers_first_filler (tr tr' : list Obs) :
  extends is_filler_obs tr tr' → fillers_first tr tr'.
Proof. intros (seg & -> & H). by exists [], seg. Qed.

Lemma fillers_first_after_chunk_free (tr1 tr2 tr3 : list Obs) :
  extends is_chunk_obs tr1 tr2 → fillers_first tr2 tr3 → fillers_first tr1 tr3.
Proof.
  intros (seg & -> & H) (pre & post & -> & Hpre & Hpost).
  exists (seg ++ pre), post. split; [by rewrite <- !app_assoc|].
  split; [by apply Forall_app|done].
Qed.

Section SessionRuns.
(** Any machine whose allowed operations are session steps. *)
Context {W O : Type}.
Variable view : W → SessionView.
Variable step : O → W → W.
Variable allowed : O → bool.
Hypothesis step_ok :
  ∀ o w, allowed o = true → session_step (view w) (view (step o w)).

(** From a world where the first chunk has been seen: the flag stays,
    [fillersInjected] stays, no filler is emitted. *)
Lemma run_after_first (ops : list O) (w : W) :
  Forall (λ o, allowed o = true) ops →
  sv_first (view w) = true →
  let w' := foldl (λ w o, step o w) w ops in
  sv_first (view w') = true
  ∧ sv_fillers (view w') = sv_fillers (view w)
  ∧ extends is_filler_obs (sv_trace (view w)) (sv_trace (view w')).
Proof using step_ok.
  intros Hops. revert w. induction Hops as [|o ops Ho Hops IH]; intros w Hf; cbn.
  - split_and!; try done. apply extends_refl.
  - destruct (step_ok o w Ho) as [Ht _].
    destruct (Ht Hf) as (Hf1 & Hs1 & He1 & _).
    destruct (IH _ Hf1) as (Hf2 & Hs2 & He2).
    split_and!; [done|congruence|by eapply extends_trans].
Qed.

(** From a world where no chunk has been seen: what is emitted is a
    stretch without chunks followed by a stretch without fillers. *)
Lemma run_before_first (ops : list O) (w : W) :
  Forall (λ o, allowed o = true) ops →
  sv_first (view w) = false →
  fillers_first (sv_trace (view w))
    (sv_trace (view (foldl (λ w o, step o w) w ops))).
Proof using step_ok.
  intros Hops. revert w. induction Hops as [|o ops Ho Hops IH]; intros w Hf; cbn.
  - apply extends_fillers_first_chunk, extends_refl.
  - destruct (step_ok o w Ho) as [_ Hb].
    destruct (Hb Hf) as [[Hf1 He1]|[Hf1 He1]].
    + eapply fillers_first_after_chunk_free; [done|]. by apply IH.
    + destruct (run_after_first ops _ Hops Hf1) as (_ & _ & He2).
      apply extends_fillers_first_filler. by eapply extends_trans.
Qed.
End SessionRuns.

(** ** Reachable worlds of the event-based orchestrator *)

Lemma owned_clearTimeout (d : StallDetector.t) (tm : Timers) (h : nat) :
  timers_owned d tm → timers_owned d (clearTimeout h tm).
Proof.
  intros Ho h' Hp. apply Ho. cbn in Hp.
  destruct (decide (h = h')) as [->|Hne];
    [by rewrite lookup_delete_eq in Hp; destruct Hp|by rewrite lookup_delete_ne in Hp].
Qed.

Lemma owned_clearTimer (d : StallDetector.t) (tm : Timers) :
  timers_owned d tm → pending (StallDetector.clearTimer d tm).2 = ∅.
Proof.
  intros Ho. apply map_eq. intros h. rewrite lookup_empty.
  unfold StallDetector.clearTimer.
  destruct (StallDetector.stallTimer d) as [h0|] eqn:E; cbn.
  - destruct (decide (h0 = h)) as [->|Hne]; [apply lookup_delete_eq|].
    rewrite lookup_delete_ne by done.
    destruct (pending tm !! h) eqn:Ep; [|done].
    specialize (Ho h ltac:(by rewrite Ep)). congruence.
  - destruct (pending tm !! h) eqn:Ep; [|done].
    specialize (Ho h ltac:(by rewrite Ep)). congruence.
Qed.

Lemma owned_schedule (d : StallDetector.t) (tm : Timers) :
  timers_owned d tm →
  timers_owned (StallDetector.scheduleStallCheck d tm).1
    (StallDetector.scheduleStallCheck d tm).2.
Proof.
  intros Ho. pose proof (owned_clearTimer d tm Ho) as He.
  unfold StallDetector.scheduleStallCheck.
  destruct (StallDetector.clearTimer d tm) as [d1 tm1]. cbn in *.
  intros h Hp. cbn in *. rewrite He in Hp.
  destruct (decide (next_handle tm1 = h)) as [->|Hne]; [done|].
  rewrite lookup_insert_ne, lookup_empty in Hp by done. by destruct Hp.
Qed.

Lemma owned_set_last (v : option Z) (d : StallDetector.t) (tm : Timers) :
  timers_owned d tm → timers_owned (StallDetector.set_lastChunkTime v d) tm.
Proof. done. Qed.

Lemma owned_start (now : Z) (d : StallDetector.t) (tm : Timers) :
  timers_owned d tm →
  timers_owned (StallDetector.start now d tm).1 (StallDetector.start now d tm).2.
Proof. intros Ho. unfold StallDetector.start. by apply owned_schedule. Qed.

Lemma owned_notifyChunk (now : Z) (d : StallDetector.t) (tm : Timers) :
  timers_owned d tm →
  timers_owned (StallDetector.notifyChunk now d tm).1
    (StallDetector.notifyChunk now d tm).2.
Proof.
  intros Ho. unfold StallDetector.notifyChunk.
  pose proof (owned_clearTimer _ tm (owned_set_last (Some now) d tm Ho)) as He.
  destruct (StallDetector.clearTimer _ tm) as [d2 tm2]. cbn in He.
  apply owned_schedule. intros h Hp. rewrite He, lookup_empty in Hp. by destruct Hp.
Qed.

Lemma owned_stop (d : StallDetector.t) (tm : Timers) :
  timers_owned d tm →
  pending (StallDetector.stop d tm).2 = ∅
  ∧ timers_owned (StallDetector.stop d tm).1 (StallDetector.stop d tm).2.
Proof.
  intros Ho. pose proof (owned_clearTimer d tm Ho) as He.
  unfold StallDetector.stop. destruct (StallDetector.clearTimer d tm) as [d1 tm1].
  cbn in *. split; [done|]. intros h Hp. rewrite He, lookup_empty in Hp. by destruct Hp.
Qed.

Lemma fm_step_lifecycle (o : FlowManager.Op) (w : FlowManager.World) :
  lifecycle_ok w = true → lifecycle_ok (FlowManager.step o w).1 = true.
Proof.
  unfold lifecycle_ok.
  destruct o as [now|now chunk|now| |l|l|h now]; cbn [FlowManager.step].
  - fm_world w. destruct first, st, t0; try done; by fm_run.
  - fm_world w. destruct first, st, t0; try done; by fm_run.
  - fm_world w. destruct first, st, t0, unsub; try done; by fm_run.
  - fm_world w. destruct first, st, t0; try done; by fm_run.
  - fm_world w. fm_run. by destruct (bool_decide _).
  - fm_world w. by fm_run.
  - destruct (fm_timerFire_spec h now w) as (_ & w1 & d' & tm' & Hw1 & -> & _).
    destruct Hw1 as [->|[el ->]]; [by fm_world w|].
    pose proof (fm_handleStall_spec el w) as (_ & Hfr & _).
    rewrite Hfr. by fm_world w.
Qed.

Lemma fm_step_owned (o : FlowManager.Op) (w : FlowManager.World) :
  timers_owned (FlowManager.stallDetector (FlowManager.fm w)) (FlowManager.timers w) →
  timers_owned (FlowManager.stallDetector (FlowManager.fm (FlowManager.step o w).1))
    (FlowManager.timers (FlowManager.step o w).1).
Proof.
  destruct o as [now|now chunk|now| |l|l|h now]; cbn [FlowManager.step].
  - fm_world w. destruct st, t0; fm_run; try done; apply owned_start.
  - fm_world w. destruct first, st, t0; fm_run; try done; apply owned_notifyChunk.
  - fm_world w. destruct st, t0, unsub; fm_run; try done; intros Ho; by apply owned_stop.
  - fm_world w. destruct st; fm_run; try done; intros Ho; by apply owned_stop.
  - fm_world w. fm_run. by destruct (bool_decide _).
  - fm_world w. by fm_run.
  - destruct (fm_timerFire_spec h now w) as (_ & w1 & d' & tm' & Hw1 & -> & Hd).
    intros Ho. cbn.
    destruct Hd as [[= -> ->]|[[= -> ->]|Hd]]; [done|by apply owned_clearTimeout|].
    pose proof (owned_schedule _ _ (owned_clearTimeout _ _ h Ho)) as Hs.
    by rewrite <- Hd in Hs.
Qed.

Lemma fm_run_inv (ops : list FlowManager.Op) (w : FlowManager.World) :
  fm_inv w → fm_inv (FlowManager.run ops w).
Proof.
  revert w. induction ops as [|o ops IH]; intros w [Hl Ho]; cbn; [done|].
  apply IH. split; [by apply fm_step_lifecycle|by apply fm_step_owned].
Qed.

Lemma fm_init_inv (c : FlowManager.FlowManagerConfig) (h h' : Heap) (m : FlowManager.t) :
  FlowManager.create c h = (h', Normal m) → fm_inv (FlowManager.init m h').
Proof.
  unfold FlowManager.create. destruct (BufferManager.create _ h) as [h1 [bm|e]];
    intros [= <- <-]. split; [done|]. intros k Hk. cbn in Hk.
  rewrite lookup_empty in Hk. by destruct Hk.
Qed.

(** ** The stream-wrapping orchestrator *)

Lemma no_listeners (l : list Empty_set) : l = [].
Proof. by destruct l as [|[] ?]. Qed.

Lemma fc_transition_eq (to : ConversationState) (w : FlowController.World) :
  FlowController.transition to w
  = if in_table (FlowController.getState w) to then
      (FlowController.set_fc
         (FlowController.set_stateMachine
            {| StateMachine.currentState := to;
               StateMachine.listeners :=
                 StateMachine.listeners
                   (FlowController.stateMachine (FlowController.fc w)) |}
            (FlowController.fc w)) w,
       Normal true)
    else (w, Throw (invalid_transition (FlowController.getState w) to)).
Proof.
  unfold FlowController.transition, StateMachine.transition, in_table,
    FlowController.getState, StateMachine.getState.
  destruct w as [[? [st cls] ? ? ? ? ? ?] ? ? ?]. cbn.
  rewrite (no_listeners cls). by destruct (includes _ to).
Qed.

Ltac fc_exec :=
  unfold FlowController.wrap_chunk, FlowController.wrap_end,
    FlowController.wrap_input_error, FlowController.wrap_return,
    FlowController.wrap_enter, FlowController.loop_body, FlowController.after_loop,
    FlowController.finally_block, FlowController.resumed_of,
    FlowController.handleStall, FlowController.interrupt, FlowController.reset,
    FlowController.filler_reset, FlowController.filler_get, FlowController.upd_stats,
    FlowController.with_buffer, FlowController.with_detector, FlowController.callback,
    FlowController.modify, FlowController.get, FlowController.getState,
    StateMachine.getState, try_finally, try_rethrow, bind, ret, throw;
  cbn.

Ltac fc_run :=
  fc_exec; repeat (rewrite fc_transition_eq; cbn);
  unfold FlowController.getState, StateMachine.getState; cbn.

Ltac fc_world w :=
  let cfg := fresh "cfg" in let st := fresh "st" in let cls := fresh "cls" in
  let det := fresh "det" in let fi := fresh "fi" in let bm := fresh "bm" in
  let first := fresh "first" in let sts := fresh "sts" in
  let t0 := fresh "t0" in let tm := fresh "tm" in
  let hp := fresh "hp" in let tr := fresh "tr" in
  destruct w as [[cfg [st cls] det fi bm first sts t0] tm hp tr].

(** The controller's [handleStall]: it touches the statistics, the injector
    and the trace, and nothing else; it calls no chunk callback; and once the
    first chunk has been seen it leaves the injector and [fillersInjected]
    alone and calls no filler callback. *)
Lemma fc_handleStall_spec (d : Z) (w : FlowController.World) :
  let w' := (FlowController.handleStall d w).1 in
  w' = FlowController.set_trace (FlowController.trace w')
         (FlowController.set_fc
            (FlowController.set_stats (FlowController.stats (FlowController.fc w'))
               (FlowController.set_fillerInjector
                  (FlowController.fillerInjector (FlowController.fc w'))
                  (FlowController.fc w))) w)
  ∧ chunksProcessed (FlowController.stats (FlowController.fc w'))
    = chunksProcessed (FlowController.stats (FlowController.fc w))
  ∧ firstChunkTime (FlowController.stats (FlowController.fc w'))
    = firstChunkTime (FlowController.stats (FlowController.fc w))
  ∧ extends is_chunk_obs (FlowController.trace w) (FlowController.trace w')
  ∧ (FlowController.firstChunkEmitted (FlowController.fc w) = true →
       FlowController.fillerInjector (FlowController.fc w')
       = FlowController.fillerInjector (FlowController.fc w)
       ∧ fillersInjected (FlowController.stats (FlowController.fc w'))
         = fillersInjected (FlowController.stats (FlowController.fc w))
       ∧ extends is_filler_obs (FlowController.trace w) (FlowController.trace w')).
Proof.
  fc_world w. destruct cfg as [thr phr en mx cb1 cb2 cb3].
  destruct first, st, en; fc_exec;
    try destruct (truthy (FillerInjector.getFiller fi).2); cbn;
    try destruct (cb1 _); cbn; try destruct (cb2 _); cbn.
  all: split_and!; try done; try (intros ?; simplify_eq); try split_and!; try done.
  all: extends_tac.
Qed.

Lemma fc_timerFire_spec (h : nat) (now : Z) (w : FlowController.World) :
  ∃ w1 d' tm',
    (w1 = w ∨ ∃ el, w1 = (FlowController.handleStall el w).1)
    ∧ (FlowController.timerFire h now w).1
      = FlowController.set_timers tm'
          (FlowController.set_fc
             (FlowController.set_stallDetector d' (FlowController.fc w1)) w1).
Proof.
  unfold FlowController.timerFire, StallDetector.fire, StallDetector.timerCallback.
  destruct (pending (FlowController.timers w) !! h) as [delay|]; cbn [fst snd];
    [|by eauto 10].
  destruct (StallDetector.lastChunkTime _) as [last|]; cbn [fst snd]; [|by eauto 10].
  destruct (now - last >=? _); cbn [fst snd]; [|by eauto 10].
  destruct (FlowController.handleStall (now - last) w) as [w1 [u|e]] eqn:Eh.
  - destruct (StallDetector.scheduleStallCheck _ _) as [d' tm'] eqn:Es. cbn [fst snd].
    exists w1, d', tm'. split; [|done]. right. exists (now - last). by rewrite Eh.
  - cbn [fst snd]. do 3 eexists. split; [|done]. right. exists (now - last).
    by rewrite Eh.
Qed.

Lemma session_step_refl (v : SessionView) : session_step v v.
Proof.
  split; intros H.
  - split_and!; auto. apply extends_refl.
  - left. split; [done|]. apply extends_refl.
Qed.

Lemma fc_step_session (o : FlowController.Op) (it : FlowController.Iteration) :
  session_step (fc_view (FlowController.world it))
    (fc_view (FlowController.world (FlowController.step o it))).
Proof.
  destruct it as [w rn yl rs].
  destruct o as [now chunk|now|now e|now| |h now]; cbn [FlowController.step];
    try (destruct rn; [|apply session_step_refl]);
    unfold FlowController.resume, FlowController.on_world; cbn [FlowController.world
      FlowController.running FlowController.yielded FlowController.raised].
  - (* a chunk *)
    fc_world w. destruct cfg as [thr phr en mx cb1 cb2 cb3].
    destruct first, st, cb3; fc_run; session_tac.
  - (* end of input *)
    fc_world w. destruct first, st; fc_run; session_tac.
  - (* the input throws *)
    fc_world w. destruct first; fc_run; session_tac.
  - (* return() *)
    fc_world w. destruct first; fc_run; session_tac.
  - (* interrupt *)
    fc_world w. destruct first, st; fc_run; session_tac.
  - (* the timer *)
    destruct (fc_timerFire_spec h now w) as (w1 & d' & tm' & Hw1 & ->).
    destruct Hw1 as [->|[el ->]].
    + fc_world w. destruct first; session_tac.
    + pose proof (fc_handleStall_spec el w) as (Hfr & _ & _ & Hc & Hf).
      rewrite Hfr in *. clear Hfr.
      fc_world w. destruct first; cbn in *.
      * destruct (Hf eq_refl) as (Hfi & Hst & Hext).
        unfold session_step, fc_view; cbn. split; intros; simplify_eq. split_and!; auto.
      * unfold session_step, fc_view; cbn. split; intros; simplify_eq. left. by split.
Qed.

(** ** The claims about the orchestrators *)

Lemma reachable_inv (w : FlowManager.World) : reachable w → fm_inv w.
Proof.
  intros (c & h & h0 & m & ops & Hc & ->). apply fm_run_inv. by eapply fm_init_inv.
Qed.

Lemma snapshot_after_clear (bm : BufferManager.t) (h : Heap) :
  BufferManager.snapshot (BufferManager.clear bm h).1 (BufferManager.clear bm h).2 = [].
Proof.
  unfold BufferManager.snapshot, BufferManager.getAll, BufferManager.clear. cbn.
  destruct (0 <? BufferManager.maxSize bm); cbn; unfold read; cbn;
    rewrite lookup_insert_eq; cbn; rewrite ?lookup_insert_eq; done.
Qed.

Lemma fm_world_eta (w : FlowManager.World) :
  FlowManager.set_timers (FlowManager.timers w)
    (FlowManager.set_fm
       (FlowManager.set_stallDetector (FlowManager.stallDetector (FlowManager.fm w))
          (FlowManager.fm w)) w) = w.
Proof. by fm_world w. Qed.

Lemma fm_timerFire_idle (h : nat) (now : Z) (w : FlowManager.World) :
  pending (FlowManager.timers w) = ∅ →
  FlowManager.timerFire h now w = (w, Normal tt).
Proof.
  intros Hp. unfold FlowManager.timerFire, StallDetector.fire.
  rewrite Hp, lookup_empty. cbn [fst snd]. by rewrite fm_world_eta.
Qed.

(** [interrupt()] of the event form, on a world with a session. *)
Lemma fm_interrupt_active (w : FlowManager.World) :
  timers_owned (FlowManager.stallDetector (FlowManager.fm w)) (FlowManager.timers w) →
  is_Some (FlowManager.startTime (FlowManager.fm w)) →
  FlowManager.getState w = SPEAKING ∨ FlowManager.getState w = WAITING →
  let w' := (FlowManager.interrupt w).1 in
  (FlowManager.interrupt w).2 = Normal tt
  ∧ FlowManager.getState w' = INTERRUPTED
  ∧ StallDetector.lastChunkTime (FlowManager.stallDetector (FlowManager.fm w')) = None
  ∧ StallDetector.stallTimer (FlowManager.stallDetector (FlowManager.fm w')) = None
  ∧ pending (FlowManager.timers w') = ∅
  ∧ FlowManager.fillerInjector (FlowManager.fm w')
    = FillerInjector.reset (FlowManager.fillerInjector (FlowManager.fm w))
  ∧ FlowManager.bufferedChunks w' = []
  ∧ FlowManager.startTime (FlowManager.fm w') = FlowManager.startTime (FlowManager.fm w)
  ∧ (∀ now chunk, FlowManager.processChunk now chunk w' = (w', Normal tt))
  ∧ (∀ now,
       (FlowManager.complete now w').2 = Normal tt
       ∧ FlowManager.getState (FlowManager.complete now w').1 = INTERRUPTED
       ∧ FlowManager.startTime (FlowManager.fm (FlowManager.complete now w').1) = None).
Proof.
  intros Ho [t Ht] Hs. fm_world w. cbn in Ht, Ho. subst t0.
  unfold FlowManager.getState, StateMachine.getState in Hs. cbn in Hs.
  pose proof (stopped_after_stop det tm) as (Hst & Hl & _).
  pose proof (owned_stop det tm Ho) as [He _].
  destruct Hs as [-> | ->]; fm_run; unfold FlowManager.bufferedChunks; cbn.
  all: split_and!; try done; try apply snapshot_after_clear.
  all: intros now; destruct unsub; fm_run; done.
Qed.

Lemma fm_interrupt_noop (w : FlowManager.World) :
  FlowManager.getState w ≠ SPEAKING →
  FlowManager.getState w ≠ WAITING →
  FlowManager.interrupt w = (w, Normal tt).
Proof. fm_world w. destruct st; fm_run; done. Qed.

Lemma fc_interrupt_noop (w : FlowController.World) :
  FlowController.getState w ≠ SPEAKING →
  FlowController.getState w ≠ WAITING →
  FlowController.interrupt w = (w, Normal tt).
Proof. fc_world w. destruct st; fc_run; done. Qed.

(** [interrupt()] of the stream form, in [SPEAKING] or [WAITING]. *)
Lemma fc_interrupt_active (w : FlowController.World) :
  FlowController.getState w = SPEAKING ∨ FlowController.getState w = WAITING →
  let w' := (FlowController.interrupt w).1 in
  (FlowController.interrupt w).2 = Normal tt
  ∧ FlowController.getState w' = INTERRUPTED
  ∧ StallDetector.lastChunkTime (FlowController.stallDetector (FlowController.fc w'))
    = None
  ∧ StallDetector.stallTimer (FlowController.stallDetector (FlowController.fc w'))
    = None
  ∧ StallDetector.armed (FlowController.stallDetector (FlowController.fc w'))
      (FlowController.timers w') = false
  ∧ FlowController.fillerInjector (FlowController.fc w')
    = FillerInjector.reset (FlowController.fillerInjector (FlowController.fc w))
  ∧ FlowController.bufferedChunks w' = [].
Proof.
  intros Hs. fc_world w.
  unfold FlowController.getState, StateMachine.getState in Hs. cbn in Hs.
  pose proof (stopped_after_stop det tm) as (Hst & Hl & Ha & _).
  destruct Hs as [-> | ->]; fc_run; unfold FlowController.bufferedChunks; cbn.
  all: split_and!; try done; apply snapshot_after_clear.
Qed.

(** A chunk that arrives while the state is [INTERRUPTED] ends the iteration:
    nothing is yielded, nothing is counted or buffered, no callback runs. *)
Lemma fc_chunk_after_interrupt (now : Z) (chunk : string)
  (it : FlowController.Iteration) :
  FlowController.getState (FlowController.world it) = INTERRUPTED →
  let it' := FlowController.step (FlowController.OpChunk now chunk) it in
  FlowController.running it' = false
  ∧ FlowController.yielded it' = FlowController.yielded it
  ∧ FlowController.raised it' = FlowController.raised it
  ∧ FlowController.getState (FlowController.world it') = INTERRUPTED
  ∧ FlowController.trace (FlowController.world it')
    = FlowController.trace (FlowController.world it)
  ∧ chunksProcessed (FlowController.stats (FlowController.fc (FlowController.world it')))
    = chunksProcessed (FlowController.stats (FlowController.fc (FlowController.world it)))
  ∧ FlowController.bufferedChunks (FlowController.world it')
    = FlowController.bufferedChunks (FlowController.world it).
Proof.
  destruct it as [w rn yl rs]. cbn [FlowController.world]. intros Hs. fc_world w.
  unfold FlowController.getState, StateMachine.getState in Hs. cbn in Hs. subst st.
  destruct rn; cbn [FlowController.step FlowController.running]; [|done].
  unfold FlowController.resume. fc_run. done.
Qed.

(** The end of the input while the state is [INTERRUPTED]: the state
    stays. *)
Lemma fc_end_after_interrupt (now : Z) (it : FlowController.Iteration) :
  FlowController.getState (FlowController.world it) = INTERRUPTED →
  let it' := FlowController.step (FlowController.OpEnd now) it in
  FlowController.running it' = false
  ∧ FlowController.yielded it' = FlowController.yielded it
  ∧ FlowController.getState (FlowController.world it') = INTERRUPTED.
Proof.
  destruct it as [w rn yl rs]. cbn [FlowController.world]. intros Hs. fc_world w.
  unfold FlowController.getState, StateMachine.getState in Hs. cbn in Hs. subst st.
  destruct rn; cbn [FlowController.step FlowController.running]; [|done].
  unfold FlowController.resume. fc_run. done.
Qed.

(** C3.  [interrupt()] changes nothing unless the state is [SPEAKING] or
    [WAITING].  In these two states it returns with the state
    [INTERRUPTED], the detector stopped (no last-activity time, no timer),
    the injector reset and the buffer empty.  In the event form (on any
    world reachable from construction) a later [processChunk] returns
    without any effect, no timer can fire any more, and a later
    [complete()] returns with the state still [INTERRUPTED].  In the stream
    form a chunk that arrives afterwards ends the iteration without being
    yielded, counted or buffered, and the end of the input leaves the state
    [INTERRUPTED]. *)
Theorem interrupt_clears_and_stops :
  (∀ w : FlowManager.World,
     reachable w →
     (FlowManager.getState w ≠ SPEAKING → FlowManager.getState w ≠ WAITING →
      FlowManager.interrupt w = (w, Normal tt))
     ∧ (FlowManager.getState w = SPEAKING ∨ FlowManager.getState w = WAITING →
        let w' := (FlowManager.interrupt w).1 in
        (FlowManager.interrupt w).2 = Normal tt
        ∧ FlowManager.getState w' = INTERRUPTED
        ∧ StallDetector.lastChunkTime (FlowManager.stallDetector (FlowManager.fm w'))
          = None
        ∧ StallDetector.stallTimer (FlowManager.stallDetector (FlowManager.fm w')) = None
        ∧ pending (FlowManager.timers w') = ∅
        ∧ FlowManager.fillerInjector (FlowManager.fm w')
          = FillerInjector.reset (FlowManager.fillerInjector (FlowManager.fm w))
        ∧ FlowManager.bufferedChunks w' = []
        ∧ (∀ now chunk, FlowManager.processChunk now chunk w' = (w', Normal tt))
        ∧ (∀ h now, FlowManager.timerFire h now w' = (w', Normal tt))
        ∧ (∀ now,
             (FlowManager.complete now w').2 = Normal tt
             ∧ FlowManager.getState (FlowManager.complete now w').1 = INTERRUPTED)))
  ∧ (∀ w : FlowController.World,
       (FlowController.getState w ≠ SPEAKING → FlowController.getState w ≠ WAITING →
        FlowController.interrupt w = (w, Normal tt))
       ∧ (FlowController.getState w = SPEAKING ∨ FlowController.getState w = WAITING →
          let w' := (FlowController.interrupt w).1 in
          (FlowController.interrupt w).2 = Normal tt
          ∧ FlowController.getState w' = INTERRUPTED
          ∧ StallDetector.lastChunkTime
              (FlowController.stallDetector (FlowController.fc w')) = None
          ∧ StallDetector.armed (FlowController.stallDetector (FlowController.fc w'))
              (FlowController.timers w') = false
          ∧ FlowController.fillerInjector (FlowController.fc w')
            = FillerInjector.reset (FlowController.fillerInjector (FlowController.fc w))
          ∧ FlowController.bufferedChunks w' = []))
  ∧ (∀ (it : FlowController.Iteration) now chunk,
       FlowController.getState (FlowController.world it) = INTERRUPTED →
       let it' := FlowController.step (FlowController.OpChunk now chunk) it in
       FlowController.running it' = false
       ∧ FlowController.yielded it' = FlowController.yielded it
       ∧ FlowController.getState (FlowController.world it') = INTERRUPTED
       ∧ FlowController.trace (FlowController.world it')
         = FlowController.trace (FlowController.world it)
       ∧ FlowController.bufferedChunks (FlowController.world it')
         = FlowController.bufferedChunks (FlowController.world it))
  ∧ (∀ (it : FlowController.Iteration) now,
       FlowController.getState (FlowController.world it) = INTERRUPTED →
       FlowController.getState
         (FlowController.world (FlowController.step (FlowController.OpEnd now) it))
       = INTERRUPTED).
Proof.
  split_and!.
  - intros w Hr. destruct (reachable_inv w Hr) as [Hl Ho].
    split; [apply fm_interrupt_noop|]. intros Hs.
    assert (is_Some (FlowManager.startTime (FlowManager.fm w))) as Hst.
    { unfold lifecycle_ok in Hl.
      destruct (FlowManager.startTime (FlowManager.fm w)); [done|].
      by destruct Hs as [Hs|Hs]; rewrite Hs in Hl. }
    pose proof (fm_interrupt_active w Ho Hst Hs)
      as (H1 & H2 & H3 & H4 & H5 & H6 & H7 & _ & H8 & H9).
    cbv zeta. split_and!; try done.
    + intros h now. by apply fm_timerFire_idle.
    + intros now. by destruct (H9 now) as (? & ? & _).
  - intros w. split; [apply fc_interrupt_noop|]. intros Hs.
    pose proof (fc_interrupt_active w Hs) as (H1 & H2 & H3 & H4 & H5 & H6 & H7).
    cbv zeta. by split_and!.
  - intros it now chunk Hs.
    pose proof (fc_chunk_after_interrupt now chunk it Hs) as (H1 & H2 & H3 & H4 & H5 & H6 & H7).
    cbv zeta. by split_and!.
  - intros it now Hs. by apply fc_end_after_interrupt.
Qed.

Lemma fm_start_active (now : Z) (w : FlowManager.World) :
  is_Some (FlowManager.startTime (FlowManager.fm w)) →
  FlowManager.start now w = (w, Throw already_started).
Proof. intros [t Ht]. fm_world w. cbn in Ht. subst. by fm_run. Qed.

Lemma fm_start_idle (now : Z) (w : FlowManager.World) :
  lifecycle_ok w = true →
  FlowManager.startTime (FlowManager.fm w) = None →
  (FlowManager.start now w).2 = Normal tt
  ∧ FlowManager.startTime (FlowManager.fm (FlowManager.start now w).1) = Some now
  ∧ FlowManager.getState (FlowManager.start now w).1 = WAITING
  ∧ FlowManager.firstChunkEmitted (FlowManager.fm (FlowManager.start now w).1) = false.
Proof.
  unfold lifecycle_ok. fm_world w. intros Hl Ht. cbn in Ht. subst.
  destruct st; try done; by fm_run.
Qed.

Lemma fm_complete_active (now : Z) (w : FlowManager.World) :
  lifecycle_ok w = true →
  is_Some (FlowManager.startTime (FlowManager.fm w)) →
  (FlowManager.complete now w).2 = Normal tt
  ∧ FlowManager.startTime (FlowManager.fm (FlowManager.complete now w).1) = None
  ∧ FlowManager.getState (FlowManager.complete now w).1
    = (if state_eqb (FlowManager.getState w) INTERRUPTED then INTERRUPTED else IDLE).
Proof.
  unfold lifecycle_ok. fm_world w. intros Hl [t Ht]. cbn in Ht. subst.
  destruct st, unsub; try done; by fm_run.
Qed.

Lemma fm_interrupt_startTime (w : FlowManager.World) :
  FlowManager.startTime (FlowManager.fm (FlowManager.interrupt w).1)
  = FlowManager.startTime (FlowManager.fm w).
Proof. fm_world w. destruct st; by fm_run. Qed.

(** Only [complete()] ends a session. *)
Lemma fm_step_keeps_session (o : FlowManager.Op) (w : FlowManager.World) :
  is_Some (FlowManager.startTime (FlowManager.fm w)) →
  FlowManager.startTime (FlowManager.fm (FlowManager.step o w).1) = None →
  ∃ now, o = FlowManager.OpComplete now.
Proof.
  intros [t Ht].
  destruct o as [now|now chunk|now| |l|l|h now]; cbn [FlowManager.step]; [..|].
  3: by eauto.
  - fm_world w. cbn in Ht. subst. by fm_run.
  - fm_world w. cbn in Ht. subst. destruct first, st; by fm_run.
  - by rewrite fm_interrupt_startTime, Ht.
  - fm_world w. cbn in Ht. subst. fm_run. by destruct (bool_decide _).
  - fm_world w. cbn in Ht. subst. by fm_run.
  - destruct (fm_timerFire_spec h now w) as (_ & w1 & d' & tm' & Hw1 & -> & _).
    destruct Hw1 as [->|[el ->]]; [fm_world w; cbn in *; by subst|].
    pose proof (fm_handleStall_spec el w) as (_ & Hfr & _).
    rewrite Hfr. fm_world w. cbn in *. by subst.
Qed.

(** C10.  On a manager reached from construction by any operations: while a
    session is active [start()] throws "already started" and changes
    nothing; [interrupt()] leaves the session marker as it is, and of all
    operations only [complete()] clears it; without a session [start()]
    succeeds; with one [complete()] succeeds, from [INTERRUPTED] too, where
    the state stays [INTERRUPTED].  So after [start()] and [interrupt()] a
    second [start()] throws, and after a [complete()] it succeeds. *)
Theorem restart_needs_complete (w : FlowManager.World) :
  reachable w →
  (is_Some (FlowManager.startTime (FlowManager.fm w)) →
     ∀ now, FlowManager.start now w = (w, Throw already_started))
  ∧ FlowManager.startTime (FlowManager.fm (FlowManager.interrupt w).1)
    = FlowManager.startTime (FlowManager.fm w)
  ∧ (is_Some (FlowManager.startTime (FlowManager.fm w)) →
     ∀ o, FlowManager.startTime (FlowManager.fm (FlowManager.step o w).1) = None →
          ∃ now, o = FlowManager.OpComplete now)
  ∧ (FlowManager.startTime (FlowManager.fm w) = None →
     ∀ now, (FlowManager.start now w).2 = Normal tt
            ∧ FlowManager.startTime (FlowManager.fm (FlowManager.start now w).1)
              = Some now)
  ∧ (is_Some (FlowManager.startTime (FlowManager.fm w)) →
     ∀ now, (FlowManager.complete now w).2 = Normal tt
            ∧ FlowManager.startTime (FlowManager.fm (FlowManager.complete now w).1)
              = None)
  ∧ (FlowManager.startTime (FlowManager.fm w) = None →
     ∀ t1 t2 t3 t4,
       let w1 := (FlowManager.start t1 w).1 in
       let w2 := (FlowManager.interrupt w1).1 in
       let w3 := (FlowManager.complete t3 w2).1 in
       FlowManager.getState w2 = INTERRUPTED
       ∧ FlowManager.start t2 w2 = (w2, Throw already_started)
       ∧ (FlowManager.complete t3 w2).2 = Normal tt
       ∧ FlowManager.getState w3 = INTERRUPTED
       ∧ (FlowManager.start t4 w3).2 = Normal tt
       ∧ FlowManager.getState (FlowManager.start t4 w3).1 = WAITING).
Proof.
  intros Hr. destruct (reachable_inv w Hr) as [Hl Ho]. split_and!.
  - intros Hs now. by apply fm_start_active.
  - apply fm_interrupt_startTime.
  - intros Hs o. by apply fm_step_keeps_session.
  - intros Hs now. by destruct (fm_start_idle now w Hl Hs) as (? & ? & _).
  - intros Hs now. by destruct (fm_complete_active now w Hl Hs) as (? & ? & _).
  - intros Hs t1 t2 t3 t4 w1 w2 w3.
    destruct (fm_start_idle t1 w Hl Hs) as (_ & Ht1 & Hw1 & _).
    pose proof (fm_step_lifecycle (FlowManager.OpStart t1) w Hl) as Hl1.
    pose proof (fm_step_owned (FlowManager.OpStart t1) w Ho) as Ho1.
    cbn [FlowManager.step] in Hl1, Ho1. fold w1 in Ht1, Hw1, Hl1, Ho1.
    assert (is_Some (FlowManager.startTime (FlowManager.fm w1))) as Hs1
      by (by rewrite Ht1).
    pose proof (fm_interrupt_active w1 Ho1 Hs1 (or_intror Hw1))
      as (_ & Hw2 & _ & _ & _ & _ & _ & Ht2 & _ & Hc).
    fold w2 in Hw2, Ht2, Hc.
    assert (is_Some (FlowManager.startTime (FlowManager.fm w2))) as Hs2
      by (by rewrite Ht2).
    destruct (Hc t3) as (Hc1 & Hc2 & Hc3). fold w3 in Hc2, Hc3.
    pose proof (fm_step_lifecycle FlowManager.OpInterrupt w1 Hl1) as Hl2.
    pose proof (fm_step_lifecycle (FlowManager.OpComplete t3) _ Hl2) as Hl3.
    cbn [FlowManager.step] in Hl2, Hl3. fold w2 in Hl3. fold w3 in Hl3.
    destruct (fm_start_idle t4 w3 Hl3 Hc3) as (Hn & _ & Hw & _).
    split_and!; try done. by apply fm_start_active.
Qed.

Lemma fresh_manager_reachable : reachable fresh_manager.
Proof.
  exists FlowManager.no_config, heap_empty, (alloc [] heap_empty).2,
    (FlowManager.fm fresh_manager), []. split; reflexivity.
Defined.

Lemma restart_needs_complete_witness :
  let w1 := (FlowManager.start 0 fresh_manager).1 in
  let w2 := (FlowManager.interrupt w1).1 in
  FlowManager.start 10 w2 = (w2, Throw already_started).
Proof.
  pose proof (restart_needs_complete fresh_manager fresh_manager_reachable)
    as (_ & _ & _ & _ & _ & H).
  exact (proj1 (proj2 (H eq_refl 0 10 20 30))).
Defined.

(** C2.  In either orchestrator, for any operations of one session (chunks,
    timer firings, interruptions, completion, in any order): from the moment
    [firstChunkEmitted] is set it stays set, [fillersInjected] does not
    change and no filler is emitted, whatever the silence; and from a point
    where no chunk has been seen, everything emitted is a stretch without
    chunk events followed by a stretch without fillers, so every filler
    comes before the first chunk.  A stall callback never touches the
    buffer, the heap, [firstChunkEmitted], [chunksProcessed] or
    [firstChunkTime]; once [firstChunkEmitted] is set it does not call the
    injector either. *)
Theorem no_filler_after_first_chunk :
  (∀ (w : FlowManager.World) (ops : list FlowManager.Op),
     Forall (λ o, is_start o = false) ops →
     let w' := FlowManager.run ops w in
     (FlowManager.firstChunkEmitted (FlowManager.fm w) = true →
        FlowManager.firstChunkEmitted (FlowManager.fm w') = true
        ∧ fillersInjected (FlowManager.stats (FlowManager.fm w'))
          = fillersInjected (FlowManager.stats (FlowManager.fm w))
        ∧ extends is_filler_obs (FlowManager.trace w) (FlowManager.trace w'))
     ∧ (FlowManager.firstChunkEmitted (FlowManager.fm w) = false →
        fillers_first (FlowManager.trace w) (FlowManager.trace w')))
  ∧ (∀ (w : FlowManager.World) (d : Z),
       let w' := (FlowManager.handleStall d w).1 in
       FlowManager.bufferManager (FlowManager.fm w')
       = FlowManager.bufferManager (FlowManager.fm w)
       ∧ FlowManager.heap w' = FlowManager.heap w
       ∧ FlowManager.firstChunkEmitted (FlowManager.fm w')
         = FlowManager.firstChunkEmitted (FlowManager.fm w)
       ∧ chunksProcessed (FlowManager.stats (FlowManager.fm w'))
         = chunksProcessed (FlowManager.stats (FlowManager.fm w))
       ∧ firstChunkTime (FlowManager.stats (FlowManager.fm w'))
         = firstChunkTime (FlowManager.stats (FlowManager.fm w))
       ∧ (FlowManager.firstChunkEmitted (FlowManager.fm w) = true →
          FlowManager.fillerInjector (FlowManager.fm w')
          = FlowManager.fillerInjector (FlowManager.fm w)
          ∧ fillersInjected (FlowManager.stats (FlowManager.fm w'))
            = fillersInjected (FlowManager.stats (FlowManager.fm w))
          ∧ extends is_filler_obs (FlowManager.trace w) (FlowManager.trace w')))
  ∧ (∀ (it : FlowController.Iteration) (ops : list FlowController.Op),
       let w := FlowController.world it in
       let w' := FlowController.world (FlowController.run ops it) in
       (FlowController.firstChunkEmitted (FlowController.fc w) = true →
          FlowController.firstChunkEmitted (FlowController.fc w') = true
          ∧ fillersInjected (FlowController.stats (FlowController.fc w'))
            = fillersInjected (FlowController.stats (FlowController.fc w))
          ∧ extends is_filler_obs (FlowController.trace w) (FlowController.trace w'))
       ∧ (FlowController.firstChunkEmitted (FlowController.fc w) = false →
          fillers_first (FlowController.trace w) (FlowController.trace w')))
  ∧ (∀ (w : FlowController.World) (d : Z),
       let w' := (FlowController.handleStall d w).1 in
       FlowController.bufferManager (FlowController.fc w')
       = FlowController.bufferManager (FlowController.fc w)
       ∧ FlowController.heap w' = FlowController.heap w
       ∧ FlowController.firstChunkEmitted (FlowController.fc w')
         = FlowController.firstChunkEmitted (FlowController.fc w)
       ∧ chunksProcessed (FlowController.stats (FlowController.fc w'))
         = chunksProcessed (FlowController.stats (FlowController.fc w))
       ∧ firstChunkTime (FlowController.stats (FlowController.fc w'))
         = firstChunkTime (FlowController.stats (FlowController.fc w))
       ∧ (FlowController.firstChunkEmitted (FlowController.fc w) = true →
          FlowController.fillerInjector (FlowController.fc w')
          = FlowController.fillerInjector (FlowController.fc w)
          ∧ fillersInjected (FlowController.stats (FlowController.fc w'))
            = fillersInjected (FlowController.stats (FlowController.fc w))
          ∧ extends is_filler_obs (FlowController.trace w) (FlowController.trace w'))).
Proof.
  split_and!.
  - intros w ops Hops w'. subst w'. unfold FlowManager.run. split; intros Hf.
    + apply (run_after_first fm_view (λ o w, (FlowManager.step o w).1)
               (λ o, negb (is_start o))); [| |done].
      * intros o w0 Ho. apply fm_step_session. by destruct (is_start o).
      * eapply Forall_impl; [done|]. by intros o ->.
    + apply (run_before_first fm_view (λ o w, (FlowManager.step o w).1)
               (λ o, negb (is_start o))); [| |done].
      * intros o w0 Ho. apply fm_step_session. by destruct (is_start o).
      * eapply Forall_impl; [done|]. by intros o ->.
  - intros w d w'. subst w'.
    pose proof (fm_handleStall_spec d w) as (_ & Hfr & Hc & Ht & _ & _ & Hf).
    split_and!; try done; rewrite Hfr; by fm_world w.
  - intros it ops w w'. subst w w'. unfold FlowController.run. split; intros Hf.
    + apply (run_after_first (λ it, fc_view (FlowController.world it))
               FlowController.step (λ _, true)); [| |done].
      * intros o it0 _. apply fc_step_session.
      * by apply Forall_forall.
    + apply (run_before_first (λ it, fc_view (FlowController.world it))
               FlowController.step (λ _, true)); [| |done].
      * intros o it0 _. apply fc_step_session.
      * by apply Forall_forall.
  - intros w d w'. subst w'.
    pose proof (fc_handleStall_spec d w) as (Hfr & Hc & Ht & _ & Hf).
    split_and!; try done; rewrite Hfr; by fc_world w.
Qed.

(** The session [um_session]: one filler is emitted, before the first chunk;
    the second stall and the stall after the chunk emit none; the buffer
    ends with the last two chunks. *)
Example one_filler_before_first_chunk :
  ∃ m h,
    FlowManager.create um_config heap_empty = (h, Normal m)
    ∧ let w := FlowManager.run um_session (FlowManager.init m h) in
      listener_calls (FlowManager.trace w)
      = [(1%nat, EvStallDetected 50); (1%nat, EvFillerInjected "um");
         (1%nat, EvStallDetected 100);
         (1%nat, EvStateChange WAITING SPEAKING);
         (1%nat, EvFirstChunk "a"); (1%nat, EvChunkProcessed "a");
         (1%nat, EvStallDetected 50);
         (1%nat, EvChunkProcessed "b"); (1%nat, EvChunkProcessed "c");
         (1%nat, EvStateChange SPEAKING IDLE);
         (1%nat, EvCompleted {| fillersInjected := 1; stallsDetected := 3;
                                chunksProcessed := 3; firstChunkTime := Some 110;
                                totalDurationMs := 200 |})]
      ∧ FlowManager.bufferedChunks w = [Some "b"; Some "c"]
      ∧ FlowManager.getState w = IDLE.
Proof. do 2 eexists. split; [reflexivity|]. vm_compute. done. Qed.

(** The barge-in session of the event form: the chunk after the
    interruption reaches no listener, the buffer is empty and completion
    leaves the state [INTERRUPTED]. *)
Example barge_in_drops_later_chunks :
  let w := FlowManager.run (FlowManager.OpOn recorder :: barge_in_session)
             fresh_manager in
  listener_calls (FlowManager.trace w)
  = [(1%nat, EvStateChange WAITING SPEAKING);
     (1%nat, EvFirstChunk "chunk1"); (1%nat, EvChunkProcessed "chunk1");
     (1%nat, EvChunkProcessed "chunk2");
     (1%nat, EvStateChange SPEAKING INTERRUPTED); (1%nat, EvInterrupted);
     (1%nat, EvCompleted {| fillersInjected := 0; stallsDetected := 0;
                            chunksProcessed := 2; firstChunkTime := Some 1;
                            totalDurationMs := 4 |})]
  ∧ FlowManager.bufferedChunks w = []
  ∧ FlowManager.getState w = INTERRUPTED.
Proof. vm_compute. done. Qed.

(** The barge-in of the stream form: only the first chunk is yielded, the
    iteration is over, the buffer is empty and the state is
    [INTERRUPTED]. *)
Example barge_in_ends_stream :
  ∃ m h,
    FlowController.create FlowController.no_config heap_empty = (h, Normal m)
    ∧ let it := FlowController.run barge_in_stream
                  (FlowController.wrap 0 (FlowController.init m h)) in
      FlowController.yielded it = ["chunk1"]
      ∧ FlowController.running it = false
      ∧ FlowController.raised it = None
      ∧ FlowController.bufferedChunks (FlowController.world it) = []
      ∧ FlowController.getState (FlowController.world it) = INTERRUPTED.
Proof. do 2 eexists. split; [reflexivity|]. vm_compute. done. Qed.

(** * Further properties of the components *)

(** ** Subscriptions of the state machine *)




(** ** Size, flags and [clear] of the circular buffer *)

Lemma buffer_inv_size (c : Z) (b : loc) (l : list string) (bm : BufferManager.t)
  (h : Heap) :
  buffer_inv c b l bm h → BufferManager.size bm = Z.min (Z.of_nat (length l)) c.
Proof. intros (_ & _ & _ & [(? & ? & _)|(? & ? & _)]); lia. Qed.

Lemma buffer_inv_clear (c : Z) (bm : BufferManager.t) (h : Heap) :
  0 < c →
  BufferManager.maxSize bm = c →
  buffer_inv c (next_loc h) [] (BufferManager.clear bm h).1 (BufferManager.clear bm h).2.
Proof.
  intros Hc Hm. unfold BufferManager.clear, buffer_inv. cbn.
  split_and!; try done; [lia|]. left. split_and!; try done.
  unfold read. cbn. by rewrite lookup_insert_eq.
Qed.

(** X2.  After any pushes into a new buffer of capacity [c], [getSize()] is
    the number of pushes capped at [c], [isEmpty()] holds exactly when
    nothing was pushed, [isFull()] exactly when at least [c] chunks were, and
    the snapshot has [getSize()] elements, none of them a hole. *)
Theorem buffer_size_and_flags (c : Z) (chunks : list string) (h0 : Heap) :
  0 < c →
  ∃ bm0 h1,
    BufferManager.create c h0 = (h1, Normal bm0)
    ∧ let bm := (BufferManager.addAll chunks bm0 h1).1 in
      let h := (BufferManager.addAll chunks bm0 h1).2 in
      BufferManager.getSize bm = Z.min (Z.of_nat (length chunks)) c
      ∧ BufferManager.isEmpty bm = bool_decide (chunks = [])
      ∧ BufferManager.isFull bm = bool_decide (c ≤ Z.of_nat (length chunks))
      ∧ Z.of_nat (length (BufferManager.snapshot bm h)) = BufferManager.getSize bm
      ∧ Forall is_Some (BufferManager.snapshot bm h).
Proof.
  intros Hc. destruct (buffer_inv_create c Hc h0) as (bm0 & Hcreate & Hinv0).
  exists bm0, (alloc [] h0).2. split; [done|]. intros bm h.
  pose proof (buffer_inv_addAll c Hc _ chunks [] bm0 _ Hinv0) as Hinv.
  cbn [app] in Hinv. fold bm h in Hinv.
  pose proof (buffer_inv_size _ _ _ _ _ Hinv) as Hsize.
  pose proof (buffer_inv_snapshot c Hc _ _ _ _ Hinv) as Hsnap.
  destruct Hinv as (_ & Hm & _).
  unfold BufferManager.getSize, BufferManager.isEmpty, BufferManager.isFull.
  rewrite Hm, Hsnap, Hsize. split_and!.
  - done.
  - destruct chunks; cbn [length].
    + rewrite bool_decide_eq_true_2 by done. apply Z.eqb_eq. lia.
    + rewrite bool_decide_eq_false_2 by done. apply Z.eqb_neq. lia.
  - case_bool_decide; [apply Z.eqb_eq|apply Z.eqb_neq]; lia.
  - rewrite length_map, length_drop. lia.
  - apply Forall_forall. intros x Hx. apply list_elem_of_fmap in Hx as (? & -> & _).
    done.
Qed.

Lemma buffer_size_and_flags_witness :
  ∃ bm0 h1,
    BufferManager.create 2 heap_empty = (h1, Normal bm0)
    ∧ BufferManager.isFull (BufferManager.addAll ["a"; "b"; "c"] bm0 h1).1
      = bool_decide (2 ≤ Z.of_nat (length ["a"; "b"; "c"])).
Proof.
  destruct (buffer_size_and_flags 2 ["a"; "b"; "c"] heap_empty ltac:(lia))
    as (bm0 & h1 & Hc & H).
  exists bm0, h1. split; [exact Hc|]. apply H.
Defined.

(** X3.  [clear()] makes an emptied buffer of the same capacity: whatever was
    pushed before it, the snapshot after it holds the last [c] of the chunks
    pushed since, and the size counts only those. *)
Theorem buffer_clear_restarts (c : Z) (before after : list string) (h0 : Heap) :
  0 < c →
  ∃ bm0 h1,
    BufferManager.create c h0 = (h1, Normal bm0)
    ∧ let r1 := BufferManager.addAll before bm0 h1 in
      let r2 := BufferManager.clear r1.1 r1.2 in
      let r3 := BufferManager.addAll after r2.1 r2.2 in
      BufferManager.isEmpty r2.1 = true
      ∧ BufferManager.snapshot r2.1 r2.2 = []
      ∧ BufferManager.snapshot r3.1 r3.2
        = map Some (drop (length after - Z.to_nat c) after)
      ∧ BufferManager.getSize r3.1 = Z.min (Z.of_nat (length after)) c
      ∧ BufferManager.buffer r2.1 ≠ BufferManager.buffer r1.1.
Proof.
  intros Hc. destruct (buffer_inv_create c Hc h0) as (bm0 & Hcreate & Hinv0).
  exists bm0, (alloc [] h0).2. split; [done|]. intros r1 r2 r3.
  pose proof (buffer_inv_addAll c Hc _ before [] bm0 _ Hinv0) as Hinv1.
  cbn [app] in Hinv1. fold r1 in Hinv1.
  pose proof Hinv1 as (Hb1 & Hm1 & Hlt1 & _).
  pose proof (buffer_inv_clear c r1.1 r1.2 Hc Hm1) as Hinv2. fold r2 in Hinv2.
  pose proof (buffer_inv_addAll c Hc _ after [] _ _ Hinv2) as Hinv3.
  cbn [app] in Hinv3. fold r3 in Hinv3.
  split_and!.
  - by subst r2.
  - apply snapshot_after_clear.
  - apply (buffer_inv_snapshot c Hc _ _ _ _ Hinv3).
  - apply (buffer_inv_size _ _ _ _ _ Hinv3).
  - destruct Hinv2 as (-> & _). rewrite Hb1. lia.
Qed.

Lemma buffer_clear_restarts_witness :
  ∃ bm0 h1,
    BufferManager.create 2 heap_empty = (h1, Normal bm0)
    ∧ let r1 := BufferManager.addAll ["a"; "b"; "c"] bm0 h1 in
      let r2 := BufferManager.clear r1.1 r1.2 in
      let r3 := BufferManager.addAll ["d"] r2.1 r2.2 in
      BufferManager.snapshot r3.1 r3.2 = map Some (drop (length ["d"] - Z.to_nat 2) ["d"]).
Proof.
  destruct (buffer_clear_restarts 2 ["a"; "b"; "c"] ["d"] heap_empty ltac:(lia))
    as (bm0 & h1 & Hc & H).
  exists bm0, h1. split; [exact Hc|]. apply H.
Defined.

(** ** The budget of the filler rotation *)

Lemma getFillers_exhausted (n : nat) (f : FillerInjector.t) :
  FillerInjector.maxFillers f ≤ FillerInjector.fillersUsed f →
  FillerInjector.getFillers n f = (f, replicate n None).
Proof.
  intros H. induction n as [|n IH]; [done|].
  cbn [FillerInjector.getFillers]. rewrite getFiller_exhausted by done.
  by rewrite IH.
Qed.

(** X4.  On an injector with at least one phrase, [canInjectMore()] after [n]
    calls of [getFiller()] says whether [n] is below the limit, and it is
    true exactly when the next [getFiller()] returns a phrase; a limit of
    zero or less never gives one. *)
Theorem filler_canInjectMore (phrases : list string) (maxCount : Z) (n : nat) :
  phrases ≠ [] →
  let f := (FillerInjector.getFillers n (FillerInjector.create phrases maxCount)).1 in
  FillerInjector.canInjectMore f = bool_decide (Z.of_nat n < maxCount)
  ∧ (FillerInjector.canInjectMore f = true ↔ is_Some (FillerInjector.getFiller f).2)
  ∧ (FillerInjector.canInjectMore f = false → FillerInjector.getFiller f = (f, None)).
Proof.
  intros Hne f.
  assert (FillerInjector.canInjectMore f = bool_decide (Z.of_nat n < maxCount)
          ∧ (Z.of_nat n < maxCount → is_Some (FillerInjector.getFiller f).2)) as [Hcan Hsome].
  { destruct (decide (0 ≤ maxCount)) as [Hmax|Hmax].
    - pose proof (getFillers_from phrases maxCount Hne n 0 ltac:(lia)) as Hrun.
      change (injector_after phrases maxCount 0)
        with (FillerInjector.create phrases maxCount) in Hrun.
      subst f. rewrite Hrun. cbn [fst]. split.
      + unfold FillerInjector.canInjectMore. cbn.
        case_bool_decide; [apply Z.ltb_lt|apply Z.ltb_ge]; lia.
      + intros Hlt. replace (Z.min (0 + Z.of_nat n) maxCount) with (Z.of_nat n) by lia.
        rewrite (getFiller_step phrases maxCount Hne) by lia. cbn [snd].
        apply lookup_lt_is_Some.
        pose proof (Z.mod_pos_bound (Z.of_nat n) _ (len_pos phrases Hne)). lia.
    - subst f. rewrite getFillers_exhausted by (cbn; lia). cbn [fst]. split; [|lia].
      unfold FillerInjector.canInjectMore. cbn.
      case_bool_decide; [lia|]. apply Z.ltb_ge. lia. }
  split; [done|]. rewrite Hcan. split.
  - split.
    + intros H. apply bool_decide_eq_true_1 in H. auto.
    + intros Hs. apply bool_decide_eq_true_2.
      destruct (decide (Z.of_nat n < maxCount)) as [|Hge]; [done|].
      rewrite bool_decide_eq_false_2 in Hcan by done.
      unfold FillerInjector.canInjectMore in Hcan. apply Z.ltb_ge in Hcan.
      rewrite getFiller_exhausted in Hs by lia. by destruct Hs.
  - intros H. apply getFiller_exhausted.
    rewrite <- Hcan in H. unfold FillerInjector.canInjectMore in H.
    apply Z.ltb_ge in H. lia.
Qed.

Lemma filler_canInjectMore_witness :
  FillerInjector.canInjectMore
    (FillerInjector.getFillers 2 (FillerInjector.create ["um"; "hmm"] 2)).1
  = bool_decide (Z.of_nat 2 < 2).
Proof. apply (filler_canInjectMore ["um"; "hmm"] 2 2). done. Defined.

(** X5.  An injector without phrases never returns a filler, and yet each
    call below the limit uses up one unit of it, so that [canInjectMore()]
    turns false after [maxFillers] calls that injected nothing. *)
Theorem filler_without_phrases (maxCount : Z) (n : nat) :
  let r := FillerInjector.getFillers n (FillerInjector.create [] maxCount) in
  r.2 = replicate n None
  ∧ FillerInjector.getUsedCount r.1 = Z.min (Z.of_nat n) (Z.max 0 maxCount)
  ∧ FillerInjector.canInjectMore r.1 = bool_decide (Z.of_nat n < maxCount).
Proof.
  assert (∀ n f,
    FillerInjector.phrases f = [] →
    0 ≤ FillerInjector.fillersUsed f →
    (FillerInjector.getFillers n f).2 = replicate n None
    ∧ FillerInjector.fillersUsed (FillerInjector.getFillers n f).1
      = Z.max (FillerInjector.fillersUsed f)
          (Z.min (FillerInjector.fillersUsed f + Z.of_nat n) (FillerInjector.maxFillers f))
    ∧ FillerInjector.maxFillers (FillerInjector.getFillers n f).1
      = FillerInjector.maxFillers f) as Hgen.
  { clear. induction n as [|n IH]; intros f Hp Hu.
    - cbn. split_and!; try done. lia.
    - cbn [FillerInjector.getFillers]. unfold FillerInjector.getFiller.
      destruct (Z.geb_spec (FillerInjector.fillersUsed f) (FillerInjector.maxFillers f)).
      + destruct (IH f Hp Hu) as (H1 & H2 & H3).
        destruct (FillerInjector.getFillers n f) as [f' rs]. cbn in *.
        rewrite H1, H2, H3. split_and!; try done. lia.
      + set (f1 := FillerInjector.Build _ _ _ _).
        destruct (IH f1 Hp ltac:(cbn; lia)) as (H1 & H2 & H3).
        destruct (FillerInjector.getFillers n f1) as [f' rs]. cbn in *.
        rewrite H1, H2, H3, Hp. split_and!; try done; [|lia].
        f_equal. unfold FillerInjector.js_index.
        by destruct (FillerInjector.lastFillerIndex f). }
  intros r. destruct (Hgen n (FillerInjector.create [] maxCount) eq_refl ltac:(done))
    as (H1 & H2 & H3). fold r in H1, H2, H3. cbn in H2, H3.
  unfold FillerInjector.getUsedCount, FillerInjector.canInjectMore.
  rewrite H1, H2, H3. split_and!; [done|lia|].
  case_bool_decide; [apply Z.ltb_lt|apply Z.ltb_ge]; lia.
Qed.

(** ** The detector under any use *)

Lemma schedule_pending (d : StallDetector.t) (tm : Timers) :
  timers_owned d tm →
  let r := StallDetector.scheduleStallCheck d tm in
  pending r.2 = {[ next_handle tm := StallDetector.thresholdMs d ]}
  ∧ StallDetector.stallTimer r.1 = Some (next_handle tm)
  ∧ StallDetector.lastChunkTime r.1 = StallDetector.lastChunkTime d
  ∧ StallDetector.thresholdMs r.1 = StallDetector.thresholdMs d.
Proof.
  intros Ho. pose proof (owned_clearTimer d tm Ho) as He.
  unfold StallDetector.scheduleStallCheck, StallDetector.clearTimer in *.
  destruct (StallDetector.stallTimer d); cbn in *; rewrite He; split_and!; try done;
    by rewrite insert_empty.
Qed.

Lemma det_inv_owned (thr : Z) (w : DetWorld) :
  det_inv thr w → timers_owned (dw_detector w) (dw_timers w).
Proof. intros (_ & H & _) h [delay Hd]. by destruct (H h delay Hd) as (_ & ? & _). Qed.

Lemma det_inv_scheduled (thr : Z) (d : StallDetector.t) (tm : Timers) (calls : list Z) :
  timers_owned d tm →
  StallDetector.thresholdMs d = thr →
  is_Some (StallDetector.lastChunkTime d) →
  Forall (λ elapsed, thr ≤ elapsed) calls →
  det_inv thr
    {| dw_detector := (StallDetector.scheduleStallCheck d tm).1;
       dw_timers := (StallDetector.scheduleStallCheck d tm).2;
       dw_calls := calls |}.
Proof.
  intros Ho Ht Hl Hc. destruct (schedule_pending d tm Ho) as (Hp & Hs & Hl' & Ht').
  split_and!; cbn; [congruence| |done].
  intros h delay. rewrite Hp. intros [<- <-]%lookup_singleton_Some.
  split_and!; [done|done|by rewrite Hl'].
Qed.

Lemma det_step_inv (thr : Z) (cb : Z → option exn) (o : DetOp) (w : DetWorld) :
  det_inv thr w → det_inv thr (det_step cb o w).
Proof.
  intros Hinv. pose proof (det_inv_owned thr w Hinv) as Ho.
  destruct Hinv as (Ht & Hp & Hc).
  destruct w as [d tm calls]. cbn in *.
  destruct o as [now|now| |h now]; cbn [det_step dw_detector dw_timers dw_calls].
  - unfold StallDetector.start. by apply det_inv_scheduled.
  - unfold StallDetector.notifyChunk.
    pose proof (owned_clearTimer _ tm (owned_set_last (Some now) d tm Ho)) as He.
    assert (StallDetector.thresholdMs
              (StallDetector.clearTimer (StallDetector.set_lastChunkTime (Some now) d) tm).1
            = thr
            ∧ is_Some (StallDetector.lastChunkTime
                (StallDetector.clearTimer (StallDetector.set_lastChunkTime (Some now) d) tm).1))
      as [Ht2 Hl2].
    { unfold StallDetector.clearTimer. cbn. by destruct (StallDetector.stallTimer d). }
    destruct (StallDetector.clearTimer _ tm) as [d2 tm2]. cbn in *.
    apply det_inv_scheduled; try done.
    intros h Hh. rewrite He, lookup_empty in Hh. by destruct Hh.
  - destruct (owned_stop d tm Ho) as [He _].
    assert (StallDetector.thresholdMs (StallDetector.stop d tm).1 = thr) as Ht2.
    { unfold StallDetector.stop, StallDetector.clearTimer.
      by destruct (StallDetector.stallTimer d). }
    split_and!; cbn; [done| |done]. intros h delay. by rewrite He, lookup_empty.
  - unfold StallDetector.fire, StallDetector.timerCallback, call_onStall.
    destruct (pending tm !! h) as [delay|] eqn:Eh; [|by split_and!].
    destruct (Hp h delay Eh) as (-> & Hs & [last Hl]). rewrite Hl.
    assert (∀ h' delay', pending (clearTimeout h tm) !! h' = Some delay' → False)
      as Hnone.
    { intros h' delay'. cbn. destruct (decide (h = h')) as [->|Hne].
      - by rewrite lookup_delete_eq.
      - rewrite lookup_delete_ne by done. intros Hd.
        destruct (Hp h' delay' Hd) as (_ & ? & _). congruence. }
    destruct (Z.geb_spec (now - last) (StallDetector.thresholdMs d)) as [Hge|Hlt].
    + assert (Forall (λ elapsed, thr ≤ elapsed) (calls ++ [now - last])) as Hc'.
      { apply Forall_app. split; [done|]. constructor; [lia|done]. }
      destruct (cb (now - last)).
      * split_and!; cbn; [done| |done]. intros h' delay' Hd. by destruct (Hnone h' delay').
      * pose proof (det_inv_scheduled thr d (clearTimeout h tm) (calls ++ [now - last])
                      (owned_clearTimeout d tm h Ho) Ht ltac:(by rewrite Hl) Hc') as Hinv.
        by destruct (StallDetector.scheduleStallCheck d (clearTimeout h tm)).
    + split_and!; cbn; [done| |done]. intros h' delay' Hd. by destruct (Hnone h' delay').
Qed.

Lemma det_run_inv (thr : Z) (cb : Z → option exn) (ops : list DetOp) (w : DetWorld) :
  det_inv thr w → det_inv thr (det_run cb ops w).
Proof.
  revert w. induction ops as [|o ops IH]; intros w Hinv; [done|].
  cbn. apply IH. by apply det_step_inv.
Qed.

Lemma det_init_inv (thr : Z) : det_inv thr (det_init thr).
Proof. split_and!; cbn; [done| |done]. intros h delay. by rewrite lookup_empty. Qed.

(** X6.  However a detector is used ([start], [notifyChunk], [stop] and timers
    fired by the host, in any order and at any time), at most one timer is
    pending; it is the one the detector holds, it was armed for the full
    threshold, and a chunk time is recorded while it is pending; and the
    callback has only ever been called with a duration of at least the
    threshold. *)
Theorem detector_single_timer (thresholdMs : Z) (cb : Z → option exn) (ops : list DetOp) :
  let w := det_run cb ops (det_init thresholdMs) in
  StallDetector.thresholdMs (dw_detector w) = thresholdMs
  ∧ (∀ h delay, pending (dw_timers w) !! h = Some delay →
       delay = thresholdMs
       ∧ StallDetector.stallTimer (dw_detector w) = Some h
       ∧ is_Some (StallDetector.lastChunkTime (dw_detector w)))
  ∧ (∀ h1 h2, is_Some (pending (dw_timers w) !! h1) →
              is_Some (pending (dw_timers w) !! h2) → h1 = h2)
  ∧ Forall (λ elapsed, thresholdMs ≤ elapsed) (dw_calls w).
Proof.
  intros w. pose proof (det_run_inv thresholdMs cb ops _ (det_init_inv thresholdMs))
    as Hinv. fold w in Hinv.
  pose proof (det_inv_owned _ _ Hinv) as Ho. destruct Hinv as (Ht & Hp & Hc).
  split_and!; try done.
  intros h1 h2 H1 H2. apply Ho in H1, H2. congruence.
Qed.

(** X7.  [stop()] cancels the pending timer and forgets the chunk time, so
    that until the next [start()] or [notifyChunk()] nothing happens: timers
    fired by the host and further [stop()] calls leave the detector, the
    timers and the record of callback calls as they are. *)
Theorem detector_stop_silences
  (thresholdMs : Z) (cb : Z → option exn) (ops later : list DetOp) :
  Forall (λ o, det_passive o = true) later →
  let w := det_step cb DetStop (det_run cb ops (det_init thresholdMs)) in
  pending (dw_timers w) = ∅
  ∧ StallDetector.stallTimer (dw_detector w) = None
  ∧ StallDetector.lastChunkTime (dw_detector w) = None
  ∧ dw_calls w = dw_calls (det_run cb ops (det_init thresholdMs))
  ∧ det_run cb later w = w.
Proof.
  intros Hlater w.
  pose proof (det_run_inv thresholdMs cb ops _ (det_init_inv thresholdMs)) as Hinv.
  pose proof (det_inv_owned _ _ Hinv) as Ho.
  destruct (owned_stop _ _ Ho) as [He _].
  destruct (stopped_after_stop (dw_detector (det_run cb ops (det_init thresholdMs)))
              (dw_timers (det_run cb ops (det_init thresholdMs)))) as (Hs & Hl & _).
  split_and!; try done.
  assert (∀ o, det_passive o = true → det_step cb o w = w) as Hstep.
  { intros o Hpass. subst w. cbn [det_step] in *.
    destruct (StallDetector.stop _ _) as [d tm]. cbn in *.
    destruct d as [last st thr]. cbn in *. subst last st.
    destruct o as [now|now| |h now]; try done; cbn.
    unfold StallDetector.fire. by rewrite He, lookup_empty. }
  induction Hlater as [|o later Ho' _ IH]; [done|].
  cbn. rewrite Hstep by done. apply IH.
Qed.

Lemma detector_stop_silences_witness :
  det_run (λ _, None) [DetFire 0 200; DetStop; DetFire 1 900]
    (det_step (λ _, None) DetStop
       (det_run (λ _, None) [DetStart 0; DetFire 0 60] (det_init 50)))
  = det_step (λ _, None) DetStop
      (det_run (λ _, None) [DetStart 0; DetFire 0 60] (det_init 50)).
Proof.
  apply (detector_stop_silences 50 (λ _, None) [DetStart 0; DetFire 0 60]
           [DetFire 0 200; DetStop; DetFire 1 900]).
  repeat constructor.
Defined.

(** * Further properties of the event-based orchestrator *)

(** ** What every reachable world satisfies *)

Lemma getFiller_budget (f : FillerInjector.t) :
  let r := FillerInjector.getFiller f in
  FillerInjector.maxFillers r.1 = FillerInjector.maxFillers f
  ∧ FillerInjector.phrases r.1 = FillerInjector.phrases f
  ∧ (FillerInjector.fillersUsed r.1 = FillerInjector.fillersUsed f ∧ r.2 = None
     ∨ FillerInjector.fillersUsed r.1 = FillerInjector.fillersUsed f + 1
       ∧ FillerInjector.fillersUsed f < FillerInjector.maxFillers f)
  ∧ (∀ x, r.2 = Some x → x ∈ FillerInjector.phrases f).
Proof.
  unfold FillerInjector.getFiller.
  destruct (Z.geb_spec (FillerInjector.fillersUsed f) (FillerInjector.maxFillers f)); cbn.
  - split_and!; auto. done.
  - split_and!; [done|done|right; split; [done|lia]|].
    intros x. unfold FillerInjector.js_index.
    destruct (_ ≫= _) as [z|]; [|done]. destruct (z <? 0); [done|].
    apply list_elem_of_lookup_2.
Qed.

(** The timer touches the detector, the timers, the statistics, the
    injector and the trace, and nothing else. *)
Lemma fm_timerFire_frame (h : nat) (now : Z) (w : FlowManager.World) :
  ∃ d' tm' sts' fi' tr',
    (FlowManager.timerFire h now w).1
    = FlowManager.set_timers tm'
        (FlowManager.set_trace tr'
           (FlowManager.set_fm
              (FlowManager.set_stallDetector d'
                 (FlowManager.set_stats sts'
                    (FlowManager.set_fillerInjector fi' (FlowManager.fm w)))) w)).
Proof.
  destruct (fm_timerFire_spec h now w) as (_ & w1 & d' & tm' & Hw1 & -> & _).
  destruct Hw1 as [->|[el ->]].
  - exists d', tm', (FlowManager.stats (FlowManager.fm w)),
      (FlowManager.fillerInjector (FlowManager.fm w)), (FlowManager.trace w).
    by fm_world w.
  - pose proof (fm_handleStall_spec el w) as (_ & Hfr & _).
    rewrite Hfr. do 5 eexists. by fm_world w.
Qed.

Lemma onStateChange_first {L} (key : L → nat) (l : L) (s : ConversationState) :
  StateMachine.onStateChange key l
    {| StateMachine.currentState := s; StateMachine.listeners := [] |}
  = {| StateMachine.currentState := s; StateMachine.listeners := [l] |}.
Proof.
  unfold StateMachine.onStateChange, StateMachine.has_listener. cbn.
  by rewrite bool_decide_eq_false_2 by apply not_elem_of_nil.
Qed.

Lemma unsubscribe_only {L} (key : L → nat) (l : L) (s : ConversationState) :
  StateMachine.unsubscribe key l
    {| StateMachine.currentState := s; StateMachine.listeners := [l] |}
  = {| StateMachine.currentState := s; StateMachine.listeners := [] |}.
Proof.
  unfold StateMachine.unsubscribe. cbn [StateMachine.currentState StateMachine.listeners].
  f_equal. by rewrite filter_cons_False by (intros H; by apply H).
Qed.

Lemma notify_trace_nil (ls : list FlowEventListener) (from to : ConversationState)
  (tr : list Obs) :
  notify_trace ls [] from to tr = tr.
Proof. done. Qed.

Lemma notify_trace_one (ls : list FlowEventListener) (cl : loc)
  (from to : ConversationState) (tr : list Obs) :
  notify_trace ls [cl] from to tr = FlowManager.emit_to ls (EvStateChange from to) tr.
Proof. done. Qed.

Ltac fm_sub :=
  rewrite ?onStateChange_first, ?unsubscribe_only, ?notify_trace_nil, ?notify_trace_one.

Ltac sub_cases Hl Hu :=
  try discriminate Hl;
  try (exfalso; destruct Hu as [Hu1 Hu2];
       first [by specialize (Hu1 eq_refl)|by specialize (Hu2 eq_refl)]).

Ltac sub_close Hf :=
  split_and!;
    [ reflexivity
    | split; intros E; first [discriminate E | reflexivity]
    | intros E; first [discriminate E | reflexivity | exact (Hf E)] ].

Lemma fm_step_subscription (o : FlowManager.Op) (w : FlowManager.World) :
  lifecycle_ok w = true → subscription_ok w → subscription_ok (FlowManager.step o w).1.
Proof.
  unfold lifecycle_ok, subscription_ok.
  destruct o as [now|now chunk|now| |l|l|h now]; cbn [FlowManager.step].
  - fm_world w. cbn. intros Hl (-> & Hu & Hf).
    destruct first, st, t0, unsub; sub_cases Hl Hu; fm_run; fm_sub; cbn; sub_close Hf.
  - fm_world w. cbn. intros Hl (-> & Hu & Hf).
    destruct first, st, t0, unsub; sub_cases Hl Hu; fm_run; fm_sub; cbn; sub_close Hf.
  - fm_world w. cbn. intros Hl (-> & Hu & Hf).
    destruct first, st, t0, unsub; sub_cases Hl Hu; fm_run; fm_sub; cbn; sub_close Hf.
  - fm_world w. cbn. intros Hl (-> & Hu & Hf).
    destruct first, st, t0, unsub; sub_cases Hl Hu; fm_run; fm_sub; cbn; sub_close Hf.
  - fm_world w. fm_run. by destruct (bool_decide _).
  - fm_world w. by fm_run.
  - destruct (fm_timerFire_frame h now w) as (d' & tm' & sts' & fi' & tr' & ->).
    by fm_world w.
Qed.
Lemma fm_step_listeners (o : FlowManager.Op) (w : FlowManager.World) :
  NoDup (map el_id (FlowManager.listeners (FlowManager.fm w))) →
  NoDup (map el_id (FlowManager.listeners (FlowManager.fm (FlowManager.step o w).1))).
Proof.
  destruct o as [now|now chunk|now| |l|l|h now]; cbn [FlowManager.step].
  - fm_world w. destruct st, t0; by fm_run.
  - fm_world w. destruct first, st, t0; by fm_run.
  - fm_world w. destruct st, t0, unsub; by fm_run.
  - fm_world w. destruct st; by fm_run.
  - fm_world w. fm_run. destruct (bool_decide_reflect (el_id l ∈ map el_id ls)); cbn; [done|].
    intros Hnd. rewrite map_app. apply NoDup_app. split; [done|]. split.
    + intros i Hi. cbn. rewrite list_elem_of_singleton. by intros ->.
    + apply NoDup_singleton.
  - fm_world w. fm_run. intros Hnd. clear -Hnd.
    induction ls as [|l' ls IH]; [done|]. cbn in Hnd. apply NoDup_cons in Hnd as [Hn Hnd].
    destruct (decide (el_id l' ≠ el_id l)).
    + rewrite filter_cons_True by done. cbn. apply NoDup_cons. split; [|auto].
      rewrite list_elem_of_fmap. intros (l2 & Hid & Hl2%list_elem_of_filter).
      apply Hn. rewrite list_elem_of_fmap. exists l2. tauto.
    + rewrite filter_cons_False by done. auto.
  - destruct (fm_timerFire_frame h now w) as (d' & tm' & sts' & fi' & tr' & ->).
    by fm_world w.
Qed.

Lemma detector_threshold (now : Z) (d : StallDetector.t) (tm : Timers) :
  StallDetector.thresholdMs (StallDetector.start now d tm).1 = StallDetector.thresholdMs d
  ∧ StallDetector.thresholdMs (StallDetector.notifyChunk now d tm).1
    = StallDetector.thresholdMs d
  ∧ StallDetector.thresholdMs (StallDetector.stop d tm).1 = StallDetector.thresholdMs d
  ∧ StallDetector.thresholdMs (StallDetector.scheduleStallCheck d tm).1
    = StallDetector.thresholdMs d.
Proof.
  unfold StallDetector.start, StallDetector.notifyChunk, StallDetector.stop,
    StallDetector.scheduleStallCheck, StallDetector.clearTimer.
  by destruct d as [last [h|] thr].
Qed.

Lemma add_maxSize (x : string) (bm : BufferManager.t) (h : Heap) :
  BufferManager.maxSize (BufferManager.add x bm h).1 = BufferManager.maxSize bm.
Proof. unfold BufferManager.add. by case_match. Qed.

Lemma fm_step_components (o : FlowManager.Op) (w : FlowManager.World) :
  components_ok w → components_ok (FlowManager.step o w).1.
Proof.
  unfold components_ok.
  destruct o as [now|now chunk|now| |l|l|h now]; cbn [FlowManager.step].
  - fm_world w. destruct st, t0; fm_run; try done; intros (? & ? & ? & ? & ?);
      split_and!; try done; by rewrite (proj1 (detector_threshold _ _ _)).
  - fm_world w. destruct first, st, t0; fm_run; try done; intros (? & ? & ? & ? & ?);
      split_and!; try done;
      by rewrite ?add_maxSize, ?(proj1 (proj2 (detector_threshold _ _ _))).
  - fm_world w. destruct st, t0, unsub; fm_run; try done; intros (? & ? & ? & ? & ?);
      split_and!; try done;
      by rewrite (proj1 (proj2 (proj2 (detector_threshold 0 _ _)))).
  - fm_world w. destruct st; fm_run; try done; intros (? & ? & ? & ? & ?);
      split_and!; try done;
      by rewrite (proj1 (proj2 (proj2 (detector_threshold 0 _ _)))).
  - fm_world w. fm_run. by destruct (bool_decide _).
  - fm_world w. by fm_run.
  - destruct (fm_timerFire_spec h now w) as (_ & w1 & d' & tm' & Hw1 & -> & Hd).
    intros (H1 & H2 & H3 & H4 & H5).
    assert (StallDetector.thresholdMs d'
            = StallDetector.thresholdMs (FlowManager.stallDetector (FlowManager.fm w)))
      as Hthr.
    { destruct Hd as [[= -> ->]|[[= -> ->]|Hd]]; [done|done|].
      pose proof (detector_threshold 0 (FlowManager.stallDetector (FlowManager.fm w))
                    (clearTimeout h (FlowManager.timers w))) as (_ & _ & _ & Hs).
      by rewrite <- Hd in Hs. }
    destruct Hw1 as [->|[el ->]].
    + fm_world w. cbn in *. split_and!; try done. congruence.
    + pose proof (fm_handleStall_spec el w) as (_ & Hfr & _).
      assert (FillerInjector.maxFillers
                (FlowManager.fillerInjector (FlowManager.fm (FlowManager.handleStall el w).1))
              = FillerInjector.maxFillers (FlowManager.fillerInjector (FlowManager.fm w))
              ∧ FillerInjector.phrases
                  (FlowManager.fillerInjector (FlowManager.fm (FlowManager.handleStall el w).1))
                = FillerInjector.phrases (FlowManager.fillerInjector (FlowManager.fm w)))
        as [Hm Hp].
      { clear. fm_world w.
        pose proof (getFiller_budget fi) as (Hg1 & Hg2 & _).
        destruct first, st; fm_exec; destruct (FlowManager.enableFillers cfg); cbn;
          try destruct (truthy (FillerInjector.getFiller fi).2); cbn; done. }
      rewrite Hfr in *. clear Hfr. fm_world w. cbn in *. split_and!; congruence.
Qed.

Lemma budget_reset (f : FillerInjector.t) (s : FlowStats) (st : ConversationState) :
  budget_ok f s st → budget_ok (FillerInjector.reset f) s INTERRUPTED.
Proof.
  intros (H1 & H2 & H3). unfold budget_ok, FillerInjector.reset. cbn.
  split_and!; try done; lia.
Qed.

Lemma budget_fresh (f : FillerInjector.t) (st : ConversationState) :
  budget_ok (FillerInjector.reset f) stats_zero st.
Proof. unfold budget_ok, FillerInjector.reset. cbn. split_and!; try done; lia. Qed.

Lemma fm_handleStall_budget (d : Z) (w : FlowManager.World) :
  budget_ok (FlowManager.fillerInjector (FlowManager.fm w))
    (FlowManager.stats (FlowManager.fm w)) (FlowManager.getState w) →
  budget_ok (FlowManager.fillerInjector (FlowManager.fm (FlowManager.handleStall d w).1))
    (FlowManager.stats (FlowManager.fm (FlowManager.handleStall d w).1))
    (FlowManager.getState w).
Proof.
  fm_world w. pose proof (getFiller_budget fi) as (Hg1 & Hg2 & Hg3 & _).
  unfold budget_ok.
  destruct first, st; fm_exec; destruct (FlowManager.enableFillers cfg); cbn;
    try destruct (truthy (FillerInjector.getFiller fi).2) eqn:Et; cbn; try done.
  all: intros (H1 & H2 & H3); rewrite ?Hg1.
  all: destruct Hg3 as [[Hu Hn]|[Hu Hlt]]; try (by rewrite Hn in Et).
  all: try (assert (fillersInjected sts ≤ FillerInjector.fillersUsed fi) as Hle
              by (apply H3; discriminate)).
  all: rewrite Hu; split_and!; try lia; intros Hne; try specialize (H3 Hne); lia.
Qed.

Lemma fm_step_budget (o : FlowManager.Op) (w : FlowManager.World) :
  budget_ok (FlowManager.fillerInjector (FlowManager.fm w))
    (FlowManager.stats (FlowManager.fm w)) (FlowManager.getState w) →
  budget_ok (FlowManager.fillerInjector (FlowManager.fm (FlowManager.step o w).1))
    (FlowManager.stats (FlowManager.fm (FlowManager.step o w).1))
    (FlowManager.getState (FlowManager.step o w).1).
Proof.
  destruct o as [now|now chunk|now| |l|l|h now]; cbn [FlowManager.step].
  - fm_world w. destruct st, t0; fm_run; try done; intros; apply budget_fresh.
  - fm_world w. destruct first, st, t0; fm_run; try done; unfold budget_ok; cbn;
      intros (H1 & H2 & H3); split_and!; try lia; intros Hne; apply H3; discriminate.
  - fm_world w. destruct st, t0, unsub; fm_run; try done; unfold budget_ok; cbn;
      intros (H1 & H2 & H3); split_and!; try lia; intros Hne; apply H3; discriminate.
  - fm_world w. destruct st; fm_run; try done; apply budget_reset.
  - fm_world w. fm_run. by destruct (bool_decide _).
  - fm_world w. by fm_run.
  - destruct (fm_timerFire_spec h now w) as (_ & w1 & d' & tm' & Hw1 & -> & _).
    destruct Hw1 as [->|[el ->]]; [by fm_world w|].
    intros Hb. pose proof (fm_handleStall_budget el w Hb) as Hb'.
    pose proof (fm_handleStall_spec el w) as (_ & Hfr & _).
    rewrite Hfr in *. clear Hfr. by fm_world w.
Qed.

Lemma fm_step_idle_timers (o : FlowManager.Op) (w : FlowManager.World) :
  fm_inv w → idle_timers w → idle_timers (FlowManager.step o w).1.
Proof.
  unfold fm_inv, lifecycle_ok, idle_timers. intros [Hl Ho].
  destruct o as [now|now chunk|now| |l|l|h now]; cbn [FlowManager.step].
  - fm_world w. cbn in Hl, Ho.
    destruct first, st, t0; try done; fm_run; try done; intros _ [?|?]; done.
  - fm_world w. cbn in Hl, Ho.
    destruct first, st, t0; try done; fm_run; try done; intros _ [?|?]; done.
  - fm_world w. cbn in Hl, Ho.
    destruct first, st, t0, unsub; try done; fm_run; try done;
      intros _ _; by apply owned_stop.
  - fm_world w. cbn in Hl, Ho.
    destruct first, st, t0; try done; fm_run; try done; intros _ _; by apply owned_stop.
  - fm_world w. fm_run. by destruct (bool_decide _).
  - fm_world w. by fm_run.
  - intros Hidle Hpre.
    destruct (fm_timerFire_frame h now w) as (d' & tm' & sts' & fi' & tr' & Heq).
    assert (pending (FlowManager.timers w) = ∅) as Hempty.
    { apply Hidle. rewrite Heq in Hpre. by fm_world w. }
    by rewrite fm_timerFire_idle.
Qed.

Lemma fm_step_wf (o : FlowManager.Op) (w : FlowManager.World) :
  fm_wf w → fm_wf (FlowManager.step o w).1.
Proof.
  intros (Hinv & Hs & Hn & Hc & Hb & Hi). pose proof Hinv as [Hl Ho]. split_and!.
  - split; [by apply fm_step_lifecycle|by apply fm_step_owned].
  - by apply fm_step_subscription.
  - by apply fm_step_listeners.
  - by apply fm_step_components.
  - by apply fm_step_budget.
  - by apply fm_step_idle_timers.
Qed.

Lemma fm_run_wf (ops : list FlowManager.Op) (w : FlowManager.World) :
  fm_wf w → fm_wf (FlowManager.run ops w).
Proof.
  revert w. induction ops as [|o ops IH]; intros w Hwf; cbn; [done|].
  apply IH. by apply fm_step_wf.
Qed.

Lemma fm_init_wf (c : FlowManager.FlowManagerConfig) (h h' : Heap) (m : FlowManager.t) :
  FlowManager.create c h = (h', Normal m) → fm_wf (FlowManager.init m h').
Proof.
  intros Hc. pose proof (fm_init_inv c h h' m Hc) as Hinv. revert Hc.
  unfold FlowManager.create.
  pose proof (buffer_create_throws (FlowManager.bufferSize (FlowManager.resolve c)) h)
    as Hb.
  destruct (BufferManager.create _ h) as [h1 [bm|e]]; intros [= <- <-]. cbn [snd] in Hb.
  destruct (Z.leb_spec (FlowManager.bufferSize (FlowManager.resolve c)) 0); [done|].
  injection Hb as ->.
  split_and!; try done.
  - apply NoDup_nil_2.
  - unfold budget_ok. cbn. lia.
Qed.

Lemma reachable_wf (w : FlowManager.World) : reachable w → fm_wf w.
Proof.
  intros (c & h & h0 & m & ops & Hc & ->). apply fm_run_wf. by eapply fm_init_wf.
Qed.

Lemma fm_step_config (o : FlowManager.Op) (w : FlowManager.World) :
  FlowManager.config (FlowManager.fm (FlowManager.step o w).1)
  = FlowManager.config (FlowManager.fm w).
Proof.
  destruct o as [now|now chunk|now| |l|l|h now]; cbn [FlowManager.step].
  - fm_world w. destruct st, t0; by fm_run.
  - fm_world w. destruct first, st, t0; by fm_run.
  - fm_world w. destruct st, t0, unsub; by fm_run.
  - fm_world w. destruct st; by fm_run.
  - fm_world w. fm_run. by destruct (bool_decide _).
  - fm_world w. by fm_run.
  - destruct (fm_timerFire_frame h now w) as (d' & tm' & sts' & fi' & tr' & ->).
    by fm_world w.
Qed.

Lemma fm_run_config (ops : list FlowManager.Op) (w : FlowManager.World) :
  FlowManager.config (FlowManager.fm (FlowManager.run ops w))
  = FlowManager.config (FlowManager.fm w).
Proof.
  revert w. induction ops as [|o ops IH]; intros w; [done|].
  change (FlowManager.run (o :: ops) w) with (FlowManager.run ops (FlowManager.step o w).1).
  by rewrite IH, fm_step_config.
Qed.

Lemma run_reachable (ops : list FlowManager.Op) :
  reachable (FlowManager.run ops fresh_manager).
Proof.
  exists FlowManager.no_config, heap_empty, (alloc [] heap_empty).2,
    (FlowManager.fm fresh_manager), ops. split; reflexivity.
Defined.

(** ** Timers, budget and failures *)

(** X8.  A manager holds no timer outside a session or after an
    interruption: whatever the host fires then does nothing. *)
Theorem manager_idle_has_no_timer (w : FlowManager.World) :
  reachable w →
  FlowManager.startTime (FlowManager.fm w) = None ∨ FlowManager.getState w = INTERRUPTED →
  pending (FlowManager.timers w) = ∅
  ∧ StallDetector.armed (FlowManager.stallDetector (FlowManager.fm w))
      (FlowManager.timers w) = false
  ∧ ∀ h now, FlowManager.timerFire h now w = (w, Normal tt).
Proof.
  intros Hr Hidle. destruct (reachable_wf w Hr) as (_ & _ & _ & _ & _ & Hi).
  specialize (Hi Hidle). split_and!; [done| |].
  - unfold StallDetector.armed. destruct (StallDetector.stallTimer _); [|done].
    rewrite Hi, lookup_empty. apply bool_decide_eq_false_2. by intros [? ?].
  - intros h now. by apply fm_timerFire_idle.
Qed.

Lemma manager_idle_has_no_timer_witness :
  pending (FlowManager.timers (FlowManager.run um_session fresh_manager)) = ∅.
Proof.
  apply (manager_idle_has_no_timer (FlowManager.run um_session fresh_manager)
           (run_reachable um_session)).
  left. reflexivity.
Defined.



(** X10.  On a reachable manager the only calls that fail are the three usage
    errors ([start()] during a session, [processChunk()] and [complete()]
    outside one); a failed call changes nothing; and no other call, nor a
    timer of the host, ever throws: the manager's own state transitions are
    always valid ones. *)
Theorem manager_failures_are_usage_errors (w : FlowManager.World) (o : FlowManager.Op) :
  reachable w →
  (FlowManager.step o w).2
  = match o, FlowManager.startTime (FlowManager.fm w) with
    | FlowManager.OpStart _, Some _ => Throw already_started
    | FlowManager.OpProcessChunk _ _, None => Throw not_started_chunk
    | FlowManager.OpComplete _, None => Throw not_started
    | _, _ => Normal tt
    end
  ∧ (is_normal (FlowManager.step o w).2 = false → (FlowManager.step o w).1 = w).
Proof.
  intros Hr. destruct (reachable_inv w Hr) as [Hl _]. revert Hl. unfold lifecycle_ok.
  destruct o as [now|now chunk|now| |l|l|h now]; cbn [FlowManager.step].
  - fm_world w. cbn. destruct first, st, t0; try done; by fm_run.
  - fm_world w. cbn. destruct first, st, t0; try done; by fm_run.
  - fm_world w. cbn. destruct first, st, t0, unsub; try done; by fm_run.
  - fm_world w. cbn. destruct first, st, t0; try done; by fm_run.
  - fm_world w. cbn. by destruct t0.
  - fm_world w. cbn. by destruct t0.
  - intros _. destruct (fm_timerFire_spec h now w) as (-> & _).
    by destruct (FlowManager.startTime (FlowManager.fm w)).
Qed.

Lemma manager_failures_are_usage_errors_witness :
  (FlowManager.step (FlowManager.OpProcessChunk 5 "late")
     (FlowManager.run um_session fresh_manager)).2
  = Throw not_started_chunk.
Proof.
  apply (manager_failures_are_usage_errors (FlowManager.run um_session fresh_manager)
           (FlowManager.OpProcessChunk 5 "late") (run_reachable um_session)).
Defined.

(** ** The events of each operation *)

Lemma deliveries_nil (ls : list FlowEventListener) : deliveries ls [] = [].
Proof. done. Qed.

Lemma deliveries_cons (ls : list FlowEventListener) (ev : FlowEvent)
  (evs : list FlowEvent) :
  deliveries ls (ev :: evs) = map (λ l, (el_id l, ev)) ls ++ deliveries ls evs.
Proof. done. Qed.

Ltac calls_tac :=
  cbn; rewrite ?emit_to_calls_all, ?deliveries_cons, ?deliveries_nil, ?app_nil_r,
    <- ?app_assoc; try done.

Lemma fm_handleStall_events (d : Z) (w : FlowManager.World) :
  listener_calls (FlowManager.trace (FlowManager.handleStall d w).1)
  = listener_calls (FlowManager.trace w)
    ++ deliveries (FlowManager.listeners (FlowManager.fm w))
         (EvStallDetected d
          :: (if FlowManager.enableFillers (FlowManager.config (FlowManager.fm w))
                 && negb (FlowManager.firstChunkEmitted (FlowManager.fm w))
                 && negb (state_eqb (FlowManager.getState w) INTERRUPTED)
              then
                match (FillerInjector.getFiller
                         (FlowManager.fillerInjector (FlowManager.fm w))).2 with
                | Some f => if bool_decide (f = "") then [] else [EvFillerInjected f]
                | None => []
                end
              else [])).
Proof.
  fm_world w.
  destruct first, st; fm_exec; destruct (FlowManager.enableFillers cfg); cbn;
    try (destruct (FillerInjector.getFiller fi).2 as [f|]; cbn;
         [destruct (bool_decide (f = "")); cbn|]);
    calls_tac.
Qed.

(** What each operation delivers to the listeners, on any well-formed
    world. *)
Lemma fm_events (w : FlowManager.World) :
  fm_wf w →
  let ls := FlowManager.listeners (FlowManager.fm w) in
  let st := FlowManager.getState w in
  let calls := λ w', listener_calls (FlowManager.trace w') in
  (∀ now, calls (FlowManager.start now w).1 = calls w)
  ∧ (∀ now chunk,
       calls (FlowManager.processChunk now chunk w).1
       = calls w
         ++ deliveries ls
              match FlowManager.startTime (FlowManager.fm w), st with
              | Some _, WAITING =>
                  [EvStateChange WAITING SPEAKING; EvFirstChunk chunk;
                   EvChunkProcessed chunk]
              | Some _, SPEAKING => [EvChunkProcessed chunk]
              | _, _ => []
              end)
  ∧ calls (FlowManager.interrupt w).1
    = calls w
      ++ deliveries ls
           (if state_eqb st SPEAKING || state_eqb st WAITING
            then [EvStateChange st INTERRUPTED; EvInterrupted] else [])
  ∧ (∀ now,
       calls (FlowManager.complete now w).1
       = calls w
         ++ deliveries ls
              match FlowManager.startTime (FlowManager.fm w) with
              | Some t0 =>
                  (if state_eqb st INTERRUPTED then [] else [EvStateChange st IDLE])
                  ++ [EvCompleted (FlowManager.getStats (FlowManager.complete now w).1)]
              | None => []
              end
       ∧ ∀ t0, FlowManager.startTime (FlowManager.fm w) = Some t0 →
               totalDurationMs (FlowManager.getStats (FlowManager.complete now w).1)
               = now - t0)
  ∧ (∀ h now, ∃ evs,
       calls (FlowManager.timerFire h now w).1 = calls w ++ deliveries ls evs
       ∧ (evs = []
          ∨ ∃ elapsed,
              FlowManager.stallThresholdMs (FlowManager.config (FlowManager.fm w)) ≤ elapsed
              ∧ (evs = [EvStallDetected elapsed]
                 ∨ ∃ f, f ∈ FlowManager.fillerPhrases (FlowManager.config (FlowManager.fm w))
                        ∧ f ≠ ""
                        ∧ st = WAITING
                        ∧ evs = [EvStallDetected elapsed; EvFillerInjected f])))
  ∧ (∀ l, calls (FlowManager.on l w).1 = calls w
          ∧ calls (FlowManager.off l w).1 = calls w).
Proof.
  intros Hwf ls st calls.
  destruct Hwf as ([Hl Ho] & Hsub & _ & Hcomp & _ & Hidle).
  subst ls st calls. split_and!.
  - intros now. clear Ho Hcomp Hidle. revert Hl Hsub. unfold lifecycle_ok, subscription_ok.
    fm_world w. cbn. intros Hl (-> & Hu & Hf).
    destruct first, st, t0, unsub; try done; fm_run; fm_sub; calls_tac;
      try (by destruct Hu as [Hu1 Hu2];
           first [specialize (Hu1 eq_refl)|specialize (Hu2 eq_refl)]).
  - intros now chunk. clear Ho Hcomp Hidle. revert Hl Hsub.
    unfold lifecycle_ok, subscription_ok.
    fm_world w. cbn. intros Hl (-> & Hu & Hf).
    destruct first, st, t0, unsub; try done; fm_run; fm_sub; calls_tac;
      try (by destruct Hu as [Hu1 Hu2];
           first [specialize (Hu1 eq_refl)|specialize (Hu2 eq_refl)]);
      try (by specialize (Hf eq_refl)).
  - clear Ho Hcomp Hidle. revert Hl Hsub. unfold lifecycle_ok, subscription_ok.
    fm_world w. cbn. intros Hl (-> & Hu & Hf).
    destruct first, st, t0, unsub; try done; fm_run; fm_sub; calls_tac;
      try (by destruct Hu as [Hu1 Hu2];
           first [specialize (Hu1 eq_refl)|specialize (Hu2 eq_refl)]).
  - intros now. clear Ho Hcomp Hidle. revert Hl Hsub. unfold lifecycle_ok, subscription_ok.
    fm_world w. cbn. intros Hl (-> & Hu & Hf).
    destruct first, st, t0, unsub; try done; fm_run; fm_sub;
      (split; [calls_tac|intros; by simplify_eq]);
      try (by destruct Hu as [Hu1 Hu2];
           first [specialize (Hu1 eq_refl)|specialize (Hu2 eq_refl)]).
  - intros h now.
    unfold FlowManager.timerFire, StallDetector.fire, StallDetector.timerCallback.
    destruct (pending (FlowManager.timers w) !! h) as [delay|] eqn:Eh; cbn [fst snd];
      [|exists []; split; [calls_tac|by left]].
    destruct (StallDetector.lastChunkTime (FlowManager.stallDetector (FlowManager.fm w)))
      as [last|]; cbn [fst snd]; [|exists []; split; [calls_tac|by left]].
    destruct (Z.geb_spec (now - last)
                (StallDetector.thresholdMs (FlowManager.stallDetector (FlowManager.fm w))))
      as [Hge|Hlt]; cbn [fst snd]; [|exists []; split; [calls_tac|by left]].
    pose proof (fm_handleStall_spec (now - last) w) as (Hn & _).
    pose proof (fm_handleStall_events (now - last) w) as Hev.
    destruct (FlowManager.handleStall (now - last) w) as [w1 c]. cbn [fst snd] in Hn, Hev.
    subst c. destruct (StallDetector.scheduleStallCheck _ _) as [d' tm']. cbn [fst snd].
    eexists. split; [exact Hev|]. right. exists (now - last).
    destruct Hcomp as (_ & _ & _ & Hphr & Hthr). split; [lia|].
    destruct (FlowManager.enableFillers _ && _ && _) eqn:Econd; [|by left].
    pose proof (getFiller_budget (FlowManager.fillerInjector (FlowManager.fm w)))
      as (_ & _ & _ & Hin).
    destruct (FillerInjector.getFiller _).2 as [f|]; [|by left].
    case_bool_decide as Hf; [by left|]. right. exists f.
    split_and!; [rewrite <- Hphr; by apply Hin|done| |done].
    apply andb_prop in Econd as [[_ Hfirst]%andb_prop Hni].
    assert (FlowManager.startTime (FlowManager.fm w) ≠ None ∧ FlowManager.getState w ≠ INTERRUPTED)
      as [Hst Hnint].
    { split; intros Hx; rewrite Hidle in Eh by auto; by rewrite lookup_empty in Eh. }
    clear -Hl Hfirst Hst Hnint. revert Hl Hfirst Hst Hnint. unfold lifecycle_ok.
    fm_world w. cbn. by destruct first, st, t0.
  - intros l. split.
    + fm_world w. fm_run. by destruct (bool_decide (el_id l ∈ map el_id ls)).
    + fm_world w. by fm_run.
Qed.

(** X11.  What each operation delivers to the subscribed listeners, in order.
    [start()] delivers nothing; the first chunk of a session delivers the
    change to [SPEAKING], then [first-chunk], then [chunk-processed]; a later
    chunk delivers [chunk-processed] alone; a chunk after an interruption
    nothing; [interrupt()] in a live session delivers the change to
    [INTERRUPTED] and then [interrupted]; [complete()] delivers the change to
    [IDLE] (unless interrupted) and then [completed], whose statistics carry
    the duration since [start()]; a timer delivers nothing, or
    [stall-detected] with a duration of at least the threshold, followed by
    at most one [filler-injected] with a non-empty configured phrase, and
    that only while waiting.  Each event goes to every listener once, in
    subscription order. *)
Theorem manager_event_protocol (w : FlowManager.World) :
  reachable w →
  let ls := FlowManager.listeners (FlowManager.fm w) in
  let st := FlowManager.getState w in
  let calls := λ w', listener_calls (FlowManager.trace w') in
  (∀ now, calls (FlowManager.start now w).1 = calls w)
  ∧ (∀ now chunk,
       calls (FlowManager.processChunk now chunk w).1
       = calls w
         ++ deliveries ls
              match FlowManager.startTime (FlowManager.fm w), st with
              | Some _, WAITING =>
                  [EvStateChange WAITING SPEAKING; EvFirstChunk chunk;
                   EvChunkProcessed chunk]
              | Some _, SPEAKING => [EvChunkProcessed chunk]
              | _, _ => []
              end)
  ∧ calls (FlowManager.interrupt w).1
    = calls w
      ++ deliveries ls
           (if state_eqb st SPEAKING || state_eqb st WAITING
            then [EvStateChange st INTERRUPTED; EvInterrupted] else [])
  ∧ (∀ now,
       calls (FlowManager.complete now w).1
       = calls w
         ++ deliveries ls
              match FlowManager.startTime (FlowManager.fm w) with
              | Some t0 =>
                  (if state_eqb st INTERRUPTED then [] else [EvStateChange st IDLE])
                  ++ [EvCompleted (FlowManager.getStats (FlowManager.complete now w).1)]
              | None => []
              end
       ∧ ∀ t0, FlowManager.startTime (FlowManager.fm w) = Some t0 →
               totalDurationMs (FlowManager.getStats (FlowManager.complete now w).1)
               = now - t0)
  ∧ (∀ h now, ∃ evs,
       calls (FlowManager.timerFire h now w).1 = calls w ++ deliveries ls evs
       ∧ (evs = []
          ∨ ∃ elapsed,
              FlowManager.stallThresholdMs (FlowManager.config (FlowManager.fm w)) ≤ elapsed
              ∧ (evs = [EvStallDetected elapsed]
                 ∨ ∃ f, f ∈ FlowManager.fillerPhrases (FlowManager.config (FlowManager.fm w))
                        ∧ f ≠ ""
                        ∧ st = WAITING
                        ∧ evs = [EvStallDetected elapsed; EvFillerInjected f])))
  ∧ (∀ l, calls (FlowManager.on l w).1 = calls w
          ∧ calls (FlowManager.off l w).1 = calls w).
Proof. intros Hr. by apply fm_events, reachable_wf. Qed.

Lemma manager_event_protocol_witness :
  listener_calls
    (FlowManager.trace
       (FlowManager.processChunk 5 "hi"
          (FlowManager.run [FlowManager.OpOn recorder; FlowManager.OpStart 0]
             fresh_manager)).1)
  = [(1%nat, EvStateChange WAITING SPEAKING); (1%nat, EvFirstChunk "hi");
     (1%nat, EvChunkProcessed "hi")].
Proof.
  pose proof (manager_event_protocol _
                (run_reachable [FlowManager.OpOn recorder; FlowManager.OpStart 0]))
    as (_ & H & _).
  exact (H 5 "hi").
Defined.

(** ** The chunks of a session *)

(** The timer leaves the chunk statistics, the buffer and the heap
    alone. *)
Lemma fm_timerFire_chunks (h : nat) (now : Z) (w : FlowManager.World) :
  ∃ d' tm' sts' fi' tr',
    (FlowManager.timerFire h now w).1
    = FlowManager.set_timers tm'
        (FlowManager.set_trace tr'
           (FlowManager.set_fm
              (FlowManager.set_stallDetector d'
                 (FlowManager.set_stats sts'
                    (FlowManager.set_fillerInjector fi' (FlowManager.fm w)))) w))
    ∧ chunksProcessed sts' = chunksProcessed (FlowManager.stats (FlowManager.fm w))
    ∧ firstChunkTime sts' = firstChunkTime (FlowManager.stats (FlowManager.fm w)).
Proof.
  destruct (fm_timerFire_spec h now w) as (_ & w1 & d' & tm' & Hw1 & -> & _).
  destruct Hw1 as [->|[el ->]].
  - exists d', tm', (FlowManager.stats (FlowManager.fm w)),
      (FlowManager.fillerInjector (FlowManager.fm w)), (FlowManager.trace w).
    by fm_world w.
  - pose proof (fm_handleStall_spec el w) as (_ & Hfr & Hc & Hf & _).
    rewrite Hfr. do 5 eexists. split; [by fm_world w|]. by split.
Qed.

Lemma buffer_inv_closure (c : Z) (b : loc) (l : list string) (bm : BufferManager.t)
  (h : Heap) :
  buffer_inv c b l bm h →
  buffer_inv c b l bm {| arrays := arrays h; next_loc := S (next_loc h) |}.
Proof.
  intros (H1 & H2 & H3 & H4). unfold buffer_inv, read in *. cbn.
  split_and!; [done|done|lia|done].
Qed.

Lemma fm_step_session_inv (t0 : Z) (b : loc) (l : list (Z * string))
  (o : FlowManager.Op) (w : FlowManager.World) :
  0 < FlowManager.bufferSize (FlowManager.config (FlowManager.fm w)) →
  keeps_session o = true →
  session_inv t0 b l w →
  session_inv t0 b (l ++ chunks_of [o]) (FlowManager.step o w).1.
Proof.
  intros Hcap Hk. unfold session_inv.
  destruct o as [now|now chunk|now| |l'|l'|h now]; try discriminate Hk;
    cbn [FlowManager.step chunks_of omap]; rewrite ?app_nil_r.
  - (* processChunk *)
    fm_world w. cbn in Hcap |- *. intros (-> & -> & -> & Hn & Hft & Hbuf).
    pose proof (buffer_inv_add _ Hcap _ _ chunk _ _ Hbuf) as Hbuf'.
    destruct l as [|p l]; fm_run; fm_sub; cbn.
    + split_and!; try done. by rewrite Hn.
    + rewrite map_app in *. cbn in Hbuf'. split_and!; try done.
      rewrite Hn, length_app. cbn. lia.
  - (* on *)
    fm_world w. fm_run. by destruct (bool_decide (el_id l' ∈ map el_id ls)).
  - (* off *)
    fm_world w. by fm_run.
  - (* the timer *)
    destruct (fm_timerFire_chunks h now w) as (d' & tm' & sts' & fi' & tr' & -> & Hc & Hf).
    revert Hc Hf. fm_world w. cbn. by intros -> ->.
Qed.

Lemma fm_run_session_inv (t0 : Z) (b : loc) (l : list (Z * string))
  (ops : list FlowManager.Op) (w : FlowManager.World) :
  0 < FlowManager.bufferSize (FlowManager.config (FlowManager.fm w)) →
  Forall (λ o, keeps_session o = true) ops →
  session_inv t0 b l w →
  session_inv t0 b (l ++ chunks_of ops) (FlowManager.run ops w).
Proof.
  intros Hcap Hops. revert l w Hcap.
  induction Hops as [|o ops Ho _ IH]; intros l w Hcap Hinv.
  - cbn. by rewrite app_nil_r.
  - change (FlowManager.run (o :: ops) w)
      with (FlowManager.run ops (FlowManager.step o w).1).
    replace (l ++ chunks_of (o :: ops)) with ((l ++ chunks_of [o]) ++ chunks_of ops).
    + apply IH; [by rewrite fm_step_config|by apply fm_step_session_inv].
    + rewrite <- app_assoc. f_equal. unfold chunks_of. cbn. by destruct o.
Qed.

Lemma fm_start_session_inv (t0 : Z) (w : FlowManager.World) :
  fm_wf w →
  FlowManager.startTime (FlowManager.fm w) = None →
  session_inv t0 (next_loc (FlowManager.heap w)) [] (FlowManager.start t0 w).1.
Proof.
  intros ([Hl _] & _ & _ & (Hm & Hcap & _) & _) Hs. revert Hl Hm Hcap Hs.
  unfold lifecycle_ok, session_inv. fm_world w. cbn. intros Hl Hm Hcap ->.
  pose proof (buffer_inv_clear _ bm hp Hcap Hm) as Hbuf.
  apply buffer_inv_closure in Hbuf.
  destruct st; try discriminate Hl; fm_run; fm_sub; cbn; by split_and!.
Qed.

(** X12.  A session counts and keeps its chunks.  After [start()] at [t0] and
    any chunks, timers and (un)subscriptions, [chunksProcessed] is the number
    of chunks, [getBufferedChunks()] holds the last [bufferSize] of them in
    order, [firstChunkTime] is the delay of the first one since [start()],
    and the state is [WAITING] until the first chunk and [SPEAKING] from
    then on. *)
Theorem manager_session_chunks
  (w : FlowManager.World) (t0 : Z) (ops : list FlowManager.Op) :
  reachable w →
  FlowManager.startTime (FlowManager.fm w) = None →
  Forall (λ o, keeps_session o = true) ops →
  let w' := FlowManager.run ops (FlowManager.start t0 w).1 in
  let chunks := chunks_of ops in
  chunksProcessed (FlowManager.getStats w') = Z.of_nat (length chunks)
  ∧ FlowManager.bufferedChunks w'
    = map Some
        (drop (length chunks
               - Z.to_nat (FlowManager.bufferSize (FlowManager.config (FlowManager.fm w))))
           (map snd chunks))
  ∧ firstChunkTime (FlowManager.getStats w') = ((λ p, p.1 - t0) <$> head chunks)
  ∧ FlowManager.getState w' = (if chunks is [] then WAITING else SPEAKING)
  ∧ FlowManager.startTime (FlowManager.fm w') = Some t0.
Proof.
  intros Hr Hs Hops w' chunks. pose proof (reachable_wf w Hr) as Hwf.
  pose proof Hwf as (_ & _ & _ & (_ & Hcap & _) & _).
  pose proof (fm_start_session_inv t0 w Hwf Hs) as Hinv.
  assert (FlowManager.config (FlowManager.fm (FlowManager.start t0 w).1)
          = FlowManager.config (FlowManager.fm w)) as Hcfg
    by apply (fm_step_config (FlowManager.OpStart t0)).
  apply (fm_run_session_inv _ _ _ ops) in Hinv; [|by rewrite Hcfg|done].
  cbn [app] in Hinv. fold w' chunks in Hinv.
  destruct Hinv as (Ht & Hst & _ & Hn & Hft & Hbuf).
  assert (FlowManager.config (FlowManager.fm w') = FlowManager.config (FlowManager.fm w))
    as Hcfg' by (subst w'; by rewrite fm_run_config).
  rewrite Hcfg' in Hbuf. split_and!; try done.
  unfold FlowManager.bufferedChunks.
  rewrite (buffer_inv_snapshot _ Hcap _ _ _ _ Hbuf). by rewrite length_map.
Qed.

Lemma manager_session_chunks_witness :
  FlowManager.bufferedChunks
    (FlowManager.run
       [FlowManager.OpProcessChunk 30 "a"; FlowManager.OpTimerFire 1 800;
        FlowManager.OpProcessChunk 900 "b"]
       (FlowManager.start 10 fresh_manager).1)
  = [Some "a"; Some "b"].
Proof.
  apply (manager_session_chunks fresh_manager 10
           [FlowManager.OpProcessChunk 30 "a"; FlowManager.OpTimerFire 1 800;
            FlowManager.OpProcessChunk 900 "b"] (run_reachable [])).
  - reflexivity.
  - repeat constructor.
Defined.

(** ** The listener set *)

Lemma fm_step_calls (o : FlowManager.Op) (w : FlowManager.World) :
  fm_wf w →
  ∃ evs,
    listener_calls (FlowManager.trace (FlowManager.step o w).1)
    = listener_calls (FlowManager.trace w)
      ++ deliveries (FlowManager.listeners (FlowManager.fm w)) evs.
Proof.
  intros Hwf. destruct (fm_events w Hwf) as (H1 & H2 & H3 & H4 & H5 & H6).
  destruct o as [now|now chunk|now| |l|l|h now]; cbn [FlowManager.step].
  - exists []. by rewrite H1, deliveries_nil, app_nil_r.
  - eexists. apply H2.
  - eexists. apply H4.
  - eexists. apply H3.
  - exists []. by rewrite (proj1 (H6 l)), deliveries_nil, app_nil_r.
  - exists []. by rewrite (proj2 (H6 l)), deliveries_nil, app_nil_r.
  - destruct (H5 h now) as (evs & Hev & _). by exists evs.
Qed.

Lemma calls_of_deliveries (l : FlowEventListener) (ls : list FlowEventListener)
  (evs : list FlowEvent) :
  el_id l ∉ map el_id ls →
  filter (λ c, c.1 = el_id l) (deliveries ls evs) = [].
Proof.
  intros Hnot. induction evs as [|ev evs IH]; [done|].
  rewrite deliveries_cons, filter_app, IH, app_nil_r.
  clear IH. induction ls as [|l' ls IH]; [done|]. cbn [map] in *.
  apply not_elem_of_cons in Hnot as [Hne Hnot].
  rewrite filter_cons_False by (cbn; congruence). by apply IH.
Qed.

Lemma fm_step_unsubscribed (l : FlowEventListener) (o : FlowManager.Op)
  (w : FlowManager.World) :
  leaves_out l o = true →
  el_id l ∉ map el_id (FlowManager.listeners (FlowManager.fm w)) →
  el_id l ∉ map el_id (FlowManager.listeners (FlowManager.fm (FlowManager.step o w).1)).
Proof.
  destruct o as [now|now chunk|now| |l'|l'|h now]; cbn [FlowManager.step leaves_out].
  - intros _. fm_world w. destruct st, t0; by fm_run.
  - intros _. fm_world w. destruct first, st, t0; by fm_run.
  - intros _. fm_world w. destruct st, t0, unsub; by fm_run.
  - intros _. fm_world w. destruct st; by fm_run.
  - intros Hne%negb_true_iff%bool_decide_eq_false_1. fm_world w. fm_run.
    destruct (bool_decide (el_id l' ∈ map el_id ls)); cbn; [done|].
    intros Hnot. rewrite map_app, not_elem_of_app. split; [done|]. cbn.
    rewrite list_elem_of_singleton. congruence.
  - intros _. fm_world w. fm_run. intros Hnot.
    rewrite list_elem_of_fmap. intros (l2 & Hid & Hl2%list_elem_of_filter).
    apply Hnot. rewrite list_elem_of_fmap. exists l2. tauto.
  - intros _. destruct (fm_timerFire_frame h now w) as (d' & tm' & sts' & fi' & tr' & ->).
    by fm_world w.
Qed.

Lemma fm_run_unsubscribed (l : FlowEventListener) (ops : list FlowManager.Op)
  (w : FlowManager.World) :
  fm_wf w →
  el_id l ∉ map el_id (FlowManager.listeners (FlowManager.fm w)) →
  Forall (λ o, leaves_out l o = true) ops →
  calls_of l (FlowManager.trace (FlowManager.run ops w)) = calls_of l (FlowManager.trace w).
Proof.
  intros Hwf Hnot Hops. revert w Hwf Hnot.
  induction Hops as [|o ops Ho _ IH]; intros w Hwf Hnot; [done|].
  change (FlowManager.run (o :: ops) w)
    with (FlowManager.run ops (FlowManager.step o w).1).
  rewrite IH; [|by apply fm_step_wf|by apply fm_step_unsubscribed].
  destruct (fm_step_calls o w Hwf) as [evs Hev]. unfold calls_of.
  by rewrite Hev, filter_app, calls_of_deliveries, app_nil_r.
Qed.

(** X13.  The listeners form a set, as in the source's [Set]: no listener is
    held twice, subscribing a subscribed listener changes nothing, and after
    the function returned by [on()] has run, no event of whatever follows
    reaches the listener, until it is subscribed again. *)
Theorem manager_listener_set (w : FlowManager.World) (l : FlowEventListener) :
  reachable w →
  NoDup (map el_id (FlowManager.listeners (FlowManager.fm w)))
  ∧ el_id l ∈ map el_id (FlowManager.listeners (FlowManager.fm (FlowManager.on l w).1))
  ∧ (el_id l ∈ map el_id (FlowManager.listeners (FlowManager.fm w)) →
     (FlowManager.on l w).1 = w)
  ∧ (FlowManager.on l (FlowManager.on l w).1).1 = (FlowManager.on l w).1
  ∧ (el_id l ∉ map el_id (FlowManager.listeners (FlowManager.fm (FlowManager.off l w).1)))
  ∧ ∀ ops, Forall (λ o, leaves_out l o = true) ops →
           calls_of l (FlowManager.trace (FlowManager.run ops (FlowManager.off l w).1))
           = calls_of l (FlowManager.trace w).
Proof.
  intros Hr. pose proof (reachable_wf w Hr) as Hwf.
  pose proof Hwf as (_ & _ & Hnd & _).
  assert (el_id l ∈ map el_id (FlowManager.listeners (FlowManager.fm (FlowManager.on l w).1)))
    as Hin.
  { clear. fm_world w. fm_run.
    destruct (bool_decide_reflect (el_id l ∈ map el_id ls)); cbn; [done|].
    rewrite map_app, elem_of_app. right. cbn. apply list_elem_of_here. }
  assert (∀ w0, el_id l ∈ map el_id (FlowManager.listeners (FlowManager.fm w0)) →
                (FlowManager.on l w0).1 = w0) as Hsame.
  { clear. intros w0. fm_world w0. fm_run. intros Hin.
    by rewrite bool_decide_eq_true_2 by done. }
  assert (el_id l ∉ map el_id
            (FlowManager.listeners (FlowManager.fm (FlowManager.off l w).1))) as Hout.
  { clear. fm_world w. fm_run.
    rewrite list_elem_of_fmap. intros (l2 & Hid & Hl2%list_elem_of_filter). by destruct Hl2. }
  split_and!; try done; [by apply Hsame|by apply Hsame|].
  intros ops Hops.
  pose proof (fm_run_unsubscribed l ops _
                (fm_step_wf (FlowManager.OpOff l) w Hwf) Hout Hops) as Hrun.
  cbn [FlowManager.step] in Hrun. rewrite Hrun.
  clear. fm_world w. by fm_run.
Qed.

Lemma manager_listener_set_witness :
  calls_of recorder
    (FlowManager.trace
       (FlowManager.run [FlowManager.OpProcessChunk 20 "b"; FlowManager.OpComplete 30]
          (FlowManager.off recorder
             (FlowManager.run
                [FlowManager.OpOn recorder; FlowManager.OpStart 0;
                 FlowManager.OpProcessChunk 10 "a"] fresh_manager)).1))
  = calls_of recorder
      (FlowManager.trace
         (FlowManager.run
            [FlowManager.OpOn recorder; FlowManager.OpStart 0;
             FlowManager.OpProcessChunk 10 "a"] fresh_manager)).
Proof.
  apply (manager_listener_set _ recorder
           (run_reachable [FlowManager.OpOn recorder; FlowManager.OpStart 0;
                           FlowManager.OpProcessChunk 10 "a"])).
  repeat constructor.
Defined.

(** ** Snapshots stay as they were *)

Lemma add_heap (x : string) (bm : BufferManager.t) (h : Heap) :
  BufferManager.buffer (BufferManager.add x bm h).1 = BufferManager.buffer bm
  ∧ next_loc (BufferManager.add x bm h).2 = next_loc h
  ∧ ∀ l, l ≠ BufferManager.buffer bm → read l (BufferManager.add x bm h).2 = read l h.
Proof.
  unfold BufferManager.add. case_match; cbn; split_and!; try done;
    intros l Hl; by rewrite read_write_ne.
Qed.

Lemma clear_heap (bm : BufferManager.t) (h : Heap) :
  BufferManager.buffer (BufferManager.clear bm h).1 = next_loc h
  ∧ next_loc (BufferManager.clear bm h).2 = S (next_loc h)
  ∧ ∀ l, l ≠ next_loc h → read l (BufferManager.clear bm h).2 = read l h.
Proof.
  unfold BufferManager.clear. cbn. split_and!; try done.
  intros l Hl. unfold read. cbn. by rewrite lookup_insert_ne.
Qed.

Lemma fm_step_handed_out (l : loc) (o : FlowManager.Op) (w : FlowManager.World) :
  handed_out l w →
  handed_out l (FlowManager.step o w).1
  ∧ read l (FlowManager.heap (FlowManager.step o w).1) = read l (FlowManager.heap w).
Proof.
  unfold handed_out.
  destruct o as [now|now chunk|now| |l'|l'|h now]; cbn [FlowManager.step].
  - fm_world w. cbn. intros [Hlt Hne].
    destruct (clear_heap bm hp) as (Hb & Hn & Hr).
    destruct st, t0; fm_run; rewrite ?Hb, ?Hn; split_and!; try done; try lia;
      try (rewrite <- (Hr l) by lia; done).
  - fm_world w. cbn. intros [Hlt Hne].
    destruct (add_heap chunk bm hp) as (Hb & Hn & Hr).
    destruct first, st, t0; fm_run; rewrite ?Hb, ?Hn; split_and!; try done; by apply Hr.
  - fm_world w. destruct st, t0, unsub; by fm_run.
  - fm_world w. cbn. intros [Hlt Hne].
    destruct (clear_heap bm hp) as (Hb & Hn & Hr).
    destruct st; fm_run; rewrite ?Hb, ?Hn; split_and!; try done; try lia;
      by apply Hr; lia.
  - fm_world w. fm_run. by destruct (bool_decide (el_id l' ∈ map el_id ls)).
  - fm_world w. by fm_run.
  - destruct (fm_timerFire_frame h now w) as (d' & tm' & sts' & fi' & tr' & ->).
    by fm_world w.
Qed.

Lemma fm_run_handed_out (l : loc) (ops : list FlowManager.Op) (w : FlowManager.World) :
  handed_out l w →
  read l (FlowManager.heap (FlowManager.run ops w)) = read l (FlowManager.heap w).
Proof.
  revert w. induction ops as [|o ops IH]; intros w Hl; [done|].
  change (FlowManager.run (o :: ops) w)
    with (FlowManager.run ops (FlowManager.step o w).1).
  destruct (fm_step_handed_out l o w Hl) as [Hl' Hr]. by rewrite IH.
Qed.

Lemma fm_step_allocated (o : FlowManager.Op) (w : FlowManager.World) :
  buffer_allocated w → buffer_allocated (FlowManager.step o w).1.
Proof.
  unfold buffer_allocated.
  destruct o as [now|now chunk|now| |l'|l'|h now]; cbn [FlowManager.step].
  - fm_world w. cbn. intros Hlt.
    destruct (clear_heap bm hp) as (Hb & Hn & Hr).
    destruct st, t0; fm_run; rewrite ?Hb, ?Hn; try done; lia.
  - fm_world w. cbn. intros Hlt.
    destruct (add_heap chunk bm hp) as (Hb & Hn & Hr).
    destruct first, st, t0; fm_run; rewrite ?Hb, ?Hn; done.
  - fm_world w. destruct st, t0, unsub; by fm_run.
  - fm_world w. cbn. intros Hlt.
    destruct (clear_heap bm hp) as (Hb & Hn & Hr).
    destruct st; fm_run; rewrite ?Hb, ?Hn; try done; lia.
  - fm_world w. fm_run. by destruct (bool_decide (el_id l' ∈ map el_id ls)).
  - fm_world w. by fm_run.
  - destruct (fm_timerFire_frame h now w) as (d' & tm' & sts' & fi' & tr' & ->).
    by fm_world w.
Qed.

Lemma reachable_allocated (w : FlowManager.World) : reachable w → buffer_allocated w.
Proof.
  intros (c & h & h0 & m & ops & Hc & ->).
  assert (buffer_allocated (FlowManager.init m h0)) as Hinit.
  { unfold FlowManager.create, BufferManager.create, alloc in Hc. cbv zeta in Hc.
    destruct (FlowManager.bufferSize (FlowManager.resolve c) <=? 0); cbn in Hc;
      simplify_eq.
    unfold buffer_allocated. cbn. lia. }
  revert Hinit. generalize (FlowManager.init m h0). clear.
  induction ops as [|o ops IH]; intros w Hw; [done|].
  change (FlowManager.run (o :: ops) w)
    with (FlowManager.run ops (FlowManager.step o w).1).
  by apply IH, fm_step_allocated.
Qed.

(** X14.  The array that [getBufferedChunks()] returns is the caller's: it
    holds the buffered chunks of that moment, and no later operation on the
    manager (more chunks, an interruption, a new session) changes it. *)
Theorem manager_snapshot_stable (w : FlowManager.World) (ops : list FlowManager.Op) :
  reachable w →
  let g := FlowManager.getBufferedChunks w in
  ∃ l, g.2 = Normal l
       ∧ read l (FlowManager.heap g.1) = FlowManager.bufferedChunks w
       ∧ read l (FlowManager.heap (FlowManager.run ops g.1)) = FlowManager.bufferedChunks w.
Proof.
  intros Hr g. pose proof (reachable_allocated w Hr) as Ha.
  exists (BufferManager.getAll (FlowManager.bufferManager (FlowManager.fm w))
            (FlowManager.heap w)).1.
  assert (handed_out
            (BufferManager.getAll (FlowManager.bufferManager (FlowManager.fm w))
               (FlowManager.heap w)).1 g.1) as Hout.
  { subst g. revert Ha. unfold handed_out, buffer_allocated, FlowManager.getBufferedChunks,
      BufferManager.getAll. fm_world w. cbn. case_match; cbn; lia. }
  assert (read
            (BufferManager.getAll (FlowManager.bufferManager (FlowManager.fm w))
               (FlowManager.heap w)).1 (FlowManager.heap g.1)
          = FlowManager.bufferedChunks w) as Hsnap.
  { subst g. unfold FlowManager.bufferedChunks, BufferManager.snapshot,
      FlowManager.getBufferedChunks. cbn [fst snd FlowManager.heap FlowManager.set_heap].
    by destruct (BufferManager.getAll _ _). }
  split_and!; [done|done|].
  by rewrite (fm_run_handed_out _ ops g.1 Hout).
Qed.

Lemma manager_snapshot_stable_witness :
  ∃ l, (FlowManager.getBufferedChunks
          (FlowManager.run [FlowManager.OpStart 0; FlowManager.OpProcessChunk 5 "a"]
             fresh_manager)).2 = Normal l
       ∧ read l
           (FlowManager.heap
              (FlowManager.run [FlowManager.OpProcessChunk 9 "b"; FlowManager.OpInterrupt]
                 (FlowManager.getBufferedChunks
                    (FlowManager.run
                       [FlowManager.OpStart 0; FlowManager.OpProcessChunk 5 "a"]
                       fresh_manager)).1))
         = [Some "a"].
Proof.
  destruct (manager_snapshot_stable
              (FlowManager.run [FlowManager.OpStart 0; FlowManager.OpProcessChunk 5 "a"]
                 fresh_manager)
              [FlowManager.OpProcessChunk 9 "b"; FlowManager.OpInterrupt]
              (run_reachable [FlowManager.OpStart 0; FlowManager.OpProcessChunk 5 "a"]))
    as (l & H1 & _ & H2).
  exists l. split; [exact H1|exact H2].
Defined.

(** * Further properties of the stream-wrapping orchestrator *)

Lemma fc_timerFire_detail (h : nat) (now : Z) (w : FlowController.World) :
  ∃ w1 d' tm',
    (w1 = w ∨ ∃ el, w1 = (FlowController.handleStall el w).1)
    ∧ (FlowController.timerFire h now w).1
      = FlowController.set_timers tm'
          (FlowController.set_fc
             (FlowController.set_stallDetector d' (FlowController.fc w1)) w1)
    ∧ ((d', tm') = (FlowController.stallDetector (FlowController.fc w),
                    FlowController.timers w)
       ∨ (d', tm') = (FlowController.stallDetector (FlowController.fc w),
                      clearTimeout h (FlowController.timers w))
       ∨ (d', tm') = StallDetector.scheduleStallCheck
                       (FlowController.stallDetector (FlowController.fc w))
                       (clearTimeout h (FlowController.timers w))).
Proof.
  unfold FlowController.timerFire, StallDetector.fire, StallDetector.timerCallback.
  destruct (pending (FlowController.timers w) !! h) as [delay|]; cbn [fst snd];
    [|by eauto 10].
  destruct (StallDetector.lastChunkTime _) as [last|]; cbn [fst snd]; [|by eauto 10].
  destruct (now - last >=? _); cbn [fst snd]; [|by eauto 10].
  destruct (FlowController.handleStall (now - last) w) as [w1 [u|e]] eqn:Eh.
  - destruct (StallDetector.scheduleStallCheck _ _) as [d' tm'] eqn:Es. cbn [fst snd].
    exists w1, d', tm'. split_and!; [|done|auto]. right. exists (now - last). by rewrite Eh.
  - cbn [fst snd]. do 3 eexists. split_and!; [|done|auto]. right. exists (now - last).
    by rewrite Eh.
Qed.

(** The timer touches the detector, the timers, the statistics (but not
    the chunk counts), the injector and the trace, and nothing else. *)
Lemma fc_timerFire_frame (h : nat) (now : Z) (w : FlowController.World) :
  ∃ d' tm' sts' fi' tr',
    (FlowController.timerFire h now w).1
    = FlowController.set_timers tm'
        (FlowController.set_trace tr'
           (FlowController.set_fc
              (FlowController.set_stallDetector d'
                 (FlowController.set_stats sts'
                    (FlowController.set_fillerInjector fi' (FlowController.fc w)))) w))
    ∧ chunksProcessed sts' = chunksProcessed (FlowController.stats (FlowController.fc w))
    ∧ firstChunkTime sts' = firstChunkTime (FlowController.stats (FlowController.fc w))
    ∧ (timers_owned
         (FlowController.stallDetector (FlowController.fc w)) (FlowController.timers w) →
       timers_owned d' tm').
Proof.
  destruct (fc_timerFire_detail h now w) as (w1 & d' & tm' & Hw1 & -> & Hd).
  assert (timers_owned
            (FlowController.stallDetector (FlowController.fc w)) (FlowController.timers w) →
          timers_owned d' tm') as Hown.
  { intros Ho. destruct Hd as [[= -> ->]|[[= -> ->]|Hd]];
      [done|by apply owned_clearTimeout|].
    pose proof (owned_schedule _ _ (owned_clearTimeout _ _ h Ho)) as Hs.
    by rewrite <- Hd in Hs. }
  destruct Hw1 as [->|[el ->]].
  - exists d', tm', (FlowController.stats (FlowController.fc w)),
      (FlowController.fillerInjector (FlowController.fc w)), (FlowController.trace w).
    split_and!; try done; by fc_world w.
  - pose proof (fc_handleStall_spec el w) as (Hfr & Hc & Hf & _).
    rewrite Hfr. do 5 eexists. split_and!; [by fc_world w|done|done|done].
Qed.

(** ** What every reachable controller satisfies *)

Lemma fc_handleStall_wf (d : Z) (w : FlowController.World) :
  FillerInjector.maxFillers
    (FlowController.fillerInjector (FlowController.fc (FlowController.handleStall d w).1))
  = FillerInjector.maxFillers (FlowController.fillerInjector (FlowController.fc w))
  ∧ (budget_ok (FlowController.fillerInjector (FlowController.fc w))
       (FlowController.stats (FlowController.fc w)) (FlowController.getState w) →
     budget_ok
       (FlowController.fillerInjector (FlowController.fc (FlowController.handleStall d w).1))
       (FlowController.stats (FlowController.fc (FlowController.handleStall d w).1))
       (FlowController.getState w)).
Proof.
  fc_world w. destruct cfg as [thr phr en mx cb1 cb2 cb3].
  pose proof (getFiller_budget fi) as (Hg1 & Hg2 & Hg3 & _).
  unfold budget_ok.
  destruct first, st, en; fc_exec;
    try destruct (truthy (FillerInjector.getFiller fi).2) eqn:Et; cbn;
    try destruct (cb1 _); cbn; try destruct (cb2 _); cbn.
  all: split; [done|]; try done.
  all: intros (H1 & H2 & H3); rewrite ?Hg1.
  all: destruct Hg3 as [[Hu Hn]|[Hu Hlt]]; try (by rewrite Hn in Et).
  all: try (assert (fillersInjected sts ≤ FillerInjector.fillersUsed fi) as Hle
              by (apply H3; discriminate)).
  all: rewrite Hu; split_and!; try lia; intros Hne; try specialize (H3 Hne); lia.
Qed.

Ltac fc_wf_tac :=
  unfold fc_wf; cbn;
  intros (Ho & Hm & Hf & Hb);
  split_and!;
    [ first [ done | by apply owned_stop | by apply owned_start
            | by apply owned_notifyChunk
            | by apply owned_stop, owned_notifyChunk ]
    | by rewrite ?add_maxSize
    | done
    | first [ done | apply budget_fresh | by eapply budget_reset
            | (destruct Hb as (H1 & H2 & H3); unfold budget_ok; cbn;
               split_and!; try lia; intros Hne; apply H3; discriminate) ] ].

Lemma fc_handleStall_frame (d : Z) (w : FlowController.World) :
  ∃ sts' fi' tr',
    (FlowController.handleStall d w).1
    = FlowController.set_trace tr'
        (FlowController.set_fc
           (FlowController.set_stats sts'
              (FlowController.set_fillerInjector fi' (FlowController.fc w))) w)
    ∧ FillerInjector.maxFillers fi'
      = FillerInjector.maxFillers (FlowController.fillerInjector (FlowController.fc w))
    ∧ (budget_ok (FlowController.fillerInjector (FlowController.fc w))
         (FlowController.stats (FlowController.fc w)) (FlowController.getState w) →
       budget_ok fi' sts' (FlowController.getState w)).
Proof.
  pose proof (fc_handleStall_spec d w) as (Hfr & _).
  pose proof (fc_handleStall_wf d w) as [Hmax Hbud].
  by do 3 eexists.
Qed.

Lemma fc_timerFire_wf (h : nat) (now : Z) (w : FlowController.World) :
  fc_wf w → fc_wf (FlowController.timerFire h now w).1.
Proof.
  destruct (fc_timerFire_detail h now w) as (w1 & d' & tm' & Hw1 & -> & Hd).
  intros (Ho & Hm & Hf & Hb).
  assert (timers_owned d' tm') as Hown.
  { destruct Hd as [[= -> ->]|[[= -> ->]|Hd]]; [done|by apply owned_clearTimeout|].
    pose proof (owned_schedule _ _ (owned_clearTimeout _ _ h Ho)) as Hs.
    by rewrite <- Hd in Hs. }
  clear Hd Ho. destruct Hw1 as [->|[el ->]].
  - revert Hm Hf Hb. unfold fc_wf. fc_world w. cbn. by intros; split_and!.
  - destruct (fc_handleStall_frame el w) as (sts' & fi' & tr' & -> & Hmax & Hbud).
    specialize (Hbud Hb). revert Hm Hf Hmax Hbud. unfold fc_wf. fc_world w. cbn.
    intros. split_and!; try done. congruence.
Qed.

Lemma fc_wrap_wf (now : Z) (w : FlowController.World) :
  fc_wf w → fc_wf (FlowController.world (FlowController.wrap now w)).
Proof.
  unfold FlowController.wrap. fc_world w.
  destruct st; fc_run; fc_wf_tac.
Qed.

Lemma fc_step_wf (o : FlowController.Op) (it : FlowController.Iteration) :
  fc_wf (FlowController.world it) →
  fc_wf (FlowController.world (FlowController.step o it)).
Proof.
  destruct it as [w rn yl rs].
  destruct o as [now chunk|now|now e|now| |h now]; cbn [FlowController.step];
    try (destruct rn; [|done]);
    unfold FlowController.resume, FlowController.on_world; cbn [FlowController.world
      FlowController.running FlowController.yielded FlowController.raised].
  - fc_world w. destruct cfg as [thr phr en mx cb1 cb2 cb3].
    destruct first, st, cb3; fc_run; fc_wf_tac.
  - fc_world w. destruct st; fc_run; fc_wf_tac.
  - fc_world w. fc_run; fc_wf_tac.
  - fc_world w. fc_run; fc_wf_tac.
  - fc_world w. destruct st; fc_run; fc_wf_tac.
  - apply fc_timerFire_wf.
Qed.

Lemma fc_run_wf (ops : list FlowController.Op) (it : FlowController.Iteration) :
  fc_wf (FlowController.world it) →
  fc_wf (FlowController.world (FlowController.run ops it)).
Proof.
  revert it. induction ops as [|o ops IH]; intros it Hwf; [done|].
  change (FlowController.run (o :: ops) it)
    with (FlowController.run ops (FlowController.step o it)).
  apply IH. by apply fc_step_wf.
Qed.

Lemma fc_sessions_wf (ss : list Session) (w : FlowController.World) :
  fc_wf w → fc_wf (fc_sessions ss w).
Proof.
  revert w. induction ss as [|s ss IH]; intros w Hwf; [done|].
  cbn. apply IH. by apply fc_run_wf, fc_wrap_wf.
Qed.

Lemma fc_init_wf (c : FlowController.FlowConfig) (h h' : Heap) (m : FlowController.t) :
  FlowController.create c h = (h', Normal m) → fc_wf (FlowController.init m h').
Proof.
  unfold FlowController.create, BufferManager.create. cbn. intros [= <- <-].
  split_and!; try done.
  - intros k Hk. cbn in Hk. rewrite lookup_empty in Hk. by destruct Hk.
  - unfold budget_ok. cbn. lia.
Qed.

Lemma fc_reachable_wf (w : FlowController.World) : fc_reachable w → fc_wf w.
Proof.
  intros (c & h & h0 & m & ss & Hc & ->). apply fc_sessions_wf. by eapply fc_init_wf.
Qed.

(** ** A stream that is read to its end *)

Lemma fc_step_stream_inv (t0 : Z) (b : loc) (l : list (Z * string))
  (o : FlowController.Op) (it : FlowController.Iteration) :
  delivers o = true →
  stream_inv t0 b l it →
  stream_inv t0 b (l ++ stream_chunks [o]) (FlowController.step o it).
Proof.
  intros Hd. unfold stream_inv. destruct it as [w rn yl rs].
  destruct o as [now chunk|now|now e|now| |h now]; try discriminate Hd;
    cbn [FlowController.step stream_chunks omap FlowController.world
         FlowController.running FlowController.yielded FlowController.raised];
    rewrite ?app_nil_r.
  - (* a chunk *)
    fc_world w. destruct cfg as [thr phr en mx cb1 cb2 cb3]. cbn.
    intros (-> & -> & -> & -> & -> & -> & Hn & Hft & Hbuf & Ho & ->).
    pose proof (buffer_inv_add 10 ltac:(lia) _ _ chunk _ _ Hbuf) as Hbuf'.
    pose proof (owned_notifyChunk now _ _ Ho) as Ho'.
    destruct l as [|p l]; fc_run; unfold FlowController.resume; cbn.
    + split_and!; try done. by rewrite Hn.
    + rewrite map_app in *. cbn in Hbuf'. split_and!; try done.
      rewrite Hn, length_app. cbn. lia.
  - (* the timer *)
    unfold FlowController.on_world.
    cbn [FlowController.world FlowController.running FlowController.yielded
         FlowController.raised].
    destruct (fc_timerFire_frame h now w)
      as (d' & tm' & sts' & fi' & tr' & -> & Hc & Hf & Hown).
    revert Hc Hf Hown. fc_world w. cbn. intros -> -> Hown.
    intros (Hrn & Hrs & Hyl & Hst & Hstate & Hfirst & Hn & Hft & Hbuf & Ho & Hcb).
    split_and!; auto.
Qed.

Lemma fc_run_stream_inv (t0 : Z) (b : loc) (l : list (Z * string))
  (ops : list FlowController.Op) (it : FlowController.Iteration) :
  Forall (λ o, delivers o = true) ops →
  stream_inv t0 b l it →
  stream_inv t0 b (l ++ stream_chunks ops) (FlowController.run ops it).
Proof.
  intros Hops. revert l it.
  induction Hops as [|o ops Ho _ IH]; intros l it Hinv.
  - cbn. by rewrite app_nil_r.
  - change (FlowController.run (o :: ops) it)
      with (FlowController.run ops (FlowController.step o it)).
    replace (l ++ stream_chunks (o :: ops))
      with ((l ++ stream_chunks [o]) ++ stream_chunks ops).
    + apply IH. by apply fc_step_stream_inv.
    + rewrite <- app_assoc. f_equal. unfold stream_chunks. cbn. by destruct o.
Qed.

Lemma fc_wrap_stream_inv (t0 : Z) (w : FlowController.World) :
  fc_wf w →
  FlowController.getState w = IDLE ∨ FlowController.getState w = INTERRUPTED →
  FlowController.onFirstChunk (FlowController.config (FlowController.fc w)) = None →
  stream_inv t0 (next_loc (FlowController.heap w)) [] (FlowController.wrap t0 w).
Proof.
  intros (Ho & Hm & _) Hst Hcb. revert Ho Hm Hst Hcb.
  unfold stream_inv, FlowController.wrap. fc_world w. cbn. intros Ho Hm Hst Hcb.
  pose proof (buffer_inv_clear 10 bm hp ltac:(lia) Hm) as Hbuf.
  pose proof (owned_start t0 _ _ Ho) as Ho'.
  destruct Hst as [->| ->]; fc_run; by split_and!.
Qed.

Lemma fc_end_stream (t0 tend : Z) (b : loc) (l : list (Z * string))
  (it : FlowController.Iteration) :
  stream_inv t0 b l it →
  let it' := FlowController.step (FlowController.OpEnd tend) it in
  FlowController.yielded it' = map snd l
  ∧ FlowController.raised it' = None
  ∧ FlowController.running it' = false
  ∧ FlowController.getState (FlowController.world it') = IDLE
  ∧ chunksProcessed (FlowController.getStats (FlowController.world it'))
    = Z.of_nat (length l)
  ∧ firstChunkTime (FlowController.getStats (FlowController.world it'))
    = ((λ p, p.1 - t0) <$> head l)
  ∧ totalDurationMs (FlowController.getStats (FlowController.world it')) = tend - t0
  ∧ FlowController.bufferedChunks (FlowController.world it')
    = map Some (drop (length l - 10) (map snd l))
  ∧ pending (FlowController.timers (FlowController.world it')) = ∅.
Proof.
  unfold stream_inv. destruct it as [w rn yl rs].
  cbn [FlowController.step FlowController.world FlowController.running
       FlowController.yielded FlowController.raised].
  fc_world w. cbn.
  intros (-> & -> & -> & -> & -> & -> & Hn & Hft & Hbuf & Ho & Hcb).
  pose proof (buffer_inv_snapshot 10 ltac:(lia) _ _ _ _ Hbuf) as Hsnap.
  rewrite length_map in Hsnap.
  destruct (owned_stop _ _ Ho) as [He _].
  destruct l as [|p l]; fc_run; unfold FlowController.resume; cbn;
    split_and!; try done; lia.
Qed.

(** X15.  A stream that is read to its end passes through unchanged.  On a
    controller at rest whose [onFirstChunk] does not throw, whatever the
    timers do in between, the wrapped stream yields exactly the chunks of
    the input, in order, and then ends without an error; afterwards the state
    is [IDLE], no timer is pending, [chunksProcessed] is the number of chunks,
    [firstChunkTime] the delay of the first, [totalDurationMs] the time since
    [wrap] began, and the buffer holds the last ten chunks. *)
Theorem controller_passthrough
  (w : FlowController.World) (t0 tend : Z) (ops : list FlowController.Op) :
  fc_reachable w →
  FlowController.getState w = IDLE ∨ FlowController.getState w = INTERRUPTED →
  FlowController.onFirstChunk (FlowController.config (FlowController.fc w)) = None →
  Forall (λ o, delivers o = true) ops →
  let it := FlowController.run (ops ++ [FlowController.OpEnd tend])
              (FlowController.wrap t0 w) in
  let chunks := stream_chunks ops in
  FlowController.yielded it = map snd chunks
  ∧ FlowController.raised it = None
  ∧ FlowController.running it = false
  ∧ FlowController.getState (FlowController.world it) = IDLE
  ∧ chunksProcessed (FlowController.getStats (FlowController.world it))
    = Z.of_nat (length chunks)
  ∧ firstChunkTime (FlowController.getStats (FlowController.world it))
    = ((λ p, p.1 - t0) <$> head chunks)
  ∧ totalDurationMs (FlowController.getStats (FlowController.world it)) = tend - t0
  ∧ FlowController.bufferedChunks (FlowController.world it)
    = map Some (drop (length chunks - 10) (map snd chunks))
  ∧ pending (FlowController.timers (FlowController.world it)) = ∅.
Proof.
  intros Hr Hst Hcb Hops it chunks. pose proof (fc_reachable_wf w Hr) as Hwf.
  pose proof (fc_wrap_stream_inv t0 w Hwf Hst Hcb) as Hinv.
  apply (fc_run_stream_inv _ _ _ ops) in Hinv; [|done]. cbn [app] in Hinv.
  fold chunks in Hinv.
  pose proof (fc_end_stream t0 tend _ _ _ Hinv) as Hend. cbn zeta in Hend.
  subst it. unfold FlowController.run in *. rewrite foldl_app. exact Hend.
Qed.

Lemma fc_sessions_reachable (ss : list Session) :
  fc_reachable (fc_sessions ss fresh_controller).
Proof.
  exists FlowController.no_config, heap_empty, (alloc [] heap_empty).2,
    (FlowController.fc fresh_controller), ss. split; reflexivity.
Defined.

Lemma controller_passthrough_witness :
  FlowController.yielded
    (FlowController.run
       ([FlowController.OpTimerFire 0 700; FlowController.OpChunk 710 "a";
         FlowController.OpChunk 720 "b"] ++ [FlowController.OpEnd 730])
       (FlowController.wrap 0 fresh_controller))
  = ["a"; "b"].
Proof.
  apply (controller_passthrough fresh_controller 0 730
           [FlowController.OpTimerFire 0 700; FlowController.OpChunk 710 "a";
            FlowController.OpChunk 720 "b"] (fc_sessions_reachable [])).
  - by left.
  - reflexivity.
  - repeat constructor.
Defined.

(** ** The filler budget of a controller *)

Lemma fc_step_config (o : FlowController.Op) (it : FlowController.Iteration) :
  FlowController.config (FlowController.fc (FlowController.world (FlowController.step o it)))
  = FlowController.config (FlowController.fc (FlowController.world it)).
Proof.
  destruct it as [w rn yl rs].
  destruct o as [now chunk|now|now e|now| |h now]; cbn [FlowController.step];
    try (destruct rn; [|done]);
    unfold FlowController.resume, FlowController.on_world; cbn [FlowController.world
      FlowController.running FlowController.yielded FlowController.raised].
  - fc_world w. destruct cfg as [thr phr en mx cb1 cb2 cb3].
    by destruct first, st, cb3; fc_run.
  - fc_world w. by destruct st; fc_run.
  - fc_world w. by fc_run.
  - fc_world w. by fc_run.
  - fc_world w. by destruct st; fc_run.
  - destruct (fc_timerFire_frame h now w) as (d' & tm' & sts' & fi' & tr' & -> & _).
    by fc_world w.
Qed.

Lemma fc_sessions_config (ss : list Session) (w : FlowController.World) :
  FlowController.config (FlowController.fc (fc_sessions ss w))
  = FlowController.config (FlowController.fc w).
Proof.
  revert w. induction ss as [|[now ops] ss IH]; intros w; [done|].
  change (fc_sessions ((now, ops) :: ss) w)
    with (fc_sessions ss
            (FlowController.world (FlowController.run ops (FlowController.wrap now w)))).
  rewrite IH. clear IH.
  assert (∀ it, FlowController.config
                  (FlowController.fc (FlowController.world (FlowController.run ops it)))
                = FlowController.config (FlowController.fc (FlowController.world it)))
    as Hrun.
  { induction ops as [|o ops IH]; intros it; [done|].
    change (FlowController.run (o :: ops) it)
      with (FlowController.run ops (FlowController.step o it)).
    by rewrite IH, fc_step_config. }
  rewrite Hrun. unfold FlowController.wrap. fc_world w. by destruct st; fc_run.
Qed.

(** X16.  The statistics of a controller never count more fillers than the
    configuration allows: after construction from [c] and any iterations,
    with timers, interruptions, failing callbacks and abandoned streams,
    [fillersInjected] lies between zero and [maxFillersPerResponse] (zero
    for a negative limit). *)
Theorem controller_filler_budget
  (c : FlowController.FlowConfig) (h h0 : Heap) (m : FlowController.t)
  (ss : list Session) :
  FlowController.create c h = (h0, Normal m) →
  let w := fc_sessions ss (FlowController.init m h0) in
  let limit := Z.max 0 (default DEFAULT_MAX_FILLERS_PER_RESPONSE
                          (FlowController.cfg_maxFillersPerResponse c)) in
  0 ≤ fillersInjected (FlowController.getStats w) ≤ limit
  ∧ 0 ≤ FillerInjector.getUsedCount (FlowController.fillerInjector (FlowController.fc w))
      ≤ limit.
Proof.
  intros Hc w limit.
  assert (fc_reachable w) as Hr by (by exists c, h, h0, m, ss).
  destruct (fc_reachable_wf w Hr) as (_ & _ & Hmax & Hu & Hi & _).
  assert (FlowController.config (FlowController.fc w) = FlowController.resolve c) as Hcfg.
  { subst w. rewrite fc_sessions_config. cbn. revert Hc. unfold FlowController.create.
    destruct (BufferManager.create _ h) as [h1 [bm|e]]; by intros [= <- <-]. }
  rewrite Hmax, Hcfg in Hu, Hi. by split.
Qed.

Lemma controller_filler_budget_witness :
  fillersInjected
    (FlowController.getStats
       (fc_sessions
          [(0, [FlowController.OpTimerFire 0 700; FlowController.OpTimerFire 1 1400;
                FlowController.OpChunk 1500 "a"; FlowController.OpEnd 1600])]
          fresh_controller))
  ≤ Z.max 0 (default DEFAULT_MAX_FILLERS_PER_RESPONSE
               (FlowController.cfg_maxFillersPerResponse FlowController.no_config)).
Proof.
  apply (controller_filler_budget FlowController.no_config heap_empty
           (alloc [] heap_empty).2 (FlowController.fc fresh_controller)
           [(0, [FlowController.OpTimerFire 0 700; FlowController.OpTimerFire 1 1400;
                 FlowController.OpChunk 1500 "a"; FlowController.OpEnd 1600])]).
  reflexivity.
Defined.

(** ** An iteration that is not read to its end *)






(** ** Errors of a stream *)

Lemma fc_input_error_stream (t0 now : Z) (e : exn) (b : loc) (l : list (Z * string))
  (it : FlowController.Iteration) :
  stream_inv t0 b l it →
  let it' := FlowController.step (FlowController.OpInputError now e) it in
  FlowController.raised it' = Some (FlowController.stream_error e)
  ∧ FlowController.running it' = false
  ∧ FlowController.yielded it' = map snd l
  ∧ FlowController.getState (FlowController.world it')
    = (if l is [] then WAITING else SPEAKING)
  ∧ totalDurationMs (FlowController.getStats (FlowController.world it')) = now - t0
  ∧ pending (FlowController.timers (FlowController.world it')) = ∅.
Proof.
  unfold stream_inv. destruct it as [w rn yl rs].
  cbn [FlowController.step FlowController.world FlowController.running
       FlowController.yielded FlowController.raised].
  fc_world w. cbn.
  intros (-> & -> & -> & -> & -> & -> & Hn & Hft & Hbuf & Ho & Hcb).
  destruct (owned_stop _ _ Ho) as [He _].
  destruct l as [|p l]; fc_run; unfold FlowController.resume; cbn;
    split_and!; try done; lia.
Qed.

Lemma fc_first_chunk_throws (t0 now : Z) (e : exn) (chunk : string) (b : loc)
  (it : FlowController.Iteration) :
  let w := FlowController.world it in
  FlowController.running it = true →
  FlowController.yielded it = [] →
  FlowController.startTime (FlowController.fc w) = Some t0 →
  FlowController.getState w = WAITING →
  FlowController.firstChunkEmitted (FlowController.fc w) = false →
  chunksProcessed (FlowController.stats (FlowController.fc w)) = 0 →
  buffer_inv 10 b [] (FlowController.bufferManager (FlowController.fc w))
    (FlowController.heap w) →
  timers_owned (FlowController.stallDetector (FlowController.fc w))
    (FlowController.timers w) →
  FlowController.onFirstChunk (FlowController.config (FlowController.fc w)) = Some e →
  let it' := FlowController.step (FlowController.OpChunk now chunk) it in
  FlowController.raised it' = Some (FlowController.stream_error e)
  ∧ FlowController.running it' = false
  ∧ FlowController.yielded it' = []
  ∧ FlowController.getState (FlowController.world it') = SPEAKING
  ∧ chunksProcessed (FlowController.getStats (FlowController.world it')) = 1
  ∧ FlowController.bufferedChunks (FlowController.world it') = [Some chunk]
  ∧ totalDurationMs (FlowController.getStats (FlowController.world it')) = now - t0
  ∧ pending (FlowController.timers (FlowController.world it')) = ∅.
Proof.
  destruct it as [w rn yl rs].
  cbn [FlowController.step FlowController.world FlowController.running
       FlowController.yielded FlowController.raised].
  fc_world w. destruct cfg as [thr phr en mx cb1 cb2 cb3]. cbn.
  intros -> -> -> -> -> Hn Hbuf Ho ->.
  pose proof (buffer_inv_add 10 ltac:(lia) _ _ chunk _ _ Hbuf) as Hbuf'.
  pose proof (buffer_inv_snapshot 10 ltac:(lia) _ _ _ _ Hbuf') as Hsnap.
  cbn in Hsnap.
  destruct (owned_stop _ _ (owned_notifyChunk now _ _ Ho)) as [He _].
  fc_run. unfold FlowController.resume. cbn.
  split_and!; [reflexivity|reflexivity|reflexivity|reflexivity|lia|exact Hsnap|
               reflexivity|exact He].
Qed.

Lemma fc_wrap_start (t0 : Z) (w : FlowController.World) :
  fc_wf w →
  FlowController.getState w = IDLE ∨ FlowController.getState w = INTERRUPTED →
  let it := FlowController.wrap t0 w in
  let w' := FlowController.world it in
  FlowController.running it = true
  ∧ FlowController.yielded it = []
  ∧ FlowController.startTime (FlowController.fc w') = Some t0
  ∧ FlowController.getState w' = WAITING
  ∧ FlowController.firstChunkEmitted (FlowController.fc w') = false
  ∧ chunksProcessed (FlowController.stats (FlowController.fc w')) = 0
  ∧ buffer_inv 10 (next_loc (FlowController.heap w)) []
      (FlowController.bufferManager (FlowController.fc w')) (FlowController.heap w')
  ∧ timers_owned (FlowController.stallDetector (FlowController.fc w'))
      (FlowController.timers w')
  ∧ FlowController.config (FlowController.fc w') = FlowController.config (FlowController.fc w).
Proof.
  intros (Ho & Hm & _) Hst. revert Ho Hm Hst.
  unfold FlowController.wrap. fc_world w. cbn. intros Ho Hm Hst.
  pose proof (buffer_inv_clear 10 bm hp ltac:(lia) Hm) as Hbuf.
  pose proof (owned_start t0 _ _ Ho) as Ho'.
  destruct Hst as [->| ->]; fc_run; by split_and!.
Qed.

(** X18.  What the input or the first-chunk callback throws reaches the
    consumer wrapped.  On a controller at rest: if the input throws [e] after
    any chunks, the wrapped stream has yielded those chunks and then throws
    the flow-control error that carries [e]; if [onFirstChunk] throws [e] at
    the first chunk, the stream throws the error that carries [e] without
    yielding the chunk, which has been counted and buffered all the same, and
    the state is left at [SPEAKING].  Either way the detector is stopped and
    the duration recorded. *)
Theorem controller_errors_are_wrapped (w : FlowController.World) (t0 now : Z) :
  fc_reachable w →
  FlowController.getState w = IDLE ∨ FlowController.getState w = INTERRUPTED →
  let it0 := FlowController.wrap t0 w in
  (∀ e ops,
     FlowController.onFirstChunk (FlowController.config (FlowController.fc w)) = None →
     Forall (λ o, delivers o = true) ops →
     let it := FlowController.run (ops ++ [FlowController.OpInputError now e]) it0 in
     FlowController.raised it = Some (FlowController.stream_error e)
     ∧ FlowController.running it = false
     ∧ FlowController.yielded it = map snd (stream_chunks ops)
     ∧ FlowController.getState (FlowController.world it)
       = (if stream_chunks ops is [] then WAITING else SPEAKING)
     ∧ totalDurationMs (FlowController.getStats (FlowController.world it)) = now - t0
     ∧ pending (FlowController.timers (FlowController.world it)) = ∅)
  ∧ (∀ e chunk,
       FlowController.onFirstChunk (FlowController.config (FlowController.fc w)) = Some e →
       let it := FlowController.step (FlowController.OpChunk now chunk) it0 in
       FlowController.raised it = Some (FlowController.stream_error e)
       ∧ FlowController.running it = false
       ∧ FlowController.yielded it = []
       ∧ FlowController.getState (FlowController.world it) = SPEAKING
       ∧ chunksProcessed (FlowController.getStats (FlowController.world it)) = 1
       ∧ FlowController.bufferedChunks (FlowController.world it) = [Some chunk]
       ∧ totalDurationMs (FlowController.getStats (FlowController.world it)) = now - t0
       ∧ pending (FlowController.timers (FlowController.world it)) = ∅).
Proof.
  intros Hr Hst it0. pose proof (fc_reachable_wf w Hr) as Hwf. split.
  - intros e ops Hcb Hops it.
    pose proof (fc_wrap_stream_inv t0 w Hwf Hst Hcb) as Hinv.
    apply (fc_run_stream_inv _ _ _ ops) in Hinv; [|done]. cbn [app] in Hinv.
    pose proof (fc_input_error_stream t0 now e _ _ _ Hinv) as Hend. cbn zeta in Hend.
    subst it it0. unfold FlowController.run in *. rewrite foldl_app. exact Hend.
  - intros e chunk Hcb it. subst it it0.
    destruct (fc_wrap_start t0 w Hwf Hst) as (H1 & H2 & H3 & H4 & H5 & H6 & H7 & H8 & H9).
    apply (fc_first_chunk_throws t0 now e chunk (next_loc (FlowController.heap w)));
      try done.
    by rewrite H9.
Qed.

Lemma controller_errors_are_wrapped_witness :
  FlowController.raised
    (FlowController.run
       ([FlowController.OpChunk 10 "a"]
        ++ [FlowController.OpInputError 20 (JsError "connection lost")])
       (FlowController.wrap 0 fresh_controller))
  = Some (FlowController.stream_error (JsError "connection lost")).
Proof.
  pose proof (controller_errors_are_wrapped fresh_controller 0 20
                (fc_sessions_reachable []) (or_introl eq_refl)) as [H _].
  apply (H (JsError "connection lost") [FlowController.OpChunk 10 "a"]).
  - reflexivity.
  - repeat constructor.
Defined.

(** ** The convenience function *)


